(** * Plugin registry, module loader, installation API and slot resolution

    A shallow embedding of the plugin system of the platform:

    - [lib/plugin-system/types.ts]   the data model;
    - [lib/plugin-system/store.ts]   the registry of manifests and the module
                                     loader with its two caches;
    - [lib/plugin-system/init.ts], [lib/plugin-system/loader.ts]
                                     start-up registration;
    - [app/api/plugins/route.ts]     the GET / POST / PATCH / DELETE handlers
                                     over the installation tables;
    - [components/DynamicSlot.tsx]   slot resolution in the browser;
    - [components/PluginCustomizer.tsx], [app/plugins/page.tsx]
                                     the per-entity override list kept in
                                     localStorage and the uninstall action.

    JavaScript [Map]s whose iteration order is observed are association
    lists in insertion order; the other maps are [gmap]s.  Module-level
    mutable state is passed explicitly. *)

From Stdlib Require Import Ascii String.
From stdpp Require Import gmap strings list fin_maps.


(* ===================================================================== *)
(** ** JavaScript preliminaries *)
(* ===================================================================== *)

(** What a [try] block can observe of a failing call. *)
Inductive Exception : Type :=
| TypeError          (* calling or reading through undefined / null *)
| SyntaxError        (* JSON.parse on a malformed text *)
| ModuleLoadError    (* a dynamic import() that rejects *)
| HookError          (* a plugin hook that throws or rejects *)
| RecordNotFound     (* Prisma P2025: the addressed record does not exist *)
| ValidationError.   (* Prisma: an argument of the wrong type for its field *)

Inductive Completion (A : Type) : Type :=
| Return (a : A)
| Throw (e : Exception).
Arguments Return {A} a.
Arguments Throw {A} e.

(** [!!s] for a string: every string but the empty one is truthy. *)
Definition truthy (s : string) : bool := negb (String.eqb s "").

(** Values produced by [JSON.parse]. *)
#[local] Unset Elimination Schemes.
Inductive JsonValue : Type :=
| JNull
| JBool (b : bool)
| JNumber (n : Z)
| JString (s : string)
| JArray (items : list JsonValue)
| JObject (fields : list (string * JsonValue)).
#[local] Set Elimination Schemes.

(** [Array.prototype.includes] with a string argument: only a string element
    can be equal to it. *)
Definition Array_includes (items : list JsonValue) (x : string) : bool :=
  existsb (fun v => match v with JString s => String.eqb s x | _ => false end) items.

(** [String.prototype.includes]: substring test. *)
Fixpoint String_includes (hay needle : string) : bool :=
  String.prefix needle hay ||
  match hay with
  | EmptyString => false
  | String _ rest => String_includes rest needle
  end.

(** [v.includes(x)] on a parsed JSON value: arrays and strings have the
    method, every other JSON value makes the call a [TypeError]. *)
Definition json_includes (v : JsonValue) (x : string) : Completion bool :=
  match v with
  | JArray items => Return (Array_includes items x)
  | JString s => Return (String_includes s x)
  | _ => Throw TypeError
  end.

(** [ids.filter(id => v.includes(id))]: the callback runs once per element,
    left to right, and the first exception aborts the filter. *)
Fixpoint filter_includes (v : JsonValue) (ids : list string) : Completion (list string) :=
  match ids with
  | [] => Return []
  | x :: rest =>
      match json_includes v x with
      | Throw e => Throw e
      | Return b =>
          match filter_includes v rest with
          | Throw e => Throw e
          | Return kept => Return (if b then x :: kept else kept)
          end
      end
  end.

(** *** An insertion-ordered [Map<string, V>] *)

Section JsMap.
Context {V : Type}.

Definition JsMap_has (k : string) (m : list (string * V)) : bool :=
  existsb (fun kv => String.eqb (fst kv) k) m.

Fixpoint JsMap_get (k : string) (m : list (string * V)) : option V :=
  match m with
  | [] => None
  | (k', v) :: rest => if String.eqb k' k then Some v else JsMap_get k rest
  end.

(** [set] overwrites in place when the key exists and appends otherwise. *)
Fixpoint JsMap_set (k : string) (v : V) (m : list (string * V)) : list (string * V) :=
  match m with
  | [] => [(k, v)]
  | (k', v') :: rest =>
      if String.eqb k' k then (k, v) :: rest else (k', v') :: JsMap_set k v rest
  end.

Definition JsMap_values (m : list (string * V)) : list V := map snd m.

Definition JsMap_keys (m : list (string * V)) : list string := map fst m.

End JsMap.

(** [new Map(entries)] when iteration order is not observed: later entries
    overwrite earlier ones. *)
Definition Map_of_entries {V : Type} (entries : list (string * V)) : gmap string V :=
  foldl (fun m kv => <[fst kv := snd kv]> m) ∅ entries.

(* ===================================================================== *)
(** ** Data model ([types.ts]) *)
(* ===================================================================== *)

Inductive EntityType : Type := company | investor | global.

Definition EntityType_eqb (a b : EntityType) : bool :=
  match a, b with
  | company, company | investor, investor | global, global => true
  | _, _ => false
  end.

(** The string a template literal produces for an entity type. *)
Definition EntityType_text (t : EntityType) : string :=
  match t with
  | company => "company"
  | investor => "investor"
  | global => "global"
  end.

Record SlotDecl : Type := {
  slot_name : string;
  slot_description : string
}.

(** [PluginManifest]; the display-only fields (description, version, author,
    icon, hooks, routes) play no part in any operation and are left out. *)
Record PluginManifest : Type := {
  manifest_id : string;
  manifest_name : string;
  manifest_entityTypes : list EntityType;
  manifest_slots : list SlotDecl
}.

(** A React component, known by the identity of its function. *)
Inductive Component : Type := ComponentRef (fn : string).

(** [PluginModule].  A hook is an effectful callback; it is given by its
    outcome as a function of how often it ran before, so that any sequence
    of outcomes can be described.  For [initialize], which is awaited
    inside a [try], [true] says that it completes and [false] that it throws
    or its promise rejects.  For [cleanup], which is called without [await],
    [false] says that the call itself throws. *)
Record PluginModule : Type := {
  module_manifest : PluginManifest;
  module_components : gmap string Component;
  module_initialize : option (nat -> bool);
  module_cleanup : option (nat -> bool)
}.

(** [PluginInstallation] as Prisma returns it; the two timestamps are left
    out.  The generated id is an opaque surrogate key. *)
Record PluginInstallation : Type := {
  inst_id : nat;
  inst_userId : string;
  inst_pluginId : string;
  inst_enabled : bool;
  inst_settings : JsonValue
}.

(* ===================================================================== *)
(** ** The registry and the module loader ([store.ts]) *)
(* ===================================================================== *)

Inductive ConsoleEntry : Type :=
| WarnAlreadyRegistered (pluginId : string)   (* console.warn, register *)
| LogRegistered (pluginName : string)         (* console.log, register *)
| WarnUnknownPlugin (pluginId : string)       (* console.warn, loaders *)
| ErrorFailedToLoad (pluginId : string) (e : Exception)  (* console.error, loaders *)
| ErrorSlotComponents (e : Exception)         (* console.error, DynamicSlot *)
| ErrorInRoute (what : string) (e : Exception)   (* console.error, route.ts *)
| LogMessage (text : string).                  (* console.log of a fixed text *)

(** The module-level state of [store.ts]: the three maps, the console, and
    the record of hook invocations (one plugin id per call, oldest first). *)
Record Store : Type := {
  availablePlugins : list (string * PluginManifest);
  loadedModules : gmap string PluginModule;
  componentCache : gmap string (gmap string Component);
  console : list ConsoleEntry;
  initializeRuns : list string;
  cleanupRuns : list string
}.

Definition Store_empty : Store :=
  {| availablePlugins := []; loadedModules := ∅; componentCache := ∅;
     console := []; initializeRuns := []; cleanupRuns := [] |}.

Definition console_write (entry : ConsoleEntry) (st : Store) : Store :=
  {| availablePlugins := availablePlugins st; loadedModules := loadedModules st;
     componentCache := componentCache st; console := console st ++ [entry];
     initializeRuns := initializeRuns st; cleanupRuns := cleanupRuns st |}.

Definition registerAvailablePlugin (manifest : PluginManifest) (st : Store) : Store :=
  if JsMap_has (manifest_id manifest) (availablePlugins st) then
    console_write (WarnAlreadyRegistered (manifest_id manifest)) st
  else
    console_write (LogRegistered (manifest_name manifest))
      {| availablePlugins := JsMap_set (manifest_id manifest) manifest (availablePlugins st);
         loadedModules := loadedModules st; componentCache := componentCache st;
         console := console st; initializeRuns := initializeRuns st;
         cleanupRuns := cleanupRuns st |}.

Definition getAvailablePlugins (st : Store) : list PluginManifest :=
  JsMap_values (availablePlugins st).

Definition getPluginManifest (pluginId : string) (st : Store) : option PluginManifest :=
  JsMap_get pluginId (availablePlugins st).

Definition getPluginsForEntityType (entityType : EntityType) (st : Store) : list PluginManifest :=
  filter (fun p => existsb (EntityType_eqb entityType) (manifest_entityTypes p) = true)
         (JsMap_values (availablePlugins st)).

(** The [switch] of both loaders: the closed set of ids with an import. *)
Inductive ImportCase : Type := import_company_metrics | import_investor_insights.

Definition import_case (pluginId : string) : option ImportCase :=
  if String.eqb pluginId "company-metrics" then Some import_company_metrics
  else if String.eqb pluginId "investor-insights" then Some import_investor_insights
  else None.

(** How often the [initialize] (resp. [cleanup]) hook of a plugin has run. *)
Definition runs_of (pluginId : string) (runs : list string) : nat :=
  length (filter (fun p => p = pluginId) runs).

Definition isPluginLoaded (pluginId : string) (st : Store) : bool :=
  bool_decide (is_Some (loadedModules st !! pluginId)).

Definition getPluginComponent (pluginId slotName : string) (st : Store) : option Component :=
  match componentCache st !! pluginId with
  | None => None
  | Some pluginComponents => pluginComponents !! slotName
  end.

Section Loader.

(** [(await import(path)).default] for each case of the switch: the bundled
    module, or the exception of an import that fails. *)
Variable dynamic_import : ImportCase -> Completion PluginModule.

(** The body of the [try] block of [loadPluginModule]. *)
Definition loadPluginModule_try (pluginId : string) (st : Store)
  : Completion (option PluginModule) * Store :=
  match import_case pluginId with
  | None => (Return None, console_write (WarnUnknownPlugin pluginId) st)
  | Some c =>
      match dynamic_import c with
      | Throw e => (Throw e, st)
      | Return module =>
          let publish (s : Store) : Completion (option PluginModule) * Store :=
            (Return (Some module),
             {| availablePlugins := availablePlugins s;
                loadedModules := <[pluginId := module]> (loadedModules s);
                componentCache := <[pluginId := module_components module]> (componentCache s);
                console := console s; initializeRuns := initializeRuns s;
                cleanupRuns := cleanupRuns s |}) in
          match module_initialize module with
          | None => publish st
          | Some initialize =>
              let ran :=
                {| availablePlugins := availablePlugins st;
                   loadedModules := loadedModules st;
                   componentCache := componentCache st; console := console st;
                   initializeRuns := initializeRuns st ++ [pluginId];
                   cleanupRuns := cleanupRuns st |} in
              if initialize (runs_of pluginId (initializeRuns st))
              then publish ran
              else (Throw HookError, ran)
          end
      end
  end.

Definition loadPluginModule (pluginId : string) (st : Store)
  : Completion (option PluginModule) * Store :=
  match loadedModules st !! pluginId with
  | Some module => (Return (Some module), st)
  | None =>
      match loadPluginModule_try pluginId st with
      | (Throw e, st') => (Return None, console_write (ErrorFailedToLoad pluginId e) st')
      | returned => returned
      end
  end.

(** [unloadPluginModule]: the hook is called without [await] and outside any
    [try], so only a synchronous throw escapes, and then before the
    deletions. *)
Definition unloadPluginModule (pluginId : string) (st : Store) : Completion unit * Store :=
  let evict (s : Store) : Completion unit * Store :=
    (Return tt,
     {| availablePlugins := availablePlugins s;
        loadedModules := delete pluginId (loadedModules s);
        componentCache := delete pluginId (componentCache s);
        console := console s; initializeRuns := initializeRuns s;
        cleanupRuns := cleanupRuns s |}) in
  match loadedModules st !! pluginId with
  | Some module =>
      match module_cleanup module with
      | Some cleanup =>
          let ran :=
            {| availablePlugins := availablePlugins st;
               loadedModules := loadedModules st;
               componentCache := componentCache st; console := console st;
               initializeRuns := initializeRuns st;
               cleanupRuns := cleanupRuns st ++ [pluginId] |} in
          if cleanup (runs_of pluginId (cleanupRuns st))
          then evict ran
          else (Throw HookError, ran)
      | None => evict st
      end
  | None => evict st
  end.

(** The states the loader can be in: the empty store and whatever
    registration, loading and unloading make of it. *)
Inductive reachable : Store -> Prop :=
| reachable_empty : reachable Store_empty
| reachable_register manifest st :
    reachable st -> reachable (registerAvailablePlugin manifest st)
| reachable_load pluginId st :
    reachable st -> reachable (snd (loadPluginModule pluginId st))
| reachable_unload pluginId st :
    reachable st -> reachable (snd (unloadPluginModule pluginId st)).

End Loader.

(* ===================================================================== *)
(** ** Start-up registration ([init.ts], [loader.ts]) *)
(* ===================================================================== *)

(** [init.ts], imported by the route: registers the two manifests it is
    given, in this order. *)
Definition initializeAvailablePlugins
    (companyMetricsManifest investorInsightsManifest : PluginManifest) (st : Store) : Store :=
  console_write (LogMessage "Plugin registration complete")
    (registerAvailablePlugin investorInsightsManifest
       (registerAvailablePlugin companyMetricsManifest
          (console_write (LogMessage "Registering available plugins...") st))).

(** [loader.ts]: registers the manifest of every listed module, once. *)
Definition loadPlugins (plugins : list PluginModule) (initialized : bool) (st : Store)
  : bool * Store :=
  if initialized then (true, st)
  else (true, foldl (fun s plugin => registerAvailablePlugin (module_manifest plugin) s) st plugins).

(* ===================================================================== *)
(** ** The installation tables and the HTTP handlers ([route.ts]) *)
(* ===================================================================== *)

(** The columns of a [PluginInstallation] row besides its compound unique key
    [userId_pluginId], by which every handler addresses the row. *)
Record InstallationColumns : Type := {
  col_id : nat;
  col_enabled : bool;
  col_settings : JsonValue
}.

(** Modelled from the spec: the columns of an [EntityPluginConfig] row
    (the Prisma schema is not among the sources; the handler only shows
    [userId] and [pluginId]).  Identity per the spec: viewer, entity type,
    entity id. *)
Record EntityPluginConfig : Type := {
  epc_userId : string;
  epc_pluginId : string;
  epc_entityType : string;
  epc_entityId : string
}.

(** The two tables.  [pluginInstallation] is keyed by (userId, pluginId):
    the handlers address rows through the unique selector [userId_pluginId],
    so the table holds at most one row per pair. *)
Record Db : Type := {
  pluginInstallation : gmap (string * string) InstallationColumns;
  entityPluginConfig : list EntityPluginConfig;
  nextId : nat
}.

Definition Db_empty : Db :=
  {| pluginInstallation := ∅; entityPluginConfig := []; nextId := 0 |}.

Definition row_of (key : string * string) (c : InstallationColumns) : PluginInstallation :=
  {| inst_id := col_id c; inst_userId := fst key; inst_pluginId := snd key;
     inst_enabled := col_enabled c; inst_settings := col_settings c |}.

(** [update] / [data] arguments: the fields that are present are written. *)
Record InstallationPatch : Type := {
  patch_enabled : option bool;
  patch_settings : option JsonValue
}.

Definition apply_patch (p : InstallationPatch) (c : InstallationColumns) : InstallationColumns :=
  {| col_id := col_id c;
     col_enabled := default (col_enabled c) (patch_enabled p);
     col_settings := default (col_settings c) (patch_settings p) |}.

(** [prisma.pluginInstallation.findMany({ where: { userId } })]; the order
    of the rows is the table's, not an order the handlers choose. *)
Definition pluginInstallation_findMany (userId : string) (db : Db) : list PluginInstallation :=
  map (fun kc => row_of (fst kc) (snd kc))
      (filter (fun kc => fst (fst kc) = userId) (map_to_list (pluginInstallation db))).

Definition pluginInstallation_findUnique (userId pluginId : string) (db : Db)
  : option PluginInstallation :=
  row_of (userId, pluginId) <$> pluginInstallation db !! (userId, pluginId).

(** [update({ where, data })] rejects when the row does not exist. *)
Definition pluginInstallation_update (userId pluginId : string)
    (data : InstallationPatch) (db : Db) : Completion PluginInstallation * Db :=
  match pluginInstallation db !! (userId, pluginId) with
  | Some c =>
      let c' := apply_patch data c in
      (Return (row_of (userId, pluginId) c'),
       {| pluginInstallation := <[(userId, pluginId) := c']> (pluginInstallation db);
          entityPluginConfig := entityPluginConfig db; nextId := nextId db |})
  | None => (Throw RecordNotFound, db)
  end.

(** [delete({ where })] rejects when the row does not exist. *)
Definition pluginInstallation_delete (userId pluginId : string) (db : Db)
  : Completion unit * Db :=
  match pluginInstallation db !! (userId, pluginId) with
  | Some _ =>
      (Return tt,
       {| pluginInstallation := delete (userId, pluginId) (pluginInstallation db);
          entityPluginConfig := entityPluginConfig db; nextId := nextId db |})
  | None => (Throw RecordNotFound, db)
  end.

(** [prisma.entityPluginConfig.deleteMany({ where: { userId, pluginId } })]. *)
Definition entityPluginConfig_deleteMany (userId pluginId : string) (db : Db) : Db :=
  {| pluginInstallation := pluginInstallation db;
     entityPluginConfig :=
       filter (fun r => ¬ (epc_userId r = userId ∧ epc_pluginId r = pluginId))
              (entityPluginConfig db);
     nextId := nextId db |}.

(** The server process: the store module and the database. *)
Record Server : Type := {
  server_store : Store;
  server_db : Db
}.

Definition with_db (srv : Server) (db : Db) : Server :=
  {| server_store := server_store srv; server_db := db |}.

Definition route_error (what : string) (e : Exception) (srv : Server) : Server :=
  {| server_store := console_write (ErrorInRoute what e) (server_store srv);
     server_db := server_db srv |}.

(** A session, as [auth.api.getSession] yields it from the request's
    cookies on the server and as [useSession] yields it on a page: the id
    of its user, or no session. *)
Definition Session : Type := option string.

(** An optional string that passes a truthiness test. *)
Definition truthy_string (o : option string) : option string :=
  match o with
  | Some s => if truthy s then Some s else None
  | None => None
  end.

(** [session?.user?.id] under a truthiness test. *)
Definition session_user_id (session : Session) : option string := truthy_string session.

(** One entry of the [plugins] array of GET: the manifest's fields spread,
    then the three installation fields. *)
Record PluginInfo : Type := {
  info_manifest : PluginManifest;
  info_installed : bool;
  info_enabled : bool;
  info_settings : JsonValue
}.

Inductive ResponseBody : Type :=
| PluginsBody (plugins : list PluginInfo) (isAuthenticated : bool)
| InstalledBody (installation : PluginInstallation) (manifest : PluginManifest)
| UpdatedBody (installation : PluginInstallation)
| SuccessBody
| ErrorBody (error : string).

Record HttpResponse : Type := {
  status : nat;
  body : ResponseBody
}.

Definition json_response (b : ResponseBody) (code : nat) : HttpResponse :=
  {| status := code; body := b |}.

(** [x ?? d] for a JSON-valued [x]: [undefined] and [null] give [d]. *)
Definition nullish (d : JsonValue) (x : option JsonValue) : JsonValue :=
  match x with
  | Some JNull | None => d
  | Some v => v
  end.

(** The [plugins] array: one entry per manifest, in the order of
    [getAvailablePlugins], looked up in a map keyed by plugin id. *)
Definition plugin_infos (available : list PluginManifest)
    (installations : list PluginInstallation) : list PluginInfo :=
  let installationMap := Map_of_entries (map (fun i => (inst_pluginId i, i)) installations) in
  map (fun manifest =>
         {| info_manifest := manifest;
            info_installed := bool_decide (is_Some (installationMap !! manifest_id manifest));
            info_enabled :=
              default false (inst_enabled <$> installationMap !! manifest_id manifest);
            info_settings :=
              nullish (JObject []) (inst_settings <$> installationMap !! manifest_id manifest) |})
      available.

(** The handlers.  Each wraps its body in a [try] whose [catch] logs and
    answers 500.  [POST] and [PATCH] below are the handlers from the
    destructured fields on, for a body that carries a string (or nothing)
    as [pluginId] and well-typed values for the other fields; [POST_request]
    and [PATCH_request] further down are the whole handlers on any body, and
    fall back on them.  Outages of the database or of the session lookup are
    outside the model.  The [pluginId] of a request is [None] when the body
    or query has none. *)

(** GET /api/plugins. *)
Definition GET (srv : Server) (session : Session) : HttpResponse * Server :=
  let available := getAvailablePlugins (server_store srv) in
  let installations :=
    match session_user_id session with
    | Some userId => pluginInstallation_findMany userId (server_db srv)
    | None => []
    end in
  (json_response
     (PluginsBody (plugin_infos available installations) (bool_decide (is_Some session))) 200,
   srv).

Section Api.

(** The schema default of the [settings] column, which [create] leaves
    unset (the Prisma schema is not among the sources). *)
Variable settings_default : JsonValue.

(** [upsert({ where, create: { userId, pluginId, enabled }, update })]. *)
Definition pluginInstallation_upsert (userId pluginId : string)
    (create_enabled : bool) (update : InstallationPatch) (db : Db) : PluginInstallation * Db :=
  match pluginInstallation db !! (userId, pluginId) with
  | Some c =>
      let c' := apply_patch update c in
      (row_of (userId, pluginId) c',
       {| pluginInstallation := <[(userId, pluginId) := c']> (pluginInstallation db);
          entityPluginConfig := entityPluginConfig db; nextId := nextId db |})
  | None =>
      let c' := {| col_id := nextId db; col_enabled := create_enabled;
                   col_settings := settings_default |} in
      (row_of (userId, pluginId) c',
       {| pluginInstallation := <[(userId, pluginId) := c']> (pluginInstallation db);
          entityPluginConfig := entityPluginConfig db; nextId := S (nextId db) |})
  end.

(** POST /api/plugins, body [{ pluginId }]. *)
Definition POST (srv : Server) (session : Session) (pluginId : option string)
  : HttpResponse * Server :=
  match session_user_id session with
  | None => (json_response (ErrorBody "Authentication required") 401, srv)
  | Some userId =>
      match truthy_string pluginId with
      | None => (json_response (ErrorBody "Plugin ID is required") 400, srv)
      | Some pluginId =>
          match getPluginManifest pluginId (server_store srv) with
          | None => (json_response (ErrorBody "Plugin not found") 404, srv)
          | Some manifest =>
              let '(installation, db) :=
                pluginInstallation_upsert userId pluginId true
                  {| patch_enabled := Some true; patch_settings := None |}
                  (server_db srv) in
              (json_response (InstalledBody installation manifest) 200, with_db srv db)
          end
      end
  end.

End Api.

(** PATCH /api/plugins, body [{ pluginId, enabled, settings }]. *)
Definition PATCH (srv : Server) (session : Session) (pluginId : option string)
    (enabled : option bool) (settings : option JsonValue) : HttpResponse * Server :=
  match session_user_id session with
  | None => (json_response (ErrorBody "Authentication required") 401, srv)
  | Some userId =>
      match truthy_string pluginId with
      | None => (json_response (ErrorBody "Plugin ID is required") 400, srv)
      | Some pluginId =>
          match pluginInstallation_findUnique userId pluginId (server_db srv) with
          | None => (json_response (ErrorBody "Plugin not installed") 404, srv)
          | Some _ =>
              match pluginInstallation_update userId pluginId
                      {| patch_enabled := enabled; patch_settings := settings |}
                      (server_db srv) with
              | (Return installation, db) =>
                  (json_response (UpdatedBody installation) 200, with_db srv db)
              | (Throw e, db) =>
                  (json_response (ErrorBody "Failed to update plugin") 500,
                   route_error "Error updating plugin:" e (with_db srv db))
              end
          end
      end
  end.

(** DELETE /api/plugins?pluginId=...: two statements in sequence inside one
    [try]; when the first rejects the second is not reached. *)
Definition DELETE (srv : Server) (session : Session) (pluginId : option string)
  : HttpResponse * Server :=
  match session_user_id session with
  | None => (json_response (ErrorBody "Authentication required") 401, srv)
  | Some userId =>
      match truthy_string pluginId with
      | None => (json_response (ErrorBody "Plugin ID is required") 400, srv)
      | Some pluginId =>
          match pluginInstallation_delete userId pluginId (server_db srv) with
          | (Throw e, db) =>
              (json_response (ErrorBody "Failed to uninstall plugin") 500,
               route_error "Error uninstalling plugin:" e (with_db srv db))
          | (Return _, db) =>
              (json_response SuccessBody 200,
               with_db srv (entityPluginConfig_deleteMany userId pluginId db))
          end
      end
  end.

(** *** The handlers on any request body *)

(** [!!v] for a JSON value. *)
Definition json_truthy (v : JsonValue) : bool :=
  match v with
  | JNull => false
  | JBool b => b
  | JNumber n => negb (n =? 0)%Z
  | JString s => truthy s
  | JArray _ | JObject _ => true
  end.

(** One name of [const { ... } = body]: destructuring [null] throws; an
    object gives the property or [undefined]; numbers, booleans, strings
    and arrays have no property of the three names. *)
Definition destructure (body : JsonValue) (name : string) : Completion (option JsonValue) :=
  match body with
  | JNull => Throw TypeError
  | JObject fields => Return (JsMap_get name fields)
  | _ => Return None
  end.

(** [!pluginId] for a destructured value. *)
Definition absent_or_falsy (v : option JsonValue) : bool :=
  match v with
  | Some v => negb (json_truthy v)
  | None => true
  end.

Section Requests.

Variable settings_default : JsonValue.

(** What Prisma's validation makes of the [data] of [update], built from
    the body's [enabled] and [settings] when they are there: the fields to
    write, or a rejection (the schema is not among the sources). *)
Variable prisma_data : option JsonValue -> option JsonValue -> Completion InstallationPatch.


(** PATCH /api/plugins on such a request.  [findUnique] rejects a
    [pluginId] that is no string; the row is looked up before [update]
    validates its [data]. *)
Definition PATCH_request (srv : Server) (session : Session) (body : Completion JsonValue)
  : HttpResponse * Server :=
  let failed (e : Exception) :=
    (json_response (ErrorBody "Failed to update plugin") 500,
     route_error "Error updating plugin:" e srv) in
  match session_user_id session with
  | None => (json_response (ErrorBody "Authentication required") 401, srv)
  | Some userId =>
      match body with
      | Throw e => failed e
      | Return body =>
          match destructure body "pluginId", destructure body "enabled",
                destructure body "settings" with
          | Return pluginId, Return enabled, Return settings =>
              if absent_or_falsy pluginId
              then (json_response (ErrorBody "Plugin ID is required") 400, srv)
              else match pluginId with
                   | Some (JString pluginId) =>
                       match pluginInstallation_findUnique userId pluginId (server_db srv) with
                       | None => (json_response (ErrorBody "Plugin not installed") 404, srv)
                       | Some _ =>
                           match prisma_data enabled settings with
                           | Throw e => failed e
                           | Return data =>
                               PATCH srv session (Some pluginId)
                                 (patch_enabled data) (patch_settings data)
                           end
                       end
                   | _ => failed ValidationError
                   end
          | Throw e, _, _ | _, Throw e, _ | _, _, Throw e => failed e
          end
      end
  end.

End Requests.

(* ===================================================================== *)
(** ** Slot resolution in the browser ([DynamicSlot.tsx]) *)
(* ===================================================================== *)

(** What the browser holds: [localStorage], the [componentCache] of the
    [DynamicSlot] module (a map of its own, not the store's; it is called
    [slotCache] here because the store's field has the name) and the
    console. *)
Record Browser : Type := {
  localStorage : gmap string string;
  slotCache : gmap string (gmap string Component);
  browser_console : list ConsoleEntry
}.

Definition Browser_empty : Browser :=
  {| localStorage := ∅; slotCache := ∅; browser_console := [] |}.

Definition browser_write (entry : ConsoleEntry) (b : Browser) : Browser :=
  {| localStorage := localStorage b; slotCache := slotCache b;
     browser_console := browser_console b ++ [entry] |}.

(** The props of [DynamicSlot] that resolution reads ([data], [context] and
    [fallback] only reach the rendered components).  Pages pass [company] or
    [investor] as entity type. *)
Record DynamicSlotProps : Type := {
  slotName : string;
  entityType : option EntityType;
  entityId : option string
}.

(** The React state of one [DynamicSlot]. *)
Record SlotState : Type := {
  components : list Component;
  loading : bool;
  error : option string
}.

Definition SlotState_initial : SlotState :=
  {| components := []; loading := true; error := None |}.

(** The plugin components the slot puts on the page: none while loading or
    after an error (only the fallback, if any, is shown then). *)
Definition rendered (st : SlotState) : list Component :=
  if loading st then []
  else match error st with
       | Some _ => []
       | None => components st
       end.

(** The key shared by [DynamicSlot] and [PluginCustomizer]. *)
Definition storageKey (entityType : EntityType) (entityId : string) : string :=
  "entity-plugins:" +:+ EntityType_text entityType +:+ ":" +:+ entityId.

(** The filter of [loadSlotComponents]: installed, enabled, and declaring
    the slot. *)
Definition provides_slot (slotName : string) (p : PluginInfo) : bool :=
  info_installed p && info_enabled p &&
  existsb (fun s => String.eqb (slot_name s) slotName) (manifest_slots (info_manifest p)).

Definition enabledPlugins (slotName : string) (plugins : list PluginInfo) : list PluginInfo :=
  filter (fun p => provides_slot slotName p = true) plugins.

Section Resolver.

(** The outcome of the imports during one resolution.  A failed import is
    not remembered and is tried again by the next resolution, so statements
    about several resolutions take one such function for each. *)
Variable dynamic_import : ImportCase -> Completion PluginModule.

(** [JSON.parse] of the browser. *)
Variable JSON_parse : string -> Completion JsonValue.

(** [loadPluginComponent]: cache, then the switch, then the module's
    component for the slot; every failure is a [null]. *)
Definition loadPluginComponent (pluginId slotName : string) (b : Browser)
  : option Component * Browser :=
  match slotCache b !! pluginId ≫= (fun slots => slots !! slotName) with
  | Some cached => (Some cached, b)
  | None =>
      match import_case pluginId with
      | None => (None, browser_write (WarnUnknownPlugin pluginId) b)
      | Some c =>
          match dynamic_import c with
          | Throw e => (None, browser_write (ErrorFailedToLoad pluginId e) b)
          | Return pluginModule =>
              match module_components pluginModule !! slotName with
              | Some component =>
                  (Some component,
                   {| localStorage := localStorage b;
                      slotCache :=
                        <[pluginId := <[slotName := component]>
                                        (default ∅ (slotCache b !! pluginId))]> (slotCache b);
                      browser_console := browser_console b |})
              | None => (None, b)
              end
          end
      end
  end.

(** The [for] loop over [activePluginIds]. *)
Fixpoint loadComponents (ids : list string) (slotName : string) (b : Browser)
  : list Component * Browser :=
  match ids with
  | [] => ([], b)
  | pluginId :: rest =>
      let '(component, b1) := loadPluginComponent pluginId slotName b in
      let '(loaded, b2) := loadComponents rest slotName b1 in
      (match component with Some c => c :: loaded | None => loaded end, b2)
  end.

(** The entity-specific narrowing of [activePluginIds]: consulted only when
    entity type, entity id and the page's session user id are all truthy and
    something truthy is stored under the key; an exception inside the inner
    [try] leaves the list as it was. *)
Definition entity_override (props : DynamicSlotProps) (session : Session)
    (storage : gmap string string) (ids : list string) : list string :=
  match entityType props, truthy_string (entityId props), session_user_id session with
  | Some etype, Some eid, Some _ =>
      match truthy_string (storage !! storageKey etype eid) with
      | Some saved =>
          match JSON_parse saved with
          | Return entityConfig =>
              match filter_includes entityConfig ids with
              | Return kept => kept
              | Throw _ => ids
              end
          | Throw _ => ids
          end
      | None => ids
      end
  | _, _, _ => ids
  end.

Definition activePluginIds (props : DynamicSlotProps) (session : Session)
    (storage : gmap string string) (plugins : list PluginInfo) : list string :=
  entity_override props session storage
    (map (fun p => manifest_id (info_manifest p)) (enabledPlugins (slotName props) plugins)).

(** The body of the outer [try] of [loadSlotComponents].  [response] is what
    [await response.json()] gave; a body without a [plugins] array makes
    [plugins.filter] a [TypeError]. *)
Definition loadSlotComponents_try (props : DynamicSlotProps) (session : Session)
    (response : Completion ResponseBody) (b : Browser) : Completion (list Component) * Browser :=
  match response with
  | Throw e => (Throw e, b)
  | Return (PluginsBody plugins _) =>
      let '(loaded, b') :=
        loadComponents (activePluginIds props session (localStorage b) plugins)
                       (slotName props) b in
      (Return loaded, b')
  | Return _ => (Throw TypeError, b)
  end.

Definition loadSlotComponents (props : DynamicSlotProps) (session : Session)
    (response : Completion ResponseBody) (st : SlotState) (b : Browser) : SlotState * Browser :=
  match loadSlotComponents_try props session response b with
  | (Return loaded, b') =>
      ({| components := loaded; loading := false; error := None |}, b')
  | (Throw e, b') =>
      ({| components := components st; loading := false;
          error := Some "Failed to load plugins" |},
       browser_write (ErrorSlotComponents e) b')
  end.

(** One resolution: the page fetches GET /api/plugins, which the server
    answers for the session of the request's cookies, and then runs
    [loadSlotComponents] with the session its own [useSession] hook holds at
    that moment (none while that hook is still pending). *)
Definition resolveSlot (srv : Server) (cookieSession pageSession : Session)
    (props : DynamicSlotProps) (st : SlotState) (b : Browser) : SlotState * Browser :=
  loadSlotComponents props pageSession (Return (body (fst (GET srv cookieSession)))) st b.

(** The ids [resolveSlot] loads components for. *)
Definition resolvedPluginIds (srv : Server) (cookieSession pageSession : Session)
    (props : DynamicSlotProps) (b : Browser) : list string :=
  match body (fst (GET srv cookieSession)) with
  | PluginsBody plugins _ => activePluginIds props pageSession (localStorage b) plugins
  | _ => []
  end.

End Resolver.

(* ===================================================================== *)
(** ** The override list and the uninstall action
       ([PluginCustomizer.tsx], [app/plugins/page.tsx]) *)
(* ===================================================================== *)

Section Customizer.

(** [JSON.stringify] on an array of strings. *)
Variable JSON_stringify : list string -> string.

(** [saveEntityConfig]: the list replaces whatever was stored under the key. *)
Definition saveEntityConfig (entityType : EntityType) (entityId : string)
    (newConfig : list string) (b : Browser) : Browser :=
  {| localStorage := <[storageKey entityType entityId := JSON_stringify newConfig]> (localStorage b);
     slotCache := slotCache b; browser_console := browser_console b |}.

End Customizer.

(** Server and browser together. *)
Record App : Type := {
  app_server : Server;
  app_browser : Browser
}.

(** [uninstallPlugin] of the plugins page: one DELETE request whose URL is
    [/api/plugins?pluginId=] followed by the id, which the page does not
    escape.  [query_pluginId] is the URL parsing of the platform: what
    [searchParams.get("pluginId")] gives the handler for the URL built from
    an id (the id itself only when nothing in it has a meaning in a query
    string).  The browser's storage is not part of the action, and the
    refresh of the page's own plugin list on success changes neither server
    nor storage. *)
Definition uninstallPlugin (query_pluginId : string -> string)
    (cookieSession : Session) (pluginId : string) (app : App) : HttpResponse * App :=
  let '(response, srv) :=
    DELETE (app_server app) cookieSession (Some (query_pluginId pluginId)) in
  (response, {| app_server := srv; app_browser := app_browser app |}).

(* ===================================================================== *)
(** ** Derived notions used by the statements *)
(* ===================================================================== *)

(** A sequence of [register] calls, first to last. *)
Definition register_all (manifests : list PluginManifest) (st : Store) : Store :=
  foldl (fun s manifest => registerAvailablePlugin manifest s) st manifests.

(** The first manifest of a sequence that carries a given id. *)
Definition first_with_id (pluginId : string) (manifests : list PluginManifest)
  : option PluginManifest :=
  find (fun m => String.eqb (manifest_id m) pluginId) manifests.

(** The component the bundle behind the switch holds for a plugin and a
    slot, if the id has a case, the import succeeds and the module has one. *)
Definition bundled_component (dynamic_import : ImportCase -> Completion PluginModule)
    (pluginId slotName : string) : option Component :=
  match import_case pluginId with
  | Some c =>
      match dynamic_import c with
      | Return pluginModule => module_components pluginModule !! slotName
      | Throw _ => None
      end
  | None => None
  end.

(** The browser's component cache only holds what a bundle provided. *)
Definition cache_ok (dynamic_import : ImportCase -> Completion PluginModule) (b : Browser) : Prop :=
  ∀ pluginId slots slotName c,
    slotCache b !! pluginId = Some slots → slots !! slotName = Some c →
    bundled_component dynamic_import pluginId slotName = Some c.

(** The installed, enabled, slot-declaring plugins GET reports to a cookie
    session, by id: the candidates before any entity override. *)
Definition candidatePluginIds (srv : Server) (cookieSession : Session) (slot : string)
  : list string :=
  match body (fst (GET srv cookieSession)) with
  | PluginsBody plugins _ =>
      map (fun p => manifest_id (info_manifest p)) (enabledPlugins slot plugins)
  | _ => []
  end.

(** The table only holds rows with truthy user and plugin ids, as every row
    the handlers create has. *)
Definition Db_wf (db : Db) : Prop :=
  map_Forall (fun key _ => truthy (fst key) = true ∧ truthy (snd key) = true)
             (pluginInstallation db).


(** The same browser over another [localStorage]. *)
Definition with_storage (storage : gmap string string) (b : Browser) : Browser :=
  {| localStorage := storage; slotCache := slotCache b; browser_console := browser_console b |}.


(** The viewer's row for a plugin, as the server sees the viewer. *)
Definition installation_of (srv : Server) (cookieSession : Session) (pluginId : string)
  : option InstallationColumns :=
  match session_user_id cookieSession with
  | Some userId => pluginInstallation (server_db srv) !! (userId, pluginId)
  | None => None
  end.

Definition declares_slot (slot : string) (manifest : PluginManifest) : bool :=
  existsb (fun s => String.eqb (slot_name s) slot) (manifest_slots manifest).

(** Installed and enabled for the viewer, and declaring the slot. *)
Definition is_candidate (srv : Server) (cookieSession : Session) (slot : string)
    (manifest : PluginManifest) : bool :=
  match installation_of srv cookieSession (manifest_id manifest) with
  | Some cols => col_enabled cols
  | None => false
  end && declares_slot slot manifest.

(** What a registry built from a sequence of registrations looks like. *)
Definition registry_of (manifests : list PluginManifest)
    (registry : list (string * PluginManifest)) : Prop :=
  NoDup (JsMap_keys registry) ∧
  (∀ k m, (k, m) ∈ registry → manifest_id m = k ∧ first_with_id k manifests = Some m) ∧
  (∀ m, m ∈ manifests → manifest_id m ∈ JsMap_keys registry).

(** Only modules the switch produced are ever loaded, and a plugin that is
    not loaded has no cached components. *)
Definition loader_inv (dynamic_import : ImportCase -> Completion PluginModule)
    (st : Store) : Prop :=
  (∀ pluginId module,
     loadedModules st !! pluginId = Some module →
     ∃ c, import_case pluginId = Some c ∧ dynamic_import c = Return module) ∧
  (∀ pluginId, loadedModules st !! pluginId = None → componentCache st !! pluginId = None).

(* ===================================================================== *)
(** ** The plugins of the repository and sample states *)
(* ===================================================================== *)

Definition companyMetricsManifest : PluginManifest :=
  {| manifest_id := "company-metrics";
     manifest_name := "Company Metrics";
     manifest_entityTypes := [company];
     manifest_slots :=
       [ {| slot_name := "CompanyProfile.Header";
            slot_description := "Quick stats cards showing funding totals" |};
         {| slot_name := "CompanyProfile.Details";
            slot_description := "Funding journey chart and health score" |} ] |}.

Definition investorInsightsManifest : PluginManifest :=
  {| manifest_id := "investor-insights";
     manifest_name := "Investor Insights";
     manifest_entityTypes := [investor];
     manifest_slots :=
       [ {| slot_name := "InvestorProfile.Header";
            slot_description := "Portfolio stats cards" |};
         {| slot_name := "InvestorProfile.Portfolio";
            slot_description := "Sector charts and investment timeline" |} ] |}.

Definition timelineManifest : PluginManifest :=
  {| manifest_id := "timeline";
     manifest_name := "Timeline";
     manifest_entityTypes := [company];
     manifest_slots :=
       [ {| slot_name := "CompanyProfile.Header";
            slot_description := "Recent activity summary in company header" |};
         {| slot_name := "CompanyProfile.Details";
            slot_description := "Detailed timeline and journey summary" |} ] |}.

Definition companyMetricsPlugin : PluginModule :=
  {| module_manifest := companyMetricsManifest;
     module_components :=
       <["CompanyProfile.Header" := ComponentRef "QuickStatsCard"]>
       (<["CompanyProfile.Details" := ComponentRef "CompanyDetailsSection"]> ∅);
     module_initialize := None;
     module_cleanup := None |}.

Definition investorInsightsPlugin : PluginModule :=
  {| module_manifest := investorInsightsManifest;
     module_components :=
       <["InvestorProfile.Header" := ComponentRef "PortfolioStats"]>
       (<["InvestorProfile.Portfolio" := ComponentRef "InvestorPortfolioSection"]> ∅);
     module_initialize := None;
     module_cleanup := None |}.

Definition timelinePlugin : PluginModule :=
  {| module_manifest := timelineManifest;
     module_components :=
       <["CompanyProfile.Header" := ComponentRef "RecentActivity"]>
       (<["CompanyProfile.Details" := ComponentRef "MilestonesTimeline"]>
       (<["CompanyProfile.Summary" := ComponentRef "CompanyJourneySummary"]> ∅));
     module_initialize := None;
     module_cleanup := None |}.

(** The imports as bundled: both succeed. *)
Definition bundled_import (c : ImportCase) : Completion PluginModule :=
  match c with
  | import_company_metrics => Return companyMetricsPlugin
  | import_investor_insights => Return investorInsightsPlugin
  end.

(** A bundle whose company-metrics module has an [initialize] hook that
    fails the first time it runs and succeeds afterwards. *)
Definition flaky_import (c : ImportCase) : Completion PluginModule :=
  match c with
  | import_company_metrics =>
      Return {| module_manifest := companyMetricsManifest;
                module_components := module_components companyMetricsPlugin;
                module_initialize := Some (fun earlier => negb (Nat.eqb earlier 0));
                module_cleanup := None |}
  | import_investor_insights => Return investorInsightsPlugin
  end.

(** *** [JSON] on arrays of plain strings

    The fragment the override list lives in: an array of string literals
    without escapes, written without white space, as [JSON.stringify] writes
    an array of plugin ids.  Texts outside the fragment are rejected; the
    statements only use this parser on texts of the fragment and on texts
    that are no JSON at all. *)

Definition dquote : Ascii.ascii := "034"%char.
Definition backslash : Ascii.ascii := "092"%char.

Definition stringify_ids (ids : list string) : string :=
  "[" +:+ String.concat "," (map (fun s => String dquote (s +:+ String dquote "")) ids) +:+ "]".

Inductive ArrayParser : Type :=
| AtStart                       (* nothing read *)
| AfterOpen                     (* read the opening bracket *)
| InLiteral (read : string)     (* inside a string literal *)
| AfterLiteral                  (* read a complete literal *)
| AfterComma                    (* read a comma, a literal must follow *)
| AtEnd                         (* read the closing bracket *)
| Rejected.

Definition array_parser_step (state : ArrayParser) (items : list JsonValue) (c : Ascii.ascii)
  : ArrayParser * list JsonValue :=
  match state with
  | AtStart => if Ascii.eqb c "["%char then (AfterOpen, items) else (Rejected, items)
  | AfterOpen =>
      if Ascii.eqb c "]"%char then (AtEnd, items)
      else if Ascii.eqb c dquote then (InLiteral "", items)
      else (Rejected, items)
  | InLiteral read =>
      if Ascii.eqb c dquote then (AfterLiteral, items ++ [JString read])
      else if Ascii.eqb c backslash then (Rejected, items)
      else (InLiteral (read +:+ String c ""), items)
  | AfterLiteral =>
      if Ascii.eqb c "]"%char then (AtEnd, items)
      else if Ascii.eqb c ","%char then (AfterComma, items)
      else (Rejected, items)
  | AfterComma => if Ascii.eqb c dquote then (InLiteral "", items) else (Rejected, items)
  | AtEnd => (Rejected, items)
  | Rejected => (Rejected, items)
  end.

Fixpoint array_parser_run (text : string) (state : ArrayParser) (items : list JsonValue)
  : ArrayParser * list JsonValue :=
  match text with
  | EmptyString => (state, items)
  | String c rest =>
      let '(state', items') := array_parser_step state items c in
      array_parser_run rest state' items'
  end.

Definition parse_id_array (text : string) : Completion JsonValue :=
  match array_parser_run text AtStart [] with
  | (AtEnd, items) => Return (JArray items)
  | _ => Throw SyntaxError
  end.

(** *** Sample states *)

(** The registry after [init.ts] ran. *)
Definition store_after_init : Store :=
  initializeAvailablePlugins companyMetricsManifest investorInsightsManifest Store_empty.

(** The registry after [loader.ts] ran over the three plugin modules. *)
Definition store_after_loadPlugins : Store :=
  snd (loadPlugins [companyMetricsPlugin; investorInsightsPlugin; timelinePlugin]
                   false Store_empty).

(** User [u1] has company-metrics installed and enabled (with settings),
    investor-insights installed and disabled. *)
Definition sample_db : Db :=
  {| pluginInstallation :=
       <[("u1", "company-metrics") :=
           {| col_id := 0; col_enabled := true;
              col_settings := JObject [("theme", JString "dark")] |}]>
       (<[("u1", "investor-insights") :=
           {| col_id := 1; col_enabled := false; col_settings := JObject [] |}]> ∅);
     entityPluginConfig :=
       [ {| epc_userId := "u1"; epc_pluginId := "company-metrics";
            epc_entityType := "company"; epc_entityId := "acme" |};
         {| epc_userId := "u2"; epc_pluginId := "company-metrics";
            epc_entityType := "company"; epc_entityId := "acme" |} ];
     nextId := 2 |}.

Definition sample_server : Server :=
  {| server_store := store_after_init; server_db := sample_db |}.

Definition header_of_acme : DynamicSlotProps :=
  {| slotName := "CompanyProfile.Header"; entityType := Some company;
     entityId := Some "acme" |}.

(** A browser in which the viewer saved the override list [ids] for the
    company page of acme. *)
Definition browser_with_override (ids : list string) : Browser :=
  saveEntityConfig stringify_ids company "acme" ids Browser_empty.

(** A browser whose entry for acme is not JSON. *)
Definition browser_with_corrupt_override : Browser :=
  {| localStorage := <[storageKey company "acme" := "[oops"]> ∅;
     slotCache := ∅; browser_console := [] |}.

(** The server after [loader.ts] registered the three manifests and user
    u1 installed company-metrics and timeline. *)
Definition scenario_server : Server :=
  let srv0 := {| server_store := store_after_loadPlugins; server_db := Db_empty |} in
  let srv1 := snd (POST (JObject []) srv0 (Some "u1") (Some "company-metrics")) in
  snd (POST (JObject []) srv1 (Some "u1") (Some "timeline")).


(* ===================================================================== *)
(** ** The per-entity customizer ([PluginCustomizer.tsx]) *)
(* ===================================================================== *)

(** [v.length === 0] on a parsed JSON value: [null] has no properties, a
    boolean or number has no [length], a string and an array have their own,
    an object has one only as a field. *)
Definition json_length_is_zero (v : JsonValue) : Completion bool :=
  match v with
  | JNull => Throw TypeError
  | JBool _ | JNumber _ => Return false
  | JString s => Return (String.eqb s "")
  | JArray items => Return (match items with [] => true | _ => false end)
  | JObject fields =>
      Return (match JsMap_get "length" fields with
              | Some (JNumber 0) => true
              | _ => false
              end)
  end.

(** [v !== x] for a string [x]. *)
Definition differs_from (x : string) (v : JsonValue) : bool :=
  match v with
  | JString s => negb (String.eqb s x)
  | _ => true
  end.

(** [[...s]] for a string: its characters, one string each. *)
Fixpoint spread_string (s : string) : list JsonValue :=
  match s with
  | EmptyString => []
  | String c rest => JString (String c EmptyString) :: spread_string rest
  end.

(** What a page writes with [console.error]. *)
Inductive PageLog : Type := PageError (text : string) (e : Exception).

(** A full page load: [localStorage] survives, the module-level cache of
    [DynamicSlot] starts empty again. *)
Definition reload (b : Browser) : Browser :=
  {| localStorage := localStorage b; slotCache := ∅; browser_console := browser_console b |}.

Module PluginCustomizer.

(** The React state of the component.  [entityConfig] is declared
    [string[]] but receives whatever [JSON.parse] returns. *)
Record State : Type := {
  plugins : list PluginInfo;
  entityConfig : JsonValue;
  loading : bool;
  log : list PageLog
}.

Definition initial : State :=
  {| plugins := []; entityConfig := JArray []; loading := true; log := [] |}.

(** The filter of [fetchPlugins]: installed, enabled, and relevant for the
    entity type of the page. *)
Definition relevant (entityType : EntityType) (p : PluginInfo) : bool :=
  info_installed p && info_enabled p &&
  existsb (EntityType_eqb entityType) (manifest_entityTypes (info_manifest p)).

(** [fetchPlugins]; [response] is what [await response.json()] gave, and a
    body without [plugins] counts as the empty list. *)
Definition fetchPlugins (entityType : EntityType) (response : Completion ResponseBody)
    (st : State) : State :=
  match response with
  | Return data =>
      {| plugins :=
           filter (fun p => relevant entityType p = true)
                  (match data with PluginsBody ps _ => ps | _ => [] end);
         entityConfig := entityConfig st; loading := false; log := log st |}
  | Throw e =>
      {| plugins := plugins st; entityConfig := entityConfig st; loading := false;
         log := log st ++ [PageError "Failed to fetch plugins:" e] |}
  end.

(** The condition shared by [isPluginEnabledForEntity] and [togglePlugin]:
    [entityConfig.length === 0 && !localStorage.getItem(storageKey)]. *)
Definition nothing_configured (key : string) (st : State) (storage : gmap string string)
  : Completion bool :=
  match json_length_is_zero (entityConfig st) with
  | Throw e => Throw e
  | Return empty =>
      Return (empty && match truthy_string (storage !! key) with
                       | Some _ => false
                       | None => true
                       end)
  end.

Definition isPluginEnabledForEntity (entityType : EntityType) (entityId pluginId : string)
    (st : State) (storage : gmap string string) : Completion bool :=
  match nothing_configured (storageKey entityType entityId) st storage with
  | Throw e => Throw e
  | Return true => Return true
  | Return false => json_includes (entityConfig st) pluginId
  end.

(** The [newConfig] that [togglePlugin] hands to [saveEntityConfig]. *)
Definition toggled (entityType : EntityType) (entityId pluginId : string)
    (st : State) (storage : gmap string string) : Completion (list JsonValue) :=
  match nothing_configured (storageKey entityType entityId) st storage with
  | Throw e => Throw e
  | Return true =>
      Return (map (fun p => JString (manifest_id (info_manifest p)))
                  (filter (fun p => manifest_id (info_manifest p) ≠ pluginId) (plugins st)))
  | Return false =>
      match json_includes (entityConfig st) pluginId with
      | Throw e => Throw e
      | Return true =>
          match entityConfig st with
          | JArray items => Return (filter (fun v => differs_from pluginId v = true) items)
          | _ => Throw TypeError            (* a string has no [filter] *)
          end
      | Return false =>
          match entityConfig st with
          | JArray items => Return (items ++ [JString pluginId])
          | JString s => Return (spread_string s ++ [JString pluginId])
          | _ => Throw TypeError
          end
      end
  end.

Section Storage.

Variable JSON_parse : string -> Completion JsonValue.

(** [JSON.stringify] on an array. *)
Variable JSON_stringify : list JsonValue -> string.

(** [loadEntityConfig]: nothing stored leaves the state alone, a text that
    does not parse sets the empty list. *)
Definition loadEntityConfig (entityType : EntityType) (entityId : string)
    (st : State) (storage : gmap string string) : State :=
  match truthy_string (storage !! storageKey entityType entityId) with
  | Some saved =>
      {| plugins := plugins st;
         entityConfig := match JSON_parse saved with
                         | Return v => v
                         | Throw _ => JArray []
                         end;
         loading := loading st; log := log st |}
  | None => st
  end.

(** [saveEntityConfig]: the text is written, and the page reloads (which
    discards the component's state; the event it dispatches before has no
    listener). *)
Definition saveEntityConfig (entityType : EntityType) (entityId : string)
    (newConfig : list JsonValue) (b : Browser) : Browser :=
  reload {| localStorage :=
              <[storageKey entityType entityId := JSON_stringify newConfig]> (localStorage b);
            slotCache := slotCache b; browser_console := browser_console b |}.

(** [togglePlugin]: an exception of the click handler leaves the browser as
    it is. *)
Definition togglePlugin (entityType : EntityType) (entityId pluginId : string)
    (st : State) (b : Browser) : Completion Browser :=
  match toggled entityType entityId pluginId st (localStorage b) with
  | Return newConfig => Return (saveEntityConfig entityType entityId newConfig b)
  | Throw e => Throw e
  end.

Definition enableAll (entityType : EntityType) (entityId : string) (st : State) (b : Browser)
  : Browser :=
  saveEntityConfig entityType entityId
    (map (fun p => JString (manifest_id (info_manifest p))) (plugins st)) b.

Definition disableAll (entityType : EntityType) (entityId : string) (b : Browser) : Browser :=
  saveEntityConfig entityType entityId [] b.

(** The state once the effect of a freshly mounted component has run:
    [fetchPlugins] and [loadEntityConfig] on the initial state. *)
Definition mounted (entityType : EntityType) (entityId : string)
    (response : Completion ResponseBody) (storage : gmap string string) : State :=
  loadEntityConfig entityType entityId (fetchPlugins entityType response initial) storage.

End Storage.

End PluginCustomizer.

(* ===================================================================== *)
(** ** The plugins page ([app/plugins/page.tsx]) *)
(* ===================================================================== *)

(** [response.ok]. *)
Definition response_ok (r : HttpResponse) : bool :=
  (200 <=? status r) && (status r <=? 299).

Module PluginsPage.

Record State : Type := {
  plugins : list PluginInfo;
  loading : bool;
  actionLoading : option string;
  log : list PageLog
}.

Definition initial : State :=
  {| plugins := []; loading := true; actionLoading := None; log := [] |}.

(** [fetchPlugins], given what [await response.json()] gave. *)
Definition fetchPlugins (response : Completion ResponseBody) (st : State) : State :=
  match response with
  | Return data =>
      {| plugins := match data with PluginsBody ps _ => ps | _ => [] end;
         loading := false; actionLoading := actionLoading st; log := log st |}
  | Throw e =>
      {| plugins := plugins st; loading := false; actionLoading := actionLoading st;
         log := log st ++ [PageError "Failed to fetch plugins:" e] |}
  end.

(** The refresh after an action whose response is [ok]: a GET with the same
    cookies, then [fetchPlugins]; and the [finally] of the action. *)
Definition after_action (cookieSession : Session) (response : HttpResponse) (srv : Server)
    (st : State) : Server * State :=
  let '(srv', st') :=
    if response_ok response
    then let '(listing, srv') := GET srv cookieSession in
         (srv', fetchPlugins (Return (body listing)) st)
    else (srv, st) in
  (srv', {| plugins := plugins st'; loading := loading st'; actionLoading := None;
            log := log st' |}).

Section Actions.

Variable settings_default : JsonValue.

Definition installPlugin (cookieSession : Session) (pluginId : string)
    (srv : Server) (st : State) : Server * State :=
  let '(response, srv') := POST settings_default srv cookieSession (Some pluginId) in
  after_action cookieSession response srv' st.

End Actions.

(** The id travels unescaped in the query string; [query_pluginId] is what
    the handler reads back from it. *)
Definition uninstallPlugin (query_pluginId : string -> string)
    (cookieSession : Session) (pluginId : string)
    (srv : Server) (st : State) : Server * State :=
  let '(response, srv') := DELETE srv cookieSession (Some (query_pluginId pluginId)) in
  after_action cookieSession response srv' st.

Definition togglePlugin (cookieSession : Session) (pluginId : string) (currentEnabled : bool)
    (srv : Server) (st : State) : Server * State :=
  let '(response, srv') :=
    PATCH srv cookieSession (Some pluginId) (Some (negb currentEnabled)) None in
  after_action cookieSession response srv' st.

Definition installedPlugins (st : State) : list PluginInfo :=
  filter (fun p => info_installed p = true) (plugins st).

Definition availablePlugins (st : State) : list PluginInfo :=
  filter (fun p => info_installed p = false) (plugins st).

End PluginsPage.

(* ===================================================================== *)
(** ** The investor listing ([app/api/investors/route.ts]) *)
(* ===================================================================== *)

Module InvestorsApi.

(** The query handed to [prisma.object.findMany]: the [where] clause, the
    cursor (always with [skip: 1]) and [take]; [select] and [orderBy] are
    fixed. *)
Record Query : Type := {
  where_entityType : string;
  where_categoryCode : option string;
  query_cursor : option string;
  query_take : Z
}.

Section Listing.

(** A selected row and its [id]. *)
Variable Row : Type.
Variable row_id : Row -> string.

(** [parseInt] of the platform, [None] for [NaN].  Its result only meets
    [Math.min(_, 100)] and [_ < 1], so an infinite result can be taken as
    any number of its sign beyond these bounds. *)
Variable parseInt : string -> option Z.

(** The database behind [findMany]. *)
Variable findMany : Query -> Completion (list Row).

Inductive Body : Type :=
| Page (data : list Row) (nextCursor : option string) (hasMore : bool) (limit : Z)
| Failure (error : string).

(** [Math.min(parseInt(searchParams.get("limit") || "20"), 100)]. *)
Definition requested_limit (limitParam : option string) : option Z :=
  (fun n => Z.min n 100) <$> parseInt (default "20" (truthy_string limitParam)).

Definition query_for (cursor category_code : option string) (limit : Z) : Query :=
  {| where_entityType := "FinancialOrg";
     where_categoryCode := truthy_string category_code;
     query_cursor := truthy_string cursor;
     query_take := (limit + 1)%Z |}.

(** GET /api/investors with the query parameters [cursor], [limit] and
    [category_code] ([None] when absent). *)
Definition GET (cursor limitParam category_code : option string) : nat * Body :=
  match requested_limit limitParam with
  | None => (400, Failure "Invalid limit parameter")
  | Some limit =>
      if (limit <? 1)%Z then (400, Failure "Invalid limit parameter")
      else
        match findMany (query_for cursor category_code limit) with
        | Throw _ => (500, Failure "Internal server error")
        | Return results =>
            let hasMore := (limit <? Z.of_nat (length results))%Z in
            let data := if hasMore then take (Z.to_nat limit) results else results in
            if hasMore then
              match last data with
              | Some row => (200, Page data (Some (row_id row)) hasMore limit)
              | None => (500, Failure "Internal server error")
              end
            else (200, Page data None hasMore limit)
        end
  end.

End Listing.

End InvestorsApi.

(* ===================================================================== *)
(** ** Further derived notions and sample states *)
(* ===================================================================== *)

(** The components the store's cache holds agree with the loaded modules. *)
Definition loader_cache_inv (st : Store) : Prop :=
  ∀ pluginId,
    componentCache st !! pluginId = module_components <$> loadedModules st !! pluginId.

(** A sequence of resolutions in one browser, each with its own props and
    page session. *)
Fixpoint resolve_all (dynamic_import : ImportCase -> Completion PluginModule)
    (JSON_parse : string -> Completion JsonValue) (srv : Server) (cookieSession : Session)
    (requests : list (Session * DynamicSlotProps)) (b : Browser) : Browser :=
  match requests with
  | [] => b
  | (pageSession, props) :: rest =>
      resolve_all dynamic_import JSON_parse srv cookieSession rest
        (snd (resolveSlot dynamic_import JSON_parse srv cookieSession pageSession props
                SlotState_initial b))
  end.

(** [JSON.stringify] on the arrays of plain strings of [stringify_ids]. *)
Definition stringify_items (items : list JsonValue) : string :=
  stringify_ids (omap (fun v => match v with JString s => Some s | _ => None end) items).

(** A bundle whose company-metrics module has a [cleanup] hook that throws. *)
Definition clingy_import (c : ImportCase) : Completion PluginModule :=
  match c with
  | import_company_metrics =>
      Return {| module_manifest := companyMetricsManifest;
                module_components := module_components companyMetricsPlugin;
                module_initialize := None;
                module_cleanup := Some (fun _ => false) |}
  | import_investor_insights => Return investorInsightsPlugin
  end.

(** A bundle whose investor-insights chunk fails to load. *)
Definition broken_import (c : ImportCase) : Completion PluginModule :=
  match c with
  | import_company_metrics => Return companyMetricsPlugin
  | import_investor_insights => Throw ModuleLoadError
  end.

(** What a handler leaves alone: the registry, and the rows of every user
    other than the one the request's session names. *)
Definition leaves_others_alone (session : Session) (srv srv' : Server) : Prop :=
  getAvailablePlugins (server_store srv') = getAvailablePlugins (server_store srv) ∧
  loadedModules (server_store srv') = loadedModules (server_store srv) ∧
  ∀ key, session_user_id session ≠ Some (fst key) →
    pluginInstallation (server_db srv') !! key = pluginInstallation (server_db srv) !! key.

(** [componentCache.get(pluginId)?.get(slotName)] of [DynamicSlot]. *)
Definition cached (b : Browser) (pluginId slotName : string) : option Component :=
  slotCache b !! pluginId ≫= (fun slots => slots !! slotName).

(** What a call of [loadPluginComponent] that gets past the cache writes to
    the console: a warning for an id without a case in the switch, an error
    for an import that fails, nothing otherwise. *)
Definition load_failure (dynamic_import : ImportCase -> Completion PluginModule)
    (pluginId : string) : option ConsoleEntry :=
  match import_case pluginId with
  | None => Some (WarnUnknownPlugin pluginId)
  | Some c =>
      match dynamic_import c with
      | Throw e => Some (ErrorFailedToLoad pluginId e)
      | Return _ => None
      end
  end.

(** What one call of [loadPluginComponent] returns: the cached component,
    or else the one the import of this resolution delivers. *)
Definition served (dynamic_import : ImportCase -> Completion PluginModule)
    (b : Browser) (pluginId slotName : string) : option Component :=
  match cached b pluginId slotName with
  | Some c => Some c
  | None => bundled_component dynamic_import pluginId slotName
  end.

(** What one call of [loadPluginComponent] writes to the console: nothing
    on a cache hit, else the failure of the load, if it fails. *)
Definition logged (dynamic_import : ImportCase -> Completion PluginModule)
    (b : Browser) (slotName pluginId : string) : option ConsoleEntry :=
  match cached b pluginId slotName with
  | Some _ => None
  | None => load_failure dynamic_import pluginId
  end.

(** The value the handler reads back from [/api/plugins?pluginId=] followed
    by an unescaped id, on ids whose part before the first [&] or [#]
    consists of letters, digits, [-], [_], [.] and [~]: that part, as it is.
    Other ids are outside the fragment; the statements use this function
    only on ids of the fragment. *)
Fixpoint query_value (pluginId : string) : string :=
  match pluginId with
  | EmptyString => EmptyString
  | String c rest =>
      if Ascii.eqb c "&"%char || Ascii.eqb c "#"%char then EmptyString
      else String c (query_value rest)
  end.

(** A bundle in which both importable plugins serve one slot (in the
    repository's own bundle no two importable plugins share a slot):
    investor-insights is registered first and installed last. *)
Definition shared_slot (pluginId name : string) : PluginManifest :=
  {| manifest_id := pluginId; manifest_name := name;
     manifest_entityTypes := [company];
     manifest_slots :=
       [ {| slot_name := "CompanyProfile.Header"; slot_description := "Header card" |} ] |}.

Definition shared_slot_import (c : ImportCase) : Completion PluginModule :=
  match c with
  | import_company_metrics =>
      Return {| module_manifest := shared_slot "company-metrics" "Company Metrics";
                module_components :=
                  {[ "CompanyProfile.Header" := ComponentRef "QuickStatsCard" ]};
                module_initialize := None; module_cleanup := None |}
  | import_investor_insights =>
      Return {| module_manifest := shared_slot "investor-insights" "Investor Insights";
                module_components :=
                  {[ "CompanyProfile.Header" := ComponentRef "PortfolioStats" ]};
                module_initialize := None; module_cleanup := None |}
  end.

Definition shared_slot_server : Server :=
  let registry :=
    register_all [shared_slot "investor-insights" "Investor Insights";
                  shared_slot "company-metrics" "Company Metrics"] Store_empty in
  let srv0 := {| server_store := registry; server_db := Db_empty |} in
  let srv1 := snd (POST (JObject []) srv0 (Some "u1") (Some "company-metrics")) in
  snd (POST (JObject []) srv1 (Some "u1") (Some "investor-insights")).


(** A validation for a schema with a Boolean [enabled] and a Json
    [settings]: a value for [enabled] other than a boolean is rejected. *)
Definition boolean_and_json (enabled settings : option JsonValue)
  : Completion InstallationPatch :=
  match enabled with
  | None => Return {| patch_enabled := None; patch_settings := settings |}
  | Some (JBool b) => Return {| patch_enabled := Some b; patch_settings := settings |}
  | Some _ => Throw ValidationError
  end.

(** [JSON.parse] on a slightly larger fragment: the literals [null], [true]
    and [false], one plain string literal, and the arrays of
    [parse_id_array]. *)
Definition parse_plain_json (text : string) : Completion JsonValue :=
  if String.eqb text "null" then Return JNull
  else if String.eqb text "true" then Return (JBool true)
  else if String.eqb text "false" then Return (JBool false)
  else match array_parser_run text AfterComma [] with
       | (AfterLiteral, [literal]) => Return literal
       | _ => parse_id_array text
       end.

(** The page of acme with a JSON string stored where the list should be. *)
Definition browser_with_stored_text (text : string) : Browser :=
  {| localStorage := {[ storageKey company "acme" := text ]};
     slotCache := ∅; browser_console := [] |}.

(** The customizer of user u1 on the page of acme, freshly mounted in a
    browser with nothing stored. *)
Definition customizer_of_acme : PluginCustomizer.State :=
  PluginCustomizer.mounted parse_id_array company "acme"
    (Return (body (fst (GET sample_server (Some "u1"))))) ∅.

(** The [plugins] array GET reports to a cookie session. *)
Definition reported (srv : Server) (cookieSession : Session) : list PluginInfo :=
  match body (fst (GET srv cookieSession)) with
  | PluginsBody plugins _ => plugins
  | _ => []
  end.

(* ===================================================================== *)
(** ** Properties of the registry *)
(* ===================================================================== *)

Section JsMapFacts.
Context {V : Type}.
Implicit Types (m : list (string * V)) (k : string) (v : V).

Lemma JsMap_has_keys k m : JsMap_has k m = true ↔ k ∈ JsMap_keys m.
Proof.
  unfold JsMap_has, JsMap_keys. induction m as [|[k' v'] m IH]; simpl.
  - split; [discriminate | intros H; inversion H].
  - rewrite orb_true_iff, IH, elem_of_cons, String.eqb_eq.
    split; (intros [H|H]; [left; congruence | by right]).
Qed.

Lemma JsMap_has_false k m : JsMap_has k m = false ↔ k ∉ JsMap_keys m.
Proof.
  rewrite <- JsMap_has_keys. destruct (JsMap_has k m); split; congruence.
Qed.

Lemma JsMap_set_fresh k v m : k ∉ JsMap_keys m → JsMap_set k v m = m ++ [(k, v)].
Proof.
  unfold JsMap_keys. induction m as [|[k' v'] m IH]; simpl; intros Hk; [done|].
  apply not_elem_of_cons in Hk as [Hne Hk].
  destruct (String.eqb_spec k' k) as [->|_]; [done|]. by rewrite IH.
Qed.

Lemma JsMap_get_elem k v m :
  NoDup (JsMap_keys m) → JsMap_get k m = Some v ↔ (k, v) ∈ m.
Proof.
  unfold JsMap_keys. induction m as [|[k' v'] m IH]; simpl; intros Hnd.
  - split; [discriminate | intros H; inversion H].
  - apply NoDup_cons in Hnd as [Hk' Hnd]. rewrite elem_of_cons.
    destruct (String.eqb_spec k' k) as [->|Hne].
    + split; [intros [= ->]; by left|].
      intros [[= ->]|Hin]; [done|].
      exfalso. apply Hk'. apply list_elem_of_fmap. by exists (k, v).
    + rewrite IH by done. split; [by right|]. intros [[= -> ->]|Hin]; done.
Qed.

Lemma JsMap_get_None k m : JsMap_get k m = None ↔ k ∉ JsMap_keys m.
Proof.
  unfold JsMap_keys. induction m as [|[k' v'] m IH]; simpl.
  - split; [intros _ H; inversion H | done].
  - rewrite not_elem_of_cons. destruct (String.eqb_spec k' k) as [->|Hne].
    + split; [discriminate | intros [H _]; done].
    + rewrite IH. split; [intros H; split; [congruence|done] | by intros [_ H]].
Qed.

End JsMapFacts.

Lemma register_all_snoc manifests manifest st :
  register_all (manifests ++ [manifest]) st =
  registerAvailablePlugin manifest (register_all manifests st).
Proof. unfold register_all. by rewrite foldl_app. Qed.

Lemma registerAvailablePlugin_known manifest st :
  manifest_id manifest ∈ JsMap_keys (availablePlugins st) →
  registerAvailablePlugin manifest st =
  console_write (WarnAlreadyRegistered (manifest_id manifest)) st.
Proof.
  intros Hin. unfold registerAvailablePlugin.
  by rewrite (proj2 (JsMap_has_keys _ _) Hin).
Qed.

Lemma registerAvailablePlugin_fresh manifest st :
  manifest_id manifest ∉ JsMap_keys (availablePlugins st) →
  availablePlugins (registerAvailablePlugin manifest st) =
  availablePlugins st ++ [(manifest_id manifest, manifest)].
Proof.
  intros Hin. unfold registerAvailablePlugin.
  rewrite (proj2 (JsMap_has_false _ _) Hin). simpl. by apply JsMap_set_fresh.
Qed.

Lemma first_with_id_snoc_Some k manifests manifest m :
  first_with_id k manifests = Some m →
  first_with_id k (manifests ++ [manifest]) = Some m.
Proof.
  unfold first_with_id. induction manifests as [|x xs IH]; simpl; [done|].
  destruct (String.eqb _ _); auto.
Qed.

Lemma first_with_id_snoc_fresh manifests manifest :
  manifest_id manifest ∉ map manifest_id manifests →
  first_with_id (manifest_id manifest) (manifests ++ [manifest]) = Some manifest.
Proof.
  unfold first_with_id. induction manifests as [|x xs IH]; simpl; intros Hk.
  - by rewrite String.eqb_refl.
  - apply not_elem_of_cons in Hk as [Hne Hk].
    destruct (String.eqb_spec (manifest_id x) (manifest_id manifest)); [congruence|auto].
Qed.

Lemma first_with_id_Some k manifests m :
  first_with_id k manifests = Some m → m ∈ manifests ∧ manifest_id m = k.
Proof.
  unfold first_with_id. induction manifests as [|x xs IH]; simpl; [done|].
  destruct (String.eqb_spec (manifest_id x) k) as [Hk|_].
  - intros [= <-]. split; [by left|done].
  - intros H. destruct (IH H). split; [by right|done].
Qed.

Lemma first_with_id_None k manifests :
  first_with_id k manifests = None ↔ k ∉ map manifest_id manifests.
Proof.
  unfold first_with_id. induction manifests as [|x xs IH]; simpl.
  - split; [intros _ H; inversion H | done].
  - rewrite not_elem_of_cons.
    destruct (String.eqb_spec (manifest_id x) k) as [Hk|Hk].
    + split; [discriminate | intros [H _]; congruence].
    + rewrite IH. split; [intros H; split; [congruence|done] | by intros [_ H]].
Qed.

Lemma register_all_registry_of manifests :
  registry_of manifests (availablePlugins (register_all manifests Store_empty)).
Proof.
  induction manifests as [|manifest manifests IH] using rev_ind.
  - split; [apply NoDup_nil_2|split].
    + intros k m H. inversion H.
    + intros m H. inversion H.
  - rewrite register_all_snoc. destruct IH as (Hnd & Hreg & Hall).
    set (st := register_all manifests Store_empty) in *.
    destruct (decide (manifest_id manifest ∈ JsMap_keys (availablePlugins st))) as [Hin|Hin].
    + rewrite registerAvailablePlugin_known by done. simpl. repeat split; [done|..].
      * by apply Hreg.
      * apply first_with_id_snoc_Some. by apply Hreg.
      * intros m [Hm|Hm%list_elem_of_singleton]%elem_of_app; [auto|by subst].
    + rewrite registerAvailablePlugin_fresh by done.
      assert (Hfresh : manifest_id manifest ∉ map manifest_id manifests).
      { intros (m & Heq & Hm)%list_elem_of_fmap. apply Hin. rewrite Heq. auto. }
      repeat split.
      * unfold JsMap_keys in *. rewrite fmap_app. apply NoDup_app. repeat split; simpl.
        -- done.
        -- intros k Hk ->%list_elem_of_singleton. done.
        -- apply NoDup_singleton.
      * apply elem_of_app in H as [H|[= -> ->]%list_elem_of_singleton]; [by apply Hreg|done].
      * apply elem_of_app in H as [H|[= -> ->]%list_elem_of_singleton].
        -- apply first_with_id_snoc_Some. by apply Hreg.
        -- by apply first_with_id_snoc_fresh.
      * intros m [Hm|Hm%list_elem_of_singleton]%elem_of_app; unfold JsMap_keys in *;
          rewrite fmap_app, elem_of_app; [left; auto | right; subst; simpl; by left].
Qed.

(** The registry lists the manifests in the order of their registration. *)
Lemma register_all_order manifests :
  getAvailablePlugins (register_all manifests Store_empty) `sublist_of` manifests.
Proof.
  unfold getAvailablePlugins, JsMap_values.
  induction manifests as [|manifest manifests IH] using rev_ind; [done|].
  rewrite register_all_snoc. set (st := register_all manifests Store_empty) in *.
  destruct (decide (manifest_id manifest ∈ JsMap_keys (availablePlugins st))) as [Hin|Hin].
  - rewrite registerAvailablePlugin_known by done. simpl. by apply sublist_inserts_r.
  - rewrite registerAvailablePlugin_fresh by done. rewrite fmap_app. by apply sublist_app.
Qed.

Lemma registry_of_get manifests registry k :
  registry_of manifests registry → JsMap_get k registry = first_with_id k manifests.
Proof.
  intros (Hnd & Hreg & Hall).
  destruct (first_with_id k manifests) as [m|] eqn:Hfirst.
  - apply first_with_id_Some in Hfirst as Hm. destruct Hm as [Hm <-].
    apply Hall in Hm. apply list_elem_of_fmap in Hm as ([k' m'] & Hk & Hin). simpl in Hk.
    destruct (Hreg _ _ Hin) as [Hid Hf]. rewrite <- Hk in Hf, Hin.
    rewrite Hfirst in Hf. injection Hf as <-. by apply JsMap_get_elem.
  - apply JsMap_get_None. intros ([k' m'] & Hk & Hin)%list_elem_of_fmap. simpl in Hk. subst k'.
    destruct (Hreg _ _ Hin) as [_ Hf]. congruence.
Qed.

Lemma registry_filter_id (registry : list (string * PluginManifest)) k :
  NoDup (JsMap_keys registry) →
  (∀ k' m, (k', m) ∈ registry → manifest_id m = k') →
  filter (fun m => manifest_id m = k) (JsMap_values registry) =
  match JsMap_get k registry with Some m => [m] | None => [] end.
Proof.
  unfold JsMap_keys, JsMap_values.
  induction registry as [|[k' m'] registry IH]; simpl; intros Hnd Hid; [done|].
  apply NoDup_cons in Hnd as [Hk' Hnd].
  assert (Hm' : manifest_id m' = k') by (apply Hid; by left).
  assert (Hid' : ∀ k'' m, (k'', m) ∈ registry → manifest_id m = k'')
    by (intros; apply Hid; by right).
  rewrite filter_cons. destruct (String.eqb_spec k' k) as [->|Hne].
  - rewrite decide_True by done. f_equal.
    apply (proj2 (JsMap_get_None k registry)) in Hk'. rewrite IH, Hk'; done.
  - rewrite decide_False by congruence. by apply IH.
Qed.

(** C3.  For any sequence of [register] calls on the empty registry:
    [getAll] holds at most one manifest per id; what it holds for an id is
    exactly the first manifest registered with that id; and registering a
    manifest whose id is already present changes nothing but the console,
    which receives the warning, and returns normally. *)
Theorem C3_registry_first_registration_wins (manifests : list PluginManifest) :
  let st := register_all manifests Store_empty in
  NoDup (map manifest_id (getAvailablePlugins st)) ∧
  (∀ pluginId,
     filter (fun m => manifest_id m = pluginId) (getAvailablePlugins st) =
     match first_with_id pluginId manifests with Some m => [m] | None => [] end) ∧
  (∀ again,
     manifest_id again ∈ map manifest_id manifests →
     registerAvailablePlugin again st =
       console_write (WarnAlreadyRegistered (manifest_id again)) st ∧
     getAvailablePlugins (registerAvailablePlugin again st) = getAvailablePlugins st).
Proof.
  intros st. pose proof (register_all_registry_of manifests) as Hreg. fold st in Hreg.
  pose proof Hreg as (Hnd & Hin & Hall). split; [|split].
  - unfold getAvailablePlugins, JsMap_values. rewrite <- list_fmap_compose.
    erewrite list_fmap_ext; [exact Hnd|]. intros i [k m] Hi; simpl.
    apply list_elem_of_lookup_2 in Hi. by apply Hin in Hi as [-> _].
  - intros pluginId. unfold getAvailablePlugins.
    rewrite registry_filter_id; [|done|intros k m H; by apply Hin].
    by rewrite (registry_of_get manifests).
  - intros again (m & Hid & Hm)%list_elem_of_fmap.
    assert (manifest_id again ∈ JsMap_keys (availablePlugins st)) as Hknown
      by (rewrite Hid; auto).
    rewrite registerAvailablePlugin_known by done. done.
Qed.

(** C3 at the start-up of [loader.ts] followed by a late duplicate. *)
Lemma C3_witness :
  registerAvailablePlugin timelineManifest
    (register_all [companyMetricsManifest; investorInsightsManifest; timelineManifest]
       Store_empty) =
  console_write (WarnAlreadyRegistered "timeline")
    (register_all [companyMetricsManifest; investorInsightsManifest; timelineManifest]
       Store_empty).
Proof.
  apply (C3_registry_first_registration_wins
           [companyMetricsManifest; investorInsightsManifest; timelineManifest]).
  simpl. set_solver.
Defined.

(* ===================================================================== *)
(** ** Properties of the module loader *)
(* ===================================================================== *)

Section LoaderFacts.
Variable dynamic_import : ImportCase -> Completion PluginModule.

Lemma registerAvailablePlugin_maps manifest st :
  loadedModules (registerAvailablePlugin manifest st) = loadedModules st ∧
  componentCache (registerAvailablePlugin manifest st) = componentCache st.
Proof. unfold registerAvailablePlugin. by destruct (JsMap_has _ _). Qed.

Lemma loadPluginModule_inv pluginId st :
  loader_inv dynamic_import st → loader_inv dynamic_import (snd (loadPluginModule dynamic_import pluginId st)).
Proof.
  intros [Hknown Hcache]. unfold loadPluginModule.
  destruct (loadedModules st !! pluginId) as [m|] eqn:Hloaded; [done|].
  unfold loadPluginModule_try.
  destruct (import_case pluginId) as [c|] eqn:Hcase; [|done].
  destruct (dynamic_import c) as [module|e] eqn:Himport; [|done].
  assert (Hpublish : ∀ s,
    loadedModules s = loadedModules st → componentCache s = componentCache st →
    loader_inv dynamic_import
      {| availablePlugins := availablePlugins s;
         loadedModules := <[pluginId := module]> (loadedModules s);
         componentCache := <[pluginId := module_components module]> (componentCache s);
         console := console s; initializeRuns := initializeRuns s;
         cleanupRuns := cleanupRuns s |}).
  { intros s Hl Hc. split; simpl; intros p; rewrite Hl, ?Hc.
    - intros m. destruct (decide (pluginId = p)) as [<-|Hne].
      + rewrite lookup_insert_eq. intros [= <-]. eauto.
      + rewrite lookup_insert_ne by done. apply Hknown.
    - destruct (decide (pluginId = p)) as [<-|Hne].
      + by rewrite lookup_insert_eq.
      + rewrite !lookup_insert_ne by done. apply Hcache. }
  destruct (module_initialize module) as [initialize|]; [|by apply Hpublish].
  destruct (initialize _); [by apply Hpublish|done].
Qed.

Lemma unloadPluginModule_inv pluginId st :
  loader_inv dynamic_import st → loader_inv dynamic_import (snd (unloadPluginModule pluginId st)).
Proof.
  intros [Hknown Hcache].
  assert (Hevict : ∀ s,
    loadedModules s = loadedModules st → componentCache s = componentCache st →
    loader_inv dynamic_import
      {| availablePlugins := availablePlugins s;
         loadedModules := delete pluginId (loadedModules s);
         componentCache := delete pluginId (componentCache s);
         console := console s; initializeRuns := initializeRuns s;
         cleanupRuns := cleanupRuns s |}).
  { intros s Hl Hc. split; simpl; intros p; rewrite Hl, ?Hc.
    - intros m. destruct (decide (pluginId = p)) as [<-|Hne].
      + by rewrite lookup_delete_eq.
      + rewrite lookup_delete_ne by done. apply Hknown.
    - destruct (decide (pluginId = p)) as [<-|Hne].
      + intros _. by rewrite lookup_delete_eq.
      + rewrite !lookup_delete_ne by done. apply Hcache. }
  unfold unloadPluginModule.
  destruct (loadedModules st !! pluginId) as [m|]; [|by apply Hevict].
  destruct (module_cleanup m) as [cleanup|]; [|by apply Hevict].
  destruct (cleanup _); [by apply Hevict|done].
Qed.

Lemma reachable_inv st : reachable dynamic_import st → loader_inv dynamic_import st.
Proof.
  induction 1 as [|manifest st _ IH|pluginId st _ IH|pluginId st _ IH].
  - split; intros p; simpl; [intros m|]; by rewrite lookup_empty.
  - destruct (registerAvailablePlugin_maps manifest st) as [Hl Hc].
    destruct IH as [Hknown Hcache]. split; intros p; rewrite Hl, ?Hc; auto.
  - by apply loadPluginModule_inv.
  - by apply unloadPluginModule_inv.
Qed.

Lemma runs_of_snoc pluginId runs :
  runs_of pluginId (runs ++ [pluginId]) = S (runs_of pluginId runs).
Proof.
  unfold runs_of. rewrite filter_app, length_app, filter_cons, decide_True by done.
  simpl. lia.
Qed.

Lemma isPluginLoaded_false pluginId st :
  isPluginLoaded pluginId st = false ↔ loadedModules st !! pluginId = None.
Proof.
  unfold isPluginLoaded. rewrite bool_decide_eq_false, <- eq_None_not_Some. done.
Qed.

(** One call of [loadPluginModule] on a plugin that is not loaded, whose
    import succeeds and whose module has an [initialize] hook. *)
Lemma loadPluginModule_initialize pluginId c module initialize st :
  loadedModules st !! pluginId = None →
  import_case pluginId = Some c → dynamic_import c = Return module →
  module_initialize module = Some initialize →
  let ran :=
    {| availablePlugins := availablePlugins st; loadedModules := loadedModules st;
       componentCache := componentCache st; console := console st;
       initializeRuns := initializeRuns st ++ [pluginId];
       cleanupRuns := cleanupRuns st |} in
  loadPluginModule dynamic_import pluginId st =
  if initialize (runs_of pluginId (initializeRuns st))
  then (Return (Some module),
        {| availablePlugins := availablePlugins st;
           loadedModules := <[pluginId := module]> (loadedModules st);
           componentCache := <[pluginId := module_components module]> (componentCache st);
           console := console st;
           initializeRuns := initializeRuns st ++ [pluginId];
           cleanupRuns := cleanupRuns st |})
  else (Return None, console_write (ErrorFailedToLoad pluginId HookError) ran).
Proof.
  intros Hloaded Hcase Himport Hinit. unfold loadPluginModule, loadPluginModule_try.
  rewrite Hloaded, Hcase, Himport, Hinit. by destruct (initialize _).
Qed.

End LoaderFacts.

(** C6.  In every state the loader can reach: [load] of an id outside the
    switch returns the not-found value (it does not throw) and only writes
    the warning; and when the [initialize] hook of a module that is not yet
    loaded fails, [load] returns the not-found value as well, neither cache
    receives the module, so the plugin is still not loaded and has no
    component, and the next [load] goes through the switch and runs
    [initialize] once more, loading the module if the hook then succeeds. *)
Theorem C6_load_failure_is_not_found
    (dynamic_import : ImportCase -> Completion PluginModule)
    (st : Store) (pluginId : string) :
  reachable dynamic_import st →
  (import_case pluginId = None →
     loadPluginModule dynamic_import pluginId st =
       (Return None, console_write (WarnUnknownPlugin pluginId) st)) ∧
  (∀ c module initialize,
     import_case pluginId = Some c → dynamic_import c = Return module →
     module_initialize module = Some initialize →
     isPluginLoaded pluginId st = false →
     initialize (runs_of pluginId (initializeRuns st)) = false →
     let first := loadPluginModule dynamic_import pluginId st in
     let second := loadPluginModule dynamic_import pluginId (snd first) in
     fst first = Return None ∧
     loadedModules (snd first) = loadedModules st ∧
     componentCache (snd first) = componentCache st ∧
     isPluginLoaded pluginId (snd first) = false ∧
     (∀ slot, getPluginComponent pluginId slot (snd first) = None) ∧
     runs_of pluginId (initializeRuns (snd first)) =
       S (runs_of pluginId (initializeRuns st)) ∧
     runs_of pluginId (initializeRuns (snd second)) =
       S (S (runs_of pluginId (initializeRuns st))) ∧
     if initialize (S (runs_of pluginId (initializeRuns st)))
     then fst second = Return (Some module) ∧
          isPluginLoaded pluginId (snd second) = true ∧
          (∀ slot, getPluginComponent pluginId slot (snd second) =
                   module_components module !! slot)
     else fst second = Return None ∧
          isPluginLoaded pluginId (snd second) = false).
Proof.
  intros [Hknown Hcache]%reachable_inv. split.
  - intros Hcase. unfold loadPluginModule, loadPluginModule_try.
    destruct (loadedModules st !! pluginId) as [m|] eqn:Hloaded.
    + apply Hknown in Hloaded as (c & Hc & _). congruence.
    + by rewrite Hcase.
  - intros c module initialize Hcase Himport Hinit Hloaded%isPluginLoaded_false Hfails.
    intros first second. subst second first.
    rewrite (loadPluginModule_initialize _ _ _ _ _ _ Hloaded Hcase Himport Hinit), Hfails.
    simpl.
    set (st1 := console_write _ _).
    assert (Hloaded1 : loadedModules st1 !! pluginId = None) by done.
    rewrite (loadPluginModule_initialize _ _ _ _ _ st1 Hloaded1 Hcase Himport Hinit).
    assert (Hruns1 : runs_of pluginId (initializeRuns st1) =
                     S (runs_of pluginId (initializeRuns st))) by apply runs_of_snoc.
    rewrite Hruns1. simpl.
    split; [done|]. split; [done|]. split; [done|].
    split; [by apply isPluginLoaded_false|].
    split; [intros slot; unfold getPluginComponent; simpl; by rewrite (Hcache _ Hloaded)|].
    split; [apply runs_of_snoc|].
    destruct (initialize (S _)); simpl; rewrite !runs_of_snoc.
    + split; [done|]. split; [done|]. split.
      * unfold isPluginLoaded. simpl. rewrite lookup_insert_eq.
        apply bool_decide_eq_true. eauto.
      * intros slot. unfold getPluginComponent. simpl. by rewrite lookup_insert_eq.
    + split; [done|]. split; [done|]. by apply isPluginLoaded_false.
Qed.

(** C6 on the empty store with a bundle whose company-metrics module fails
    to initialize the first time. *)
Lemma C6_witness :
  loadPluginModule flaky_import "no-such-plugin" Store_empty =
    (Return None, console_write (WarnUnknownPlugin "no-such-plugin") Store_empty) ∧
  fst (loadPluginModule flaky_import "company-metrics" Store_empty) = Return None ∧
  isPluginLoaded "company-metrics"
    (snd (loadPluginModule flaky_import "company-metrics" Store_empty)) = false.
Proof.
  pose proof (C6_load_failure_is_not_found flaky_import Store_empty "no-such-plugin"
                (reachable_empty flaky_import)) as [Hunknown _].
  pose proof (C6_load_failure_is_not_found flaky_import Store_empty "company-metrics"
                (reachable_empty flaky_import)) as [_ Hfails].
  split; [apply Hunknown; reflexivity|].
  specialize (Hfails import_company_metrics _ _ eq_refl eq_refl eq_refl eq_refl eq_refl).
  simpl in Hfails. destruct Hfails as (H1 & _ & _ & H4 & _). split; [exact H1 | exact H4].
Defined.

(* ===================================================================== *)
(** ** Properties of the handlers *)
(* ===================================================================== *)

Lemma truthy_string_Some o s : truthy_string o = Some s ↔ o = Some s ∧ truthy s = true.
Proof.
  unfold truthy_string. destruct o as [s'|].
  - destruct (truthy s') eqn:Ht.
    + split; [intros [= <-]; done | intros [[= <-] _]; done].
    + split; [discriminate | intros [[= <-] ?]; congruence].
  - split; [discriminate | intros [? _]; discriminate].
Qed.

Lemma truthy_string_truthy s : truthy s = true → truthy_string (Some s) = Some s.
Proof. intros H. simpl. by rewrite H. Qed.

Lemma truthy_string_falsy s : truthy s = false → truthy_string (Some s) = None.
Proof. intros H. simpl. by rewrite H. Qed.

Lemma session_user_id_truthy session userId :
  session_user_id session = Some userId → truthy userId = true.
Proof. intros H. by apply truthy_string_Some in H as [_ ?]. Qed.

(** The handlers keep the table well formed, starting from the empty one. *)
Lemma Db_empty_wf : Db_wf Db_empty.
Proof. apply map_Forall_empty. Qed.

Lemma Db_wf_insert db userId pluginId cols entityConfigs next :
  Db_wf db → truthy userId = true → truthy pluginId = true →
  Db_wf {| pluginInstallation := <[(userId, pluginId) := cols]> (pluginInstallation db);
           entityPluginConfig := entityConfigs; nextId := next |}.
Proof. intros Hwf Hu Hp. by apply map_Forall_insert_2. Qed.

Lemma POST_Db_wf settings_default srv session pluginId :
  Db_wf (server_db srv) →
  Db_wf (server_db (snd (POST settings_default srv session pluginId))).
Proof.
  intros Hwf. unfold POST.
  destruct (session_user_id session) as [userId|] eqn:Hs; [|done].
  destruct (truthy_string pluginId) as [pid|] eqn:Hp; [|done].
  destruct (getPluginManifest pid _); [|done].
  apply session_user_id_truthy in Hs. apply truthy_string_Some in Hp as [_ Hp].
  unfold pluginInstallation_upsert.
  destruct (pluginInstallation (server_db srv) !! (userId, pid)); simpl;
    by apply Db_wf_insert.
Qed.

Lemma PATCH_Db_wf srv session pluginId enabled settings :
  Db_wf (server_db srv) →
  Db_wf (server_db (snd (PATCH srv session pluginId enabled settings))).
Proof.
  intros Hwf. unfold PATCH.
  destruct (session_user_id session) as [userId|] eqn:Hs; [|done].
  destruct (truthy_string pluginId) as [pid|] eqn:Hp; [|done].
  destruct (pluginInstallation_findUnique _ _ _); [|done].
  apply session_user_id_truthy in Hs. apply truthy_string_Some in Hp as [_ Hp].
  unfold pluginInstallation_update.
  destruct (pluginInstallation (server_db srv) !! (userId, pid)); simpl; [|done].
  by apply Db_wf_insert.
Qed.

Lemma DELETE_Db_wf srv session pluginId :
  Db_wf (server_db srv) →
  Db_wf (server_db (snd (DELETE srv session pluginId))).
Proof.
  intros Hwf. unfold DELETE.
  destruct (session_user_id session) as [userId|]; [|done].
  destruct (truthy_string pluginId) as [pid|]; [|done].
  unfold pluginInstallation_delete.
  destruct (pluginInstallation (server_db srv) !! (userId, pid)); simpl; [|done].
  by apply map_Forall_delete.
Qed.

(** C8, as the claim has it, fails for the empty plugin id: it is in no
    registry, yet the handler answers 400 "Plugin ID is required", not 404. *)
Lemma C8_counterexample :
  session_user_id (Some "u1") = Some "u1" ∧
  getPluginManifest "" (server_store sample_server) = None ∧
  POST (JObject []) sample_server (Some "u1") (Some "") =
    (json_response (ErrorBody "Plugin ID is required") 400, sample_server) ∧
  status (fst (POST (JObject []) sample_server (Some "u1") (Some ""))) ≠ 404.
Proof. repeat split. simpl. lia. Qed.

(** C8, amended.  For every authenticated viewer and every plugin id that
    is not in the registry, install fails and leaves the whole server state,
    hence the installation table, as it was: with 404 "Plugin not found"
    when the id is a non-empty string, and with 400 "Plugin ID is required"
    when it is the empty string, which the handler rejects before it
    consults the registry. *)
Theorem C8_install_unknown_plugin (settings_default : JsonValue)
    (srv : Server) (session : Session) (userId pluginId : string) :
  session_user_id session = Some userId →
  getPluginManifest pluginId (server_store srv) = None →
  POST settings_default srv session (Some pluginId) =
    if truthy pluginId
    then (json_response (ErrorBody "Plugin not found") 404, srv)
    else (json_response (ErrorBody "Plugin ID is required") 400, srv).
Proof.
  intros Hs Hm. unfold POST. rewrite Hs.
  destruct (truthy pluginId) eqn:Ht.
  - by rewrite truthy_string_truthy, Hm.
  - by rewrite truthy_string_falsy.
Qed.

(** C8 (amended) for Scenario D. *)
Lemma C8_witness :
  POST (JObject []) sample_server (Some "u1") (Some "nonexistent-plugin") =
    (json_response (ErrorBody "Plugin not found") 404, sample_server).
Proof.
  apply (C8_install_unknown_plugin (JObject []) sample_server (Some "u1") "u1" "nonexistent-plugin");
    reflexivity.
Defined.

(** C9.  In a well-formed table, when the viewer already has a row for a
    registered plugin, install answers 200 and the only change to the server
    is that this row is enabled: its id and its settings are the ones it
    had, no other row changes and no new id is drawn. *)
Theorem C9_reinstall_keeps_settings (settings_default : JsonValue)
    (srv : Server) (session : Session) (userId pluginId : string)
    (manifest : PluginManifest) (cols : InstallationColumns) :
  Db_wf (server_db srv) →
  session_user_id session = Some userId →
  getPluginManifest pluginId (server_store srv) = Some manifest →
  pluginInstallation (server_db srv) !! (userId, pluginId) = Some cols →
  let reinstalled :=
    {| col_id := col_id cols; col_enabled := true; col_settings := col_settings cols |} in
  POST settings_default srv session (Some pluginId) =
    (json_response (InstalledBody (row_of (userId, pluginId) reinstalled) manifest) 200,
     with_db srv
       {| pluginInstallation :=
            <[(userId, pluginId) := reinstalled]> (pluginInstallation (server_db srv));
          entityPluginConfig := entityPluginConfig (server_db srv);
          nextId := nextId (server_db srv) |}).
Proof.
  intros Hwf Hs Hm Hrow reinstalled. destruct (Hwf _ _ Hrow) as [_ Hp]. simpl in Hp.
  unfold POST, pluginInstallation_upsert.
  by rewrite Hs, truthy_string_truthy, Hm, Hrow.
Qed.

(** C9 for user u1, who re-installs company-metrics and finds the settings
    [{ theme: "dark" }] untouched. *)
Lemma C9_witness :
  fst (POST (JObject []) sample_server (Some "u1") (Some "company-metrics")) =
    json_response
      (InstalledBody
         {| inst_id := 0; inst_userId := "u1"; inst_pluginId := "company-metrics";
            inst_enabled := true;
            inst_settings := JObject [("theme", JString "dark")] |}
         companyMetricsManifest) 200.
Proof.
  assert (Hwf : Db_wf sample_db) by compute_done.
  rewrite (C9_reinstall_keeps_settings (JObject []) sample_server (Some "u1") "u1" "company-metrics"
             companyMetricsManifest
             {| col_id := 0; col_enabled := true;
                col_settings := JObject [("theme", JString "dark")] |}
             Hwf eq_refl eq_refl eq_refl).
  reflexivity.
Defined.

(* ===================================================================== *)
(** ** What GET reports *)
(* ===================================================================== *)

Lemma Map_of_entries_snoc {V : Type} (entries : list (string * V)) k v :
  Map_of_entries (entries ++ [(k, v)]) = <[k := v]> (Map_of_entries entries).
Proof. unfold Map_of_entries. by rewrite foldl_app. Qed.

Lemma Map_of_entries_lookup {V : Type} (entries : list (string * V)) k v :
  NoDup (entries.*1) → Map_of_entries entries !! k = Some v ↔ (k, v) ∈ entries.
Proof.
  revert k v. induction entries as [|[k0 v0] entries IH] using rev_ind; intros k v Hnd.
  - unfold Map_of_entries. simpl. rewrite lookup_empty. split; [done|intros H; inversion H].
  - rewrite fmap_app in Hnd. apply NoDup_app in Hnd as (Hnd & Hfresh & _).
    rewrite Map_of_entries_snoc, elem_of_app, list_elem_of_singleton.
    destruct (decide (k0 = k)) as [->|Hne].
    + rewrite lookup_insert_eq. split.
      * intros [= ->]. by right.
      * intros [Hin|[= ->]]; [|done]. exfalso. apply (Hfresh k).
        -- apply list_elem_of_fmap. by exists (k, v).
        -- simpl. by left.
    + rewrite lookup_insert_ne by done. rewrite IH by done.
      split; [by left|]. intros [?|[= ? ?]]; [done|congruence].
Qed.

Lemma findMany_rows userId db key c :
  (key, c) ∈ filter (fun kc => fst (fst kc) = userId) (map_to_list (pluginInstallation db)) ↔
  pluginInstallation db !! key = Some c ∧ key.1 = userId.
Proof.
  rewrite list_elem_of_filter, elem_of_map_to_list. simpl. split; intros [? ?]; done.
Qed.

(** A viewer has at most one row per plugin. *)
Lemma findMany_NoDup userId db :
  NoDup (map inst_pluginId (pluginInstallation_findMany userId db)).
Proof.
  unfold pluginInstallation_findMany. rewrite <- list_fmap_compose.
  apply NoDup_fmap_2_strong.
  - intros [[u1 p1] c1] [[u2 p2] c2] [H1 Hu1]%findMany_rows [H2 Hu2]%findMany_rows Heq.
    simpl in *. subst. rewrite H1 in H2. by injection H2 as ->.
  - apply NoDup_filter, NoDup_map_to_list.
Qed.

(** The installation map built by GET agrees with the table. *)
Lemma installationMap_lookup userId pluginId db :
  Map_of_entries (map (fun i => (inst_pluginId i, i)) (pluginInstallation_findMany userId db))
    !! pluginId
  = row_of (userId, pluginId) <$> pluginInstallation db !! (userId, pluginId).
Proof.
  apply option_eq. intros i. rewrite Map_of_entries_lookup.
  2:{ rewrite <- list_fmap_compose. apply findMany_NoDup. }
  unfold pluginInstallation_findMany. rewrite list_elem_of_fmap, fmap_Some. split.
  - intros (i' & [= Hp ->] & ([[u p] c] & -> & [Hin Hu]%findMany_rows)%list_elem_of_fmap).
    simpl in *. subst. by exists c.
  - intros (c & Hc & ->). exists (row_of (userId, pluginId) c). split; [done|].
    apply list_elem_of_fmap. exists ((userId, pluginId), c). split; [done|].
    by apply findMany_rows.
Qed.

Lemma plugin_infos_findMany available userId db :
  plugin_infos available (pluginInstallation_findMany userId db) =
  map (fun manifest =>
         let row := pluginInstallation db !! (userId, manifest_id manifest) in
         {| info_manifest := manifest;
            info_installed := bool_decide (is_Some row);
            info_enabled := default false (col_enabled <$> row);
            info_settings := nullish (JObject []) (col_settings <$> row) |})
      available.
Proof.
  unfold plugin_infos. apply list_fmap_ext. intros _ manifest _. simpl.
  rewrite installationMap_lookup.
  destruct (pluginInstallation db !! (userId, manifest_id manifest)) as [c|]; simpl;
    f_equal; apply bool_decide_ext; split; intros _; eauto.
Qed.

Lemma plugin_infos_nil available :
  plugin_infos available [] =
  map (fun manifest =>
         {| info_manifest := manifest; info_installed := false; info_enabled := false;
            info_settings := JObject [] |})
      available.
Proof.
  unfold plugin_infos. apply list_fmap_ext. intros _ manifest _. simpl.
  unfold Map_of_entries. simpl. by rewrite lookup_empty.
Qed.


Lemma GET_body srv cookieSession :
  body (fst (GET srv cookieSession)) =
  PluginsBody
    (map (fun manifest =>
            let row := installation_of srv cookieSession (manifest_id manifest) in
            {| info_manifest := manifest;
               info_installed := bool_decide (is_Some row);
               info_enabled := default false (col_enabled <$> row);
               info_settings := nullish (JObject []) (col_settings <$> row) |})
         (getAvailablePlugins (server_store srv)))
    (bool_decide (is_Some cookieSession)).
Proof.
  unfold GET, installation_of. simpl.
  destruct (session_user_id cookieSession) as [userId|].
  - by rewrite plugin_infos_findMany.
  - by rewrite plugin_infos_nil.
Qed.

Lemma candidatePluginIds_spec srv cookieSession slot :
  candidatePluginIds srv cookieSession slot =
  map manifest_id
      (filter (fun m => is_candidate srv cookieSession slot m = true)
              (getAvailablePlugins (server_store srv))).
Proof.
  unfold candidatePluginIds. rewrite GET_body. unfold enabledPlugins.
  induction (getAvailablePlugins (server_store srv)) as [|m available IH]; [done|].
  rewrite fmap_cons, !filter_cons.
  assert (Heq : provides_slot slot
            {| info_manifest := m;
               info_installed :=
                 bool_decide (is_Some (installation_of srv cookieSession (manifest_id m)));
               info_enabled :=
                 default false (col_enabled <$> installation_of srv cookieSession (manifest_id m));
               info_settings :=
                 nullish (JObject [])
                   (col_settings <$> installation_of srv cookieSession (manifest_id m)) |}
            = is_candidate srv cookieSession slot m).
  { unfold provides_slot, is_candidate, declares_slot. simpl.
    by destruct (installation_of srv cookieSession (manifest_id m)) as [c|]. }
  simpl. rewrite Heq. destruct (is_candidate srv cookieSession slot m).
  - rewrite !decide_True by done. simpl. by rewrite <- IH.
  - rewrite !decide_False by done. apply IH.
Qed.

Lemma elem_of_candidatePluginIds srv cookieSession slot pluginId :
  pluginId ∈ candidatePluginIds srv cookieSession slot ↔
  ∃ manifest cols,
    manifest ∈ getAvailablePlugins (server_store srv) ∧
    manifest_id manifest = pluginId ∧
    declares_slot slot manifest = true ∧
    installation_of srv cookieSession pluginId = Some cols ∧
    col_enabled cols = true.
Proof.
  rewrite candidatePluginIds_spec, list_elem_of_fmap. split.
  - intros (m & -> & [Hc Hm]%list_elem_of_filter). unfold is_candidate in Hc.
    apply andb_true_iff in Hc as [Hrow Hslot].
    destruct (installation_of srv cookieSession (manifest_id m)) as [c|] eqn:Hr; [|done].
    by exists m, c.
  - intros (m & c & Hm & <- & Hslot & Hrow & Hen). exists m. split; [done|].
    apply list_elem_of_filter. split; [|done].
    unfold is_candidate. by rewrite Hrow, Hen, Hslot.
Qed.


(* ===================================================================== *)
(** ** Properties of slot resolution *)
(* ===================================================================== *)

Lemma filter_includes_array items ids :
  filter_includes (JArray items) ids =
  Return (filter (fun x => Array_includes items x = true) ids).
Proof.
  induction ids as [|x ids IH]; [done|]. simpl. rewrite IH, filter_cons.
  destruct (Array_includes items x); [by rewrite decide_True|by rewrite decide_False].
Qed.

(** A stored JSON string narrows by substring. *)
Lemma filter_includes_string text ids :
  filter_includes (JString text) ids =
  Return (filter (fun x => String_includes text x = true) ids).
Proof.
  induction ids as [|x ids IH]; [done|]. simpl. rewrite IH, filter_cons.
  destruct (String_includes text x); [by rewrite decide_True|by rewrite decide_False].
Qed.

(** Any other stored JSON value makes the first callback throw, so that a
    non-empty list is left as it was by the inner [catch]. *)
Lemma filter_includes_no_method v x ids :
  (∀ items, v ≠ JArray items) → (∀ text, v ≠ JString text) →
  filter_includes v (x :: ids) = Throw TypeError.
Proof. intros Harray Hstring. destruct v; simpl; [done..|by destruct (Hstring s)|by destruct (Harray items)|done]. Qed.

Lemma filter_includes_sublist v ids kept :
  filter_includes v ids = Return kept → kept `sublist_of` ids.
Proof.
  revert kept. induction ids as [|x ids IH]; intros kept; simpl.
  - by intros [= <-].
  - destruct (json_includes v x) as [b|]; [|done].
    destruct (filter_includes v ids) as [kept'|]; [|done].
    intros [= <-]. destruct b; [apply sublist_skip|apply sublist_cons]; by apply IH.
Qed.

Section ResolverFacts.
Variable dynamic_import : ImportCase -> Completion PluginModule.
Variable JSON_parse : string -> Completion JsonValue.

Lemma entity_override_sublist props session storage ids :
  entity_override JSON_parse props session storage ids `sublist_of` ids.
Proof.
  unfold entity_override.
  destruct (entityType props); [|done].
  destruct (truthy_string (entityId props)); [|done].
  destruct (session_user_id session); [|done].
  destruct (truthy_string _); [|done].
  destruct (JSON_parse _) as [v|]; [|done].
  destruct (filter_includes v ids) eqn:Hf; [|done].
  by apply filter_includes_sublist in Hf.
Qed.

Lemma browser_write_cache_ok entry b :
  cache_ok dynamic_import b → cache_ok dynamic_import (browser_write entry b).
Proof. done. Qed.

Lemma loadPluginComponent_bundled pluginId slot b :
  cache_ok dynamic_import b →
  fst (loadPluginComponent dynamic_import pluginId slot b) =
    bundled_component dynamic_import pluginId slot ∧
  cache_ok dynamic_import (snd (loadPluginComponent dynamic_import pluginId slot b)) ∧
  localStorage (snd (loadPluginComponent dynamic_import pluginId slot b)) = localStorage b.
Proof.
  intros Hok. unfold loadPluginComponent.
  destruct (slotCache b !! pluginId ≫= _) as [cached|] eqn:Hcached; simpl.
  - apply bind_Some in Hcached as (slots & Hslots & Hc).
    split; [|done]. symmetry. by eapply Hok.
  - pose proof (eq_refl (bundled_component dynamic_import pluginId slot)) as Hb.
    unfold bundled_component at 2 in Hb. unfold bundled_component.
    destruct (import_case pluginId) as [c|]; [|by auto].
    destruct (dynamic_import c) as [m|e] eqn:Himport; [|by auto].
    destruct (module_components m !! slot) as [component|] eqn:Hcomp; [|by auto].
    split; [done|]. split; [|done].
    intros p slots s c'. simpl. destruct (decide (pluginId = p)) as [<-|Hne].
    + rewrite lookup_insert_eq. intros [= <-].
      destruct (decide (slot = s)) as [<-|Hs].
      * rewrite lookup_insert_eq. by intros [= <-].
      * rewrite lookup_insert_ne by done.
        destruct (slotCache b !! pluginId) as [old|] eqn:Hold; simpl.
        -- intros Hc'. by eapply Hok.
        -- by rewrite lookup_empty.
    + rewrite lookup_insert_ne by done. apply Hok.
Qed.

Lemma loadComponents_bundled ids slot b :
  cache_ok dynamic_import b →
  fst (loadComponents dynamic_import ids slot b) =
    omap (fun pluginId => bundled_component dynamic_import pluginId slot) ids ∧
  cache_ok dynamic_import (snd (loadComponents dynamic_import ids slot b)) ∧
  localStorage (snd (loadComponents dynamic_import ids slot b)) = localStorage b.
Proof.
  revert b. induction ids as [|pluginId ids IH]; intros b Hok; [done|].
  cbn [loadComponents].
  destruct (loadPluginComponent_bundled pluginId slot b Hok) as (Hc & Hok1 & Hls1).
  destruct (loadPluginComponent dynamic_import pluginId slot b) as [component b1].
  cbn [fst snd] in *. destruct (IH b1 Hok1) as (Hl & Hok2 & Hls2).
  destruct (loadComponents dynamic_import ids slot b1) as [loaded b2]. cbn [fst snd] in *.
  split; [|split; [done|congruence]].
  subst component loaded. reflexivity.
Qed.

(** What one resolution leaves in the slot and in the browser. *)
Lemma resolveSlot_spec srv cookieSession pageSession props st b :
  cache_ok dynamic_import b →
  let r := resolveSlot dynamic_import JSON_parse srv cookieSession pageSession props st b in
  fst r =
    {| components :=
         omap (fun pluginId => bundled_component dynamic_import pluginId (slotName props))
              (resolvedPluginIds JSON_parse srv cookieSession pageSession props b);
       loading := false; error := None |} ∧
  cache_ok dynamic_import (snd r) ∧
  localStorage (snd r) = localStorage b.
Proof.
  intros Hok. unfold resolveSlot, resolvedPluginIds, loadSlotComponents, loadSlotComponents_try.
  rewrite GET_body.
  set (ids := activePluginIds _ _ _ _ _).
  destruct (loadComponents_bundled ids (slotName props) b Hok) as (Hl & Hok' & Hls).
  destruct (loadComponents dynamic_import ids (slotName props) b) as [loaded b'].
  simpl in *. by rewrite Hl.
Qed.

Lemma resolvedPluginIds_unfold srv cookieSession pageSession props b :
  resolvedPluginIds JSON_parse srv cookieSession pageSession props b =
  entity_override JSON_parse props pageSession (localStorage b)
    (candidatePluginIds srv cookieSession (slotName props)).
Proof.
  unfold resolvedPluginIds, candidatePluginIds, activePluginIds. by rewrite GET_body.
Qed.

End ResolverFacts.

Section ResolutionTheorems.
Variable dynamic_import : ImportCase -> Completion PluginModule.
Variable JSON_parse : string -> Completion JsonValue.




Lemma resolveSlot_unfold srv cookieSession pageSession props st b :
  resolveSlot dynamic_import JSON_parse srv cookieSession pageSession props st b =
  let loaded :=
    loadComponents dynamic_import
      (resolvedPluginIds JSON_parse srv cookieSession pageSession props b) (slotName props) b in
  ({| components := fst loaded; loading := false; error := None |}, snd loaded).
Proof.
  unfold resolveSlot, resolvedPluginIds, loadSlotComponents, loadSlotComponents_try.
  rewrite GET_body. by destruct (loadComponents _ _ _ _).
Qed.

Lemma entity_override_nil props session storage :
  entity_override JSON_parse props session storage [] = [].
Proof. apply sublist_nil_r, entity_override_sublist. Qed.

Lemma candidatePluginIds_anonymous srv cookieSession slot :
  session_user_id cookieSession = None → candidatePluginIds srv cookieSession slot = [].
Proof.
  intros Hanon. rewrite candidatePluginIds_spec.
  induction (getAvailablePlugins (server_store srv)) as [|m l IH]; [done|].
  rewrite filter_cons, decide_False; [done|].
  unfold is_candidate, installation_of. by rewrite Hanon.
Qed.

(** While the page's own session is absent, the stored override list is not
    consulted: all candidates are resolved. *)
Lemma override_skipped_without_page_session srv cookieSession pageSession props b :
  session_user_id pageSession = None →
  resolvedPluginIds JSON_parse srv cookieSession pageSession props b =
  candidatePluginIds srv cookieSession (slotName props).
Proof.
  intros Hpage. rewrite resolvedPluginIds_unfold. unfold entity_override. rewrite Hpage.
  destruct (entityType props); [|done]. by destruct (truthy_string (entityId props)).
Qed.

(** Likewise when the slot is given no entity. *)
Lemma override_skipped_without_entity srv cookieSession pageSession props b :
  entityType props = None ∨ truthy_string (entityId props) = None →
  resolvedPluginIds JSON_parse srv cookieSession pageSession props b =
  candidatePluginIds srv cookieSession (slotName props).
Proof.
  intros Hentity. rewrite resolvedPluginIds_unfold. unfold entity_override.
  destruct Hentity as [-> | ->]; [done|]. by destruct (entityType props).
Qed.

(** A fetch that fails, or an answer without a [plugins] array, sets the
    error and puts no plugin component on the page. *)
Lemma failed_fetch_renders_nothing props session response st b :
  (∀ plugins authenticated, response ≠ Return (PluginsBody plugins authenticated)) →
  let r := loadSlotComponents dynamic_import JSON_parse props session response st b in
  error (fst r) = Some "Failed to load plugins" ∧ rendered (fst r) = [] ∧
  slotCache (snd r) = slotCache b.
Proof.
  intros Hfail. unfold loadSlotComponents, loadSlotComponents_try.
  destruct response as [[plugins auth| | | |]|]; try done. by destruct (Hfail plugins auth).
Qed.

(** C4.  Whatever the registry, the tables, the slot, the entity, the stored
    overrides and the page's own session: when the request carries no
    authenticated session, resolution ends with the empty component list (no
    error, nothing loaded, the browser untouched), so nothing is rendered. *)
Theorem C4_anonymous_viewer_resolves_nothing
    (srv : Server) (cookieSession pageSession : Session)
    (props : DynamicSlotProps) (st : SlotState) (b : Browser) :
  session_user_id cookieSession = None →
  resolveSlot dynamic_import JSON_parse srv cookieSession pageSession props st b =
    ({| components := []; loading := false; error := None |}, b) ∧
  rendered (fst (resolveSlot dynamic_import JSON_parse srv cookieSession pageSession props st b))
    = [].
Proof.
  intros Hanon. rewrite resolveSlot_unfold, resolvedPluginIds_unfold.
  rewrite candidatePluginIds_anonymous, entity_override_nil by done. done.
Qed.

(** C5.  When the viewer's row for a plugin has [enabled = false], no
    resolution for that viewer (any slot, any entity, any stored override,
    any page session) loads a component for that plugin: its id is not among
    the ids resolved, and the components returned are exactly the bundled
    components of the ids resolved. *)
Theorem C5_disabled_plugin_is_never_resolved
    (srv : Server) (cookieSession pageSession : Session) (userId pluginId : string)
    (cols : InstallationColumns) (props : DynamicSlotProps) (st : SlotState) (b : Browser) :
  cache_ok dynamic_import b →
  session_user_id cookieSession = Some userId →
  pluginInstallation (server_db srv) !! (userId, pluginId) = Some cols →
  col_enabled cols = false →
  let ids := resolvedPluginIds JSON_parse srv cookieSession pageSession props b in
  (pluginId ∉ ids) ∧
  components (fst (resolveSlot dynamic_import JSON_parse srv cookieSession pageSession props st b))
    = omap (fun p => bundled_component dynamic_import p (slotName props)) ids.
Proof.
  intros Hok Hs Hrow Hoff ids. split.
  - unfold ids. rewrite resolvedPluginIds_unfold. intros Hin.
    eapply elem_of_sublist in Hin; [|apply entity_override_sublist].
    apply elem_of_candidatePluginIds in Hin as (m & c & _ & _ & _ & Hc & Hen).
    unfold installation_of in Hc. rewrite Hs, Hrow in Hc. congruence.
  - destruct (resolveSlot_spec dynamic_import JSON_parse srv cookieSession pageSession
                props st b Hok) as (-> & _). done.
Qed.


End ResolutionTheorems.

Lemma cache_ok_empty dynamic_import : cache_ok dynamic_import Browser_empty.
Proof. intros p slots s c. simpl. by rewrite lookup_empty. Qed.

Lemma cache_ok_storage dynamic_import storage b :
  cache_ok dynamic_import b → cache_ok dynamic_import (with_storage storage b).
Proof. done. Qed.

(** C4 for a visitor without a session on the company page of acme. *)
Lemma C4_witness :
  resolveSlot bundled_import parse_id_array sample_server None None header_of_acme
    SlotState_initial Browser_empty =
  ({| components := []; loading := false; error := None |}, Browser_empty).
Proof.
  apply (C4_anonymous_viewer_resolves_nothing bundled_import parse_id_array sample_server
           None None header_of_acme SlotState_initial Browser_empty).
  reflexivity.
Defined.

(** C5 for user u1, whose investor-insights row is disabled. *)
Lemma C5_witness :
  "investor-insights" ∉
    resolvedPluginIds parse_id_array sample_server (Some "u1") (Some "u1")
      {| slotName := "InvestorProfile.Header"; entityType := Some investor;
         entityId := Some "sequoia" |} Browser_empty.
Proof.
  apply (C5_disabled_plugin_is_never_resolved bundled_import parse_id_array sample_server
           (Some "u1") (Some "u1") "u1" "investor-insights"
           {| col_id := 1; col_enabled := false; col_settings := JObject [] |}
           {| slotName := "InvestorProfile.Header"; entityType := Some investor;
              entityId := Some "sequoia" |}
           SlotState_initial Browser_empty);
    [apply cache_ok_empty | reflexivity | reflexivity | reflexivity].
Defined.


(** C1, as the claim has it, fails while the page's own session is not
    (yet) there.  User u1, known to the server by the request's cookie, has
    company-metrics installed and enabled, and saved the empty override list
    for acme.  The list allows no plugin, yet a resolution run before
    [useSession] has delivered the session skips the override and returns
    the component of company-metrics. *)
Lemma C1_counterexample :
  localStorage (browser_with_override []) !! storageKey company "acme" = Some "[]" ∧
  parse_id_array "[]" = Return (JArray []) ∧
  candidatePluginIds sample_server (Some "u1") "CompanyProfile.Header" = ["company-metrics"] ∧
  filter (fun p => Array_includes [] p = true)
         (candidatePluginIds sample_server (Some "u1") "CompanyProfile.Header") = [] ∧
  fst (resolveSlot bundled_import parse_id_array sample_server (Some "u1") None
         header_of_acme SlotState_initial (browser_with_override [])) =
    {| components := [ComponentRef "QuickStatsCard"]; loading := false; error := None |}.
Proof. repeat split. Qed.

Section OverrideTheorems.
Variable dynamic_import : ImportCase -> Completion PluginModule.
Variable JSON_parse : string -> Completion JsonValue.

(** C1, amended.  Let the slot be given an entity type and an entity id,
    and let the text stored under the entity's key parse to a JSON array (an
    empty text never does).  When the page's own session carries a user id
    and the entity id is not empty, a resolution loads components for
    exactly those installed, enabled, slot-declaring plugins of the viewer
    whose id is an element of the array, in registry order, and a plugin
    whose id is not in the array is not resolved.  Otherwise (page session
    absent, or empty entity id) the stored list is not consulted and all
    candidates are resolved.  In both cases the components returned are the
    bundled components of the resolved ids. *)
Theorem C1_override_is_an_intersection
    (srv : Server) (cookieSession pageSession : Session)
    (props : DynamicSlotProps) (st : SlotState) (b : Browser)
    (etype : EntityType) (eid saved : string) (items : list JsonValue) :
  cache_ok dynamic_import b →
  entityType props = Some etype → entityId props = Some eid →
  localStorage b !! storageKey etype eid = Some saved → truthy saved = true →
  JSON_parse saved = Return (JArray items) →
  let candidates := candidatePluginIds srv cookieSession (slotName props) in
  let ids := resolvedPluginIds JSON_parse srv cookieSession pageSession props b in
  ids =
    (if bool_decide (is_Some (session_user_id pageSession)) && truthy eid
     then filter (fun p => Array_includes items p = true) candidates
     else candidates) ∧
  components (fst (resolveSlot dynamic_import JSON_parse srv cookieSession pageSession props st b))
    = omap (fun p => bundled_component dynamic_import p (slotName props)) ids ∧
  (is_Some (session_user_id pageSession) → truthy eid = true →
   ∀ pluginId, Array_includes items pluginId = false → pluginId ∉ ids).
Proof.
  intros Hok Het Heid Hsaved Hsaved' Hparse candidates ids.
  assert (Hids : ids =
    if bool_decide (is_Some (session_user_id pageSession)) && truthy eid
    then filter (fun p => Array_includes items p = true) candidates
    else candidates).
  { unfold ids. rewrite resolvedPluginIds_unfold. unfold entity_override.
    rewrite Het, Heid. simpl. destruct (truthy eid); [|by rewrite andb_false_r].
    destruct (session_user_id pageSession) as [pageUser|]; [|done].
    rewrite bool_decide_eq_true_2 by eauto. rewrite Hsaved. simpl.
    by rewrite Hsaved', Hparse, filter_includes_array. }
  split; [done|]. split.
  - by destruct (resolveSlot_spec dynamic_import JSON_parse srv cookieSession pageSession
                   props st b Hok) as (-> & _).
  - intros Hpage Heid' pluginId Hout. rewrite Hids, Heid', bool_decide_eq_true_2 by done.
    simpl. intros [Hin _]%list_elem_of_filter. congruence.
Qed.

(** Saving a list with [saveEntityConfig] and resolving afterwards: with a
    [JSON.stringify] that [JSON.parse] inverts on arrays of strings, the
    saved list replaces whatever was stored and is what resolution
    intersects the candidates with. *)
Lemma Array_includes_strings ids p : Array_includes (map JString ids) p = true ↔ p ∈ ids.
Proof.
  unfold Array_includes. induction ids as [|x ids IH]; simpl.
  - split; [discriminate | intros H; inversion H].
  - rewrite orb_true_iff, IH, elem_of_cons, String.eqb_eq.
    split; (intros [H|H]; [left; congruence | by right]).
Qed.

Lemma saved_override_is_applied (JSON_stringify : list string -> string)
    srv cookieSession pageSession pageUser etype eid ids slot b :
  (∀ l, JSON_parse (JSON_stringify l) = Return (JArray (map JString l))) →
  (∀ l, truthy (JSON_stringify l) = true) →
  session_user_id pageSession = Some pageUser → truthy eid = true →
  resolvedPluginIds JSON_parse srv cookieSession pageSession
    {| slotName := slot; entityType := Some etype; entityId := Some eid |}
    (saveEntityConfig JSON_stringify etype eid ids b)
  = filter (fun p => p ∈ ids) (candidatePluginIds srv cookieSession slot).
Proof.
  intros Hround Htruthy Hpage Heid.
  rewrite resolvedPluginIds_unfold. unfold entity_override. simpl.
  rewrite Hpage, Heid, lookup_insert_eq. simpl.
  rewrite Htruthy, Hround, filter_includes_array.
  apply list_filter_iff. intros p. apply Array_includes_strings.
Qed.

End OverrideTheorems.

(** C1 (amended) for user u1 with the empty override list for acme. *)
Lemma C1_witness :
  resolvedPluginIds parse_id_array sample_server (Some "u1") (Some "u1") header_of_acme
    (browser_with_override []) = [].
Proof.
  apply (C1_override_is_an_intersection bundled_import parse_id_array sample_server
           (Some "u1") (Some "u1") header_of_acme SlotState_initial
           (browser_with_override []) company "acme" "[]" []);
    try reflexivity.
  apply (cache_ok_storage bundled_import _ Browser_empty), cache_ok_empty.
Defined.

(* ===================================================================== *)
(** ** Uninstall *)
(* ===================================================================== *)


(** When the viewer has no row for the plugin, the first statement rejects,
    the handler answers 500 and the second statement is never run: the
    tables are as before. *)
Lemma DELETE_without_row srv cookieSession userId pluginId :
  session_user_id cookieSession = Some userId → truthy pluginId = true →
  pluginInstallation (server_db srv) !! (userId, pluginId) = None →
  status (fst (DELETE srv cookieSession (Some pluginId))) = 500 ∧
  server_db (snd (DELETE srv cookieSession (Some pluginId))) = server_db srv.
Proof.
  intros Hs Hp Hrow. unfold DELETE, pluginInstallation_delete.
  by rewrite Hs, truthy_string_truthy, Hrow.
Qed.




(** An id with a character that has a meaning in a query string does not
    reach the handler as it is: for [a&b] the handler reads [a], finds no
    row for it, answers 500 and leaves the row of [a&b] where it was. *)
Example unescaped_id_is_cut :
  let srv := {| server_store := Store_empty;
                server_db := {| pluginInstallation :=
                                  {[ ("u1", "a&b") :=
                                       {| col_id := 0; col_enabled := true;
                                          col_settings := JObject [] |} ]};
                                entityPluginConfig := []; nextId := 1 |} |} in
  let after := uninstallPlugin query_value (Some "u1") "a&b"
                 {| app_server := srv; app_browser := Browser_empty |} in
  query_value "a&b" = "a" ∧ status (fst after) = 500 ∧
  is_Some (pluginInstallation (server_db (app_server (snd after))) !! ("u1", "a&b")).
Proof. repeat split. by eexists. Qed.

(* ===================================================================== *)
(** ** The scenarios of the specification, run on the code *)
(* ===================================================================== *)

(** Both plugins are resolved for the header of acme, in registration
    order; only company-metrics has a case in the switch of [DynamicSlot],
    so only its component is returned and the loader warns about timeline. *)
Example scenario_A :
  resolvedPluginIds parse_id_array scenario_server (Some "u1") (Some "u1") header_of_acme
    Browser_empty = ["company-metrics"; "timeline"] ∧
  components (fst (resolveSlot bundled_import parse_id_array scenario_server (Some "u1")
                     (Some "u1") header_of_acme SlotState_initial Browser_empty))
    = [ComponentRef "QuickStatsCard"] ∧
  browser_console (snd (resolveSlot bundled_import parse_id_array scenario_server (Some "u1")
                          (Some "u1") header_of_acme SlotState_initial Browser_empty))
    = [WarnUnknownPlugin "timeline"].
Proof. repeat split. Qed.

(** With the override list [["timeline"]] saved for acme, only timeline is
    resolved there; another company is not affected. *)
Example scenario_B :
  resolvedPluginIds parse_id_array scenario_server (Some "u1") (Some "u1") header_of_acme
    (browser_with_override ["timeline"]) = ["timeline"] ∧
  resolvedPluginIds parse_id_array scenario_server (Some "u1") (Some "u1")
    {| slotName := "CompanyProfile.Header"; entityType := Some company;
       entityId := Some "other-co" |}
    (browser_with_override ["timeline"]) = ["company-metrics"; "timeline"].
Proof. repeat split. Qed.

(** After user u1 disabled company-metrics, it is resolved for no entity. *)
Example scenario_C :
  let srv := snd (PATCH scenario_server (Some "u1") (Some "company-metrics") (Some false) None) in
  resolvedPluginIds parse_id_array srv (Some "u1") (Some "u1") header_of_acme Browser_empty
    = ["timeline"].
Proof. reflexivity. Qed.

(** Installing a plugin that is not registered. *)
Example scenario_D :
  POST (JObject []) scenario_server (Some "u1") (Some "nonexistent-plugin") =
    (json_response (ErrorBody "Plugin not found") 404, scenario_server).
Proof. reflexivity. Qed.

(* ===================================================================== *)
(** ** Further properties of the registry and the loader *)
(* ===================================================================== *)

Lemma existsb_EntityType t (ts : list EntityType) :
  existsb (EntityType_eqb t) ts = true ↔ t ∈ ts.
Proof.
  induction ts as [|t' ts IH]; simpl.
  - split; [discriminate | intros H; inversion H].
  - rewrite orb_true_iff, IH, elem_of_cons.
    split; (intros [H|H]; [left | by right]).
    + by destruct t, t'.
    + subst. by destruct t'.
Qed.

Lemma registry_values_elem manifests registry m :
  registry_of manifests registry →
  m ∈ JsMap_values registry ↔ first_with_id (manifest_id m) manifests = Some m.
Proof.
  intros Hreg. pose proof Hreg as (Hnd & Hin & Hall).
  rewrite <- (registry_of_get manifests registry) by done.
  rewrite JsMap_get_elem by done. unfold JsMap_values. rewrite list_elem_of_fmap. split.
  - intros ([k m'] & -> & Hkm). simpl. by destruct (Hin _ _ Hkm) as [-> _].
  - intros Hkm. by exists (manifest_id m, m).
Qed.

(** X1.  After any sequence of registrations, looking an id up gives the
    first manifest that was registered with it and nothing for an id that
    was never registered; what a lookup returns carries the id asked for
    and is one of the manifests [getAvailablePlugins] lists. *)
Theorem X1_lookup_after_registration (manifests : list PluginManifest) (pluginId : string) :
  let st := register_all manifests Store_empty in
  getPluginManifest pluginId st = first_with_id pluginId manifests ∧
  (getPluginManifest pluginId st = None ↔ pluginId ∉ map manifest_id manifests) ∧
  (∀ m, getPluginManifest pluginId st = Some m →
        manifest_id m = pluginId ∧ m ∈ manifests ∧ m ∈ getAvailablePlugins st).
Proof.
  intros st. pose proof (register_all_registry_of manifests) as Hreg. fold st in Hreg.
  assert (Hget : getPluginManifest pluginId st = first_with_id pluginId manifests)
    by apply (registry_of_get manifests), Hreg.
  split; [done|]. split.
  - rewrite Hget. apply first_with_id_None.
  - intros m Hm. rewrite Hget in Hm. destruct (first_with_id_Some _ _ _ Hm) as [Hin Hid].
    split; [done|]. split; [done|].
    unfold getAvailablePlugins. apply (registry_values_elem manifests); [done|].
    by rewrite Hid.
Qed.

(** X2.  After any sequence of registrations, [getPluginsForEntityType]
    returns, in registration order, exactly the manifests that were the
    first registered with their id and whose entity types include the one
    asked for. *)
Theorem X2_plugins_for_entity_type (manifests : list PluginManifest) (t : EntityType) :
  let st := register_all manifests Store_empty in
  getPluginsForEntityType t st `sublist_of` getAvailablePlugins st ∧
  getPluginsForEntityType t st `sublist_of` manifests ∧
  (∀ m, m ∈ getPluginsForEntityType t st ↔
        first_with_id (manifest_id m) manifests = Some m ∧ t ∈ manifest_entityTypes m).
Proof.
  intros st. pose proof (register_all_registry_of manifests) as Hreg. fold st in Hreg.
  assert (Hsub : getPluginsForEntityType t st `sublist_of` getAvailablePlugins st)
    by apply sublist_filter.
  split; [done|]. split.
  - etrans; [exact Hsub|apply register_all_order].
  - intros m. unfold getPluginsForEntityType.
    rewrite list_elem_of_filter, existsb_EntityType, (registry_values_elem manifests) by done.
    split; intros [? ?]; done.
Qed.

Section LoaderCache.
Variable dynamic_import : ImportCase -> Completion PluginModule.

Lemma loadPluginModule_cache_inv pluginId st :
  loader_cache_inv st → loader_cache_inv (snd (loadPluginModule dynamic_import pluginId st)).
Proof.
  intros Hinv. unfold loadPluginModule.
  destruct (loadedModules st !! pluginId) as [m|] eqn:Hloaded; [done|].
  unfold loadPluginModule_try.
  destruct (import_case pluginId) as [c|]; [|done].
  destruct (dynamic_import c) as [module|e]; [|done].
  assert (Hpublish : ∀ s,
    loadedModules s = loadedModules st → componentCache s = componentCache st →
    loader_cache_inv
      {| availablePlugins := availablePlugins s;
         loadedModules := <[pluginId := module]> (loadedModules s);
         componentCache := <[pluginId := module_components module]> (componentCache s);
         console := console s; initializeRuns := initializeRuns s;
         cleanupRuns := cleanupRuns s |}).
  { intros s Hl Hc p. simpl. rewrite Hl, Hc.
    destruct (decide (pluginId = p)) as [<-|Hne].
    - by rewrite !lookup_insert_eq.
    - rewrite !lookup_insert_ne by done. apply Hinv. }
  destruct (module_initialize module) as [initialize|]; [|by apply Hpublish].
  destruct (initialize _); [by apply Hpublish|done].
Qed.

Lemma unloadPluginModule_cache_inv pluginId st :
  loader_cache_inv st → loader_cache_inv (snd (unloadPluginModule pluginId st)).
Proof.
  intros Hinv.
  assert (Hevict : ∀ s,
    loadedModules s = loadedModules st → componentCache s = componentCache st →
    loader_cache_inv
      {| availablePlugins := availablePlugins s;
         loadedModules := delete pluginId (loadedModules s);
         componentCache := delete pluginId (componentCache s);
         console := console s; initializeRuns := initializeRuns s;
         cleanupRuns := cleanupRuns s |}).
  { intros s Hl Hc p. simpl. rewrite Hl, Hc.
    destruct (decide (pluginId = p)) as [<-|Hne].
    - by rewrite !lookup_delete_eq.
    - rewrite !lookup_delete_ne by done. apply Hinv. }
  unfold unloadPluginModule.
  destruct (loadedModules st !! pluginId) as [m|]; [|by apply Hevict].
  destruct (module_cleanup m) as [cleanup|]; [|by apply Hevict].
  destruct (cleanup _); [by apply Hevict|done].
Qed.

Lemma reachable_cache_inv st : reachable dynamic_import st → loader_cache_inv st.
Proof.
  induction 1 as [|manifest st _ IH|pluginId st _ IH|pluginId st _ IH].
  - intros p. simpl. by rewrite !lookup_empty.
  - destruct (registerAvailablePlugin_maps manifest st) as [Hl Hc].
    intros p. rewrite Hl, Hc. apply IH.
  - by apply loadPluginModule_cache_inv.
  - by apply unloadPluginModule_cache_inv.
Qed.

Lemma getPluginComponent_loaded pluginId slot st :
  loader_cache_inv st →
  getPluginComponent pluginId slot st =
  loadedModules st !! pluginId ≫= (fun m => module_components m !! slot).
Proof.
  intros Hinv. unfold getPluginComponent. rewrite Hinv.
  by destruct (loadedModules st !! pluginId).
Qed.

Lemma isPluginLoaded_true pluginId st :
  isPluginLoaded pluginId st = true ↔ is_Some (loadedModules st !! pluginId).
Proof. unfold isPluginLoaded. apply bool_decide_eq_true. Qed.

End LoaderCache.

(** X3.  In every state the loader can reach, [getPluginComponent] is the
    component the loaded module has for the slot, and null when the plugin
    is not loaded or its module has no such slot; and a plugin is loaded
    only if the switch has a case for its id and the import behind the case
    gave exactly the module that is loaded. *)
Theorem X3_component_lookup_follows_loaded_modules
    (dynamic_import : ImportCase -> Completion PluginModule)
    (st : Store) (pluginId slot : string) :
  reachable dynamic_import st →
  getPluginComponent pluginId slot st =
    loadedModules st !! pluginId ≫= (fun m => module_components m !! slot) ∧
  (isPluginLoaded pluginId st = false → getPluginComponent pluginId slot st = None) ∧
  (∀ module, loadedModules st !! pluginId = Some module →
     ∃ c, import_case pluginId = Some c ∧ dynamic_import c = Return module) ∧
  (import_case pluginId = None → isPluginLoaded pluginId st = false).
Proof.
  intros Hreach. pose proof (reachable_cache_inv _ _ Hreach) as Hcache.
  pose proof (reachable_inv _ _ Hreach) as [Hknown _].
  assert (Hget := getPluginComponent_loaded pluginId slot st Hcache).
  split; [done|]. split; [|split].
  - intros Hoff%isPluginLoaded_false. by rewrite Hget, Hoff.
  - apply Hknown.
  - intros Hcase. apply isPluginLoaded_false.
    destruct (loadedModules st !! pluginId) as [m|] eqn:Hm; [|done].
    apply Hknown in Hm as (c & Hc & _). congruence.
Qed.

(** X3 on the store after company-metrics was loaded: its header component
    is there. *)
Lemma X3_witness :
  getPluginComponent "company-metrics" "CompanyProfile.Header"
    (snd (loadPluginModule bundled_import "company-metrics" Store_empty))
  = Some (ComponentRef "QuickStatsCard").
Proof.
  pose proof (X3_component_lookup_follows_loaded_modules bundled_import
                (snd (loadPluginModule bundled_import "company-metrics" Store_empty))
                "company-metrics" "CompanyProfile.Header"
                (reachable_load bundled_import "company-metrics" Store_empty
                   (reachable_empty bundled_import))) as [Hget _].
  rewrite Hget. reflexivity.
Defined.

(** X4.  A load that returns a module leaves the plugin loaded, with the
    module's components available, and is cached: loading again returns the
    same module and changes nothing, in particular it does not run
    [initialize] again; and [initialize] ran at most once during the load. *)
Theorem X4_successful_load_is_cached
    (dynamic_import : ImportCase -> Completion PluginModule)
    (st : Store) (pluginId : string) (module : PluginModule) :
  reachable dynamic_import st →
  fst (loadPluginModule dynamic_import pluginId st) = Return (Some module) →
  let st' := snd (loadPluginModule dynamic_import pluginId st) in
  isPluginLoaded pluginId st' = true ∧
  (∀ slot, getPluginComponent pluginId slot st' = module_components module !! slot) ∧
  loadPluginModule dynamic_import pluginId st' = (Return (Some module), st') ∧
  runs_of pluginId (initializeRuns st') ≤ S (runs_of pluginId (initializeRuns st)) ∧
  (isPluginLoaded pluginId st = true → st' = st).
Proof.
  intros Hreach Hret st'.
  assert (Hcache : loader_cache_inv st').
  { apply loadPluginModule_cache_inv. by eapply reachable_cache_inv. }
  assert (Hloaded : loadedModules st' !! pluginId = Some module).
  { revert Hret. unfold st', loadPluginModule.
    destruct (loadedModules st !! pluginId) as [m|] eqn:Hm; [by intros [= <-]|].
    unfold loadPluginModule_try.
    destruct (import_case pluginId) as [c|]; [|done].
    destruct (dynamic_import c) as [m|e]; [|done].
    destruct (module_initialize m) as [initialize|]; simpl.
    - destruct (initialize _); simpl; [|done]. intros [= <-]. by rewrite lookup_insert_eq.
    - intros [= <-]. by rewrite lookup_insert_eq. }
  split; [apply isPluginLoaded_true; eauto|]. split; [|split; [|split]].
  - intros slot. by rewrite (getPluginComponent_loaded pluginId slot st' Hcache), Hloaded.
  - unfold loadPluginModule at 1. by rewrite Hloaded.
  - unfold st', loadPluginModule.
    destruct (loadedModules st !! pluginId) as [m|]; [simpl; lia|].
    unfold loadPluginModule_try.
    destruct (import_case pluginId) as [c|]; [|simpl; lia].
    destruct (dynamic_import c) as [m|e]; [|simpl; lia].
    destruct (module_initialize m) as [initialize|]; [|simpl; lia].
    destruct (initialize _); simpl; rewrite runs_of_snoc; lia.
  - intros [m Hm]%isPluginLoaded_true. unfold st', loadPluginModule. by rewrite Hm.
Qed.

(** X4 for company-metrics on the empty store. *)
Lemma X4_witness :
  loadPluginModule bundled_import "company-metrics"
    (snd (loadPluginModule bundled_import "company-metrics" Store_empty)) =
  (Return (Some companyMetricsPlugin),
   snd (loadPluginModule bundled_import "company-metrics" Store_empty)).
Proof.
  apply (X4_successful_load_is_cached bundled_import Store_empty "company-metrics"
           companyMetricsPlugin (reachable_empty bundled_import) eq_refl).
Defined.

(** X5.  In every state the loader can reach: an [unload] that returns
    evicts the plugin from both maps, so that it is not loaded, has no
    component, and the next [load] runs the module's [initialize] again;
    for a plugin that is not loaded it runs no hook and changes nothing.
    An [unload] whose [cleanup] call throws lets the exception escape
    before the eviction: the module stays loaded and cached. *)
Theorem X5_unload_evicts_unless_cleanup_throws
    (dynamic_import : ImportCase -> Completion PluginModule)
    (st : Store) (pluginId : string) :
  reachable dynamic_import st →
  let r := unloadPluginModule pluginId st in
  (fst r = Return tt →
     loadedModules (snd r) = delete pluginId (loadedModules st) ∧
     componentCache (snd r) = delete pluginId (componentCache st) ∧
     isPluginLoaded pluginId (snd r) = false ∧
     (∀ slot, getPluginComponent pluginId slot (snd r) = None) ∧
     (∀ c module initialize,
        import_case pluginId = Some c → dynamic_import c = Return module →
        module_initialize module = Some initialize →
        runs_of pluginId
          (initializeRuns (snd (loadPluginModule dynamic_import pluginId (snd r)))) =
        S (runs_of pluginId (initializeRuns st)))) ∧
  (∀ e, fst r = Throw e →
     loadedModules (snd r) = loadedModules st ∧
     componentCache (snd r) = componentCache st ∧
     isPluginLoaded pluginId (snd r) = isPluginLoaded pluginId st ∧
     isPluginLoaded pluginId st = true) ∧
  (isPluginLoaded pluginId st = false → r = (Return tt, st)).
Proof.
  intros Hreach r. pose proof (reachable_inv _ _ Hreach) as [_ Hnocache].
  assert (Hevict : ∀ s,
    loadedModules s = loadedModules st → componentCache s = componentCache st →
    initializeRuns s = initializeRuns st →
    let s' := {| availablePlugins := availablePlugins s;
                 loadedModules := delete pluginId (loadedModules s);
                 componentCache := delete pluginId (componentCache s);
                 console := console s; initializeRuns := initializeRuns s;
                 cleanupRuns := cleanupRuns s |} in
    loadedModules s' = delete pluginId (loadedModules st) ∧
    componentCache s' = delete pluginId (componentCache st) ∧
    isPluginLoaded pluginId s' = false ∧
    (∀ slot, getPluginComponent pluginId slot s' = None) ∧
    (∀ c module initialize,
        import_case pluginId = Some c → dynamic_import c = Return module →
        module_initialize module = Some initialize →
        runs_of pluginId
          (initializeRuns (snd (loadPluginModule dynamic_import pluginId s'))) =
        S (runs_of pluginId (initializeRuns st)))).
  { intros s Hl Hc Hi s'. subst s'. simpl. rewrite Hl, Hc.
    split; [done|]. split; [done|]. split.
    { apply isPluginLoaded_false. simpl. apply lookup_delete_eq. }
    split.
    { intros slot. unfold getPluginComponent. simpl. by rewrite lookup_delete_eq. }
    intros c module initialize Hcase Himport Hinit.
    erewrite loadPluginModule_initialize; [|simpl; apply lookup_delete_eq|done..].
    simpl. rewrite Hi. by destruct (initialize _); simpl; rewrite runs_of_snoc. }
  subst r. unfold unloadPluginModule.
  destruct (loadedModules st !! pluginId) as [m|] eqn:Hm.
  - assert (Hon : isPluginLoaded pluginId st = true) by (apply isPluginLoaded_true; eauto).
    destruct (module_cleanup m) as [cleanup|].
    + destruct (cleanup _).
      * split; [intros _|split; [done|by rewrite Hon]].
        exact (Hevict (Build_Store _ _ _ _ _ _) eq_refl eq_refl eq_refl).
      * split; [done|]. split; [|by rewrite Hon]. by intros e _.
    + split; [intros _|split; [done|by rewrite Hon]].
      exact (Hevict st eq_refl eq_refl eq_refl).
  - split; [intros _; exact (Hevict st eq_refl eq_refl eq_refl)|].
    split; [done|]. intros _. simpl.
    rewrite !delete_id by auto. by destruct st.
Qed.

(** X5 for company-metrics, loaded and then unloaded on the bundled
    modules; and with a module whose cleanup throws. *)
Lemma X5_witness :
  isPluginLoaded "company-metrics"
    (snd (unloadPluginModule "company-metrics"
            (snd (loadPluginModule bundled_import "company-metrics" Store_empty)))) = false ∧
  isPluginLoaded "company-metrics"
    (snd (unloadPluginModule "company-metrics"
            (snd (loadPluginModule clingy_import "company-metrics" Store_empty)))) = true.
Proof.
  pose proof (X5_unload_evicts_unless_cleanup_throws bundled_import
                (snd (loadPluginModule bundled_import "company-metrics" Store_empty))
                "company-metrics"
                (reachable_load bundled_import "company-metrics" Store_empty
                   (reachable_empty bundled_import))) as [Hevicted _].
  pose proof (X5_unload_evicts_unless_cleanup_throws clingy_import
                (snd (loadPluginModule clingy_import "company-metrics" Store_empty))
                "company-metrics"
                (reachable_load clingy_import "company-metrics" Store_empty
                   (reachable_empty clingy_import))) as (_ & Hthrown & _).
  split.
  - apply (Hevicted eq_refl).
  - destruct (Hthrown HookError eq_refl) as (_ & _ & -> & H). exact H.
Defined.

(** X6.  When the import behind a case of the switch fails, both loaders
    answer with the not-found value and write one error to the console; the
    store loader (in any state it can reach) leaves its maps and the hook
    record as they were, and the loader of [DynamicSlot] (with a consistent
    cache) leaves its cache as it was, so that the next call tries the
    import again. *)
Theorem X6_failing_import_is_not_found
    (dynamic_import : ImportCase -> Completion PluginModule)
    (pluginId : string) (c : ImportCase) (e : Exception) :
  import_case pluginId = Some c → dynamic_import c = Throw e →
  (∀ st, reachable dynamic_import st →
     loadPluginModule dynamic_import pluginId st =
       (Return None, console_write (ErrorFailedToLoad pluginId e) st)) ∧
  (∀ slot b, cache_ok dynamic_import b →
     loadPluginComponent dynamic_import pluginId slot b =
       (None, browser_write (ErrorFailedToLoad pluginId e) b)).
Proof.
  intros Hcase Himport. split.
  - intros st [Hknown _]%reachable_inv. unfold loadPluginModule, loadPluginModule_try.
    destruct (loadedModules st !! pluginId) as [m|] eqn:Hm.
    + apply Hknown in Hm as (c' & Hc' & Hm). congruence.
    + by rewrite Hcase, Himport.
  - intros slot b Hok. unfold loadPluginComponent.
    destruct (slotCache b !! pluginId ≫= _) as [cached|] eqn:Hcached.
    + apply bind_Some in Hcached as (slots & Hslots & Hc).
      specialize (Hok _ _ _ _ Hslots Hc). unfold bundled_component in Hok.
      by rewrite Hcase, Himport in Hok.
    + by rewrite Hcase, Himport.
Qed.

(** X6 for investor-insights when its chunk fails to load. *)
Lemma X6_witness :
  loadPluginComponent broken_import "investor-insights" "InvestorProfile.Header" Browser_empty =
  (None, browser_write (ErrorFailedToLoad "investor-insights" ModuleLoadError) Browser_empty).
Proof.
  apply (X6_failing_import_is_not_found broken_import "investor-insights"
           import_investor_insights ModuleLoadError eq_refl eq_refl).
  apply cache_ok_empty.
Defined.

(* ===================================================================== *)
(** ** Further properties of the route *)
(* ===================================================================== *)

Lemma getPluginManifest_available pluginId manifest st :
  getPluginManifest pluginId st = Some manifest → manifest ∈ getAvailablePlugins st.
Proof.
  unfold getPluginManifest, getAvailablePlugins, JsMap_values.
  induction (availablePlugins st) as [|[k m] registry IH]; simpl; [done|].
  destruct (String.eqb k pluginId).
  - intros [= ->]. by left.
  - intros Hget. right. by apply IH.
Qed.

(** X7.  GET answers 200 and changes nothing on the server.  Its list has
    one entry per registered manifest, in the registry's order; an entry is
    installed exactly when the viewer has a row for it, enabled only when
    installed, and carries empty settings when not installed; a viewer
    without a user id sees every plugin as not installed. *)
Theorem X7_listing_shape (srv : Server) (session : Session) :
  let r := GET srv session in
  snd r = srv ∧ status (fst r) = 200 ∧
  ∃ plugins,
    body (fst r) = PluginsBody plugins (bool_decide (is_Some session)) ∧
    map info_manifest plugins = getAvailablePlugins (server_store srv) ∧
    (∀ p, p ∈ plugins →
       (info_installed p = true ↔
          is_Some (installation_of srv session (manifest_id (info_manifest p)))) ∧
       (info_enabled p = true → info_installed p = true) ∧
       (info_installed p = false → info_settings p = JObject [])) ∧
    (session_user_id session = None →
       ∀ p, p ∈ plugins → info_installed p = false ∧ info_enabled p = false).
Proof.
  intros r. split; [done|]. split; [done|].
  eexists. split; [apply GET_body|]. split.
  { rewrite map_map. simpl. apply map_id. }
  split.
  - intros p (manifest & -> & _)%list_elem_of_fmap. simpl.
    destruct (installation_of srv session (manifest_id manifest)) as [cols|]; simpl.
    + split; [|done]. split; eauto.
    + split; [|done]. split; [done|]. by intros [? ?].
  - intros Hanon p (manifest & -> & _)%list_elem_of_fmap. simpl.
    unfold installation_of. by rewrite Hanon.
Qed.

(** X8.  Install is idempotent: sending the same install request a second
    time gives the same answer and leaves the server as the first request
    left it, whatever the first answer was. *)
Theorem X8_install_is_idempotent (settings_default : JsonValue)
    (srv : Server) (session : Session) (pluginId : option string) :
  POST settings_default (snd (POST settings_default srv session pluginId)) session pluginId =
  POST settings_default srv session pluginId.
Proof.
  unfold POST.
  destruct (session_user_id session) as [userId|]; [|done].
  destruct (truthy_string pluginId) as [p|]; [|done].
  destruct (getPluginManifest p (server_store srv)) as [manifest|] eqn:Hm; [|simpl; by rewrite Hm].
  unfold pluginInstallation_upsert.
  destruct (pluginInstallation (server_db srv) !! (userId, p)) as [cols|] eqn:Hrow; simpl;
    rewrite Hm, lookup_insert_eq; simpl; by rewrite insert_insert_eq.
Qed.

(** X9.  The first install of a registered plugin by a viewer who has no
    row for it answers 200 and creates the row: enabled, with the default
    settings and a fresh id; no other row changes.  From then on GET
    reports the plugin to this viewer as installed and enabled, and the
    plugin is a candidate for every slot its manifest declares. *)
Theorem X9_first_install_creates_an_enabled_row (settings_default : JsonValue)
    (srv : Server) (session : Session) (userId pluginId : string) (manifest : PluginManifest) :
  session_user_id session = Some userId → truthy pluginId = true →
  getPluginManifest pluginId (server_store srv) = Some manifest →
  manifest_id manifest = pluginId →
  pluginInstallation (server_db srv) !! (userId, pluginId) = None →
  let created :=
    {| col_id := nextId (server_db srv); col_enabled := true;
       col_settings := settings_default |} in
  let r := POST settings_default srv session (Some pluginId) in
  fst r = json_response (InstalledBody (row_of (userId, pluginId) created) manifest) 200 ∧
  server_store (snd r) = server_store srv ∧
  pluginInstallation (server_db (snd r)) =
    <[(userId, pluginId) := created]> (pluginInstallation (server_db srv)) ∧
  (∀ key, key ≠ (userId, pluginId) →
     pluginInstallation (server_db (snd r)) !! key =
     pluginInstallation (server_db srv) !! key) ∧
  entityPluginConfig (server_db (snd r)) = entityPluginConfig (server_db srv) ∧
  installation_of (snd r) session pluginId = Some created ∧
  (∀ slot, declares_slot slot manifest = true →
     pluginId ∈ candidatePluginIds (snd r) session slot).
Proof.
  intros Hs Hp Hm Hid Hrow created r.
  assert (Hr : r =
    (json_response (InstalledBody (row_of (userId, pluginId) created) manifest) 200,
     with_db srv
       {| pluginInstallation :=
            <[(userId, pluginId) := created]> (pluginInstallation (server_db srv));
          entityPluginConfig := entityPluginConfig (server_db srv);
          nextId := S (nextId (server_db srv)) |})).
  { subst r. unfold POST, pluginInstallation_upsert.
    by rewrite Hs, truthy_string_truthy, Hm, Hrow. }
  rewrite Hr. simpl.
  assert (Hinst : installation_of
    (with_db srv
       {| pluginInstallation :=
            <[(userId, pluginId) := created]> (pluginInstallation (server_db srv));
          entityPluginConfig := entityPluginConfig (server_db srv);
          nextId := S (nextId (server_db srv)) |}) session pluginId = Some created).
  { unfold installation_of. rewrite Hs. simpl. apply lookup_insert_eq. }
  repeat split; try done.
  - intros key Hkey. by rewrite lookup_insert_ne.
  - intros slot Hslot. apply elem_of_candidatePluginIds.
    exists manifest, created. repeat split; try done.
    simpl. by eapply getPluginManifest_available.
Qed.

(** X9 for user u2, who installs investor-insights for the first time. *)
Lemma X9_witness :
  installation_of (snd (POST (JObject []) sample_server (Some "u2") (Some "investor-insights")))
    (Some "u2") "investor-insights" =
  Some {| col_id := nextId (server_db sample_server); col_enabled := true;
          col_settings := JObject [] |}.
Proof.
  apply (X9_first_install_creates_an_enabled_row (JObject []) sample_server (Some "u2") "u2"
           "investor-insights" investorInsightsManifest);
    vm_compute; reflexivity.
Defined.









(** X10.  PATCH, on any request: it never creates or removes a row and
    never changes the id of a row, the entity configurations, the id
    counter, the registry or the loaded modules; an answer other than 200
    leaves the database as it was, and only a 500 answer writes to the
    console.  A viewer with a user id gets 500 for a body that is no JSON or
    is [null].  For a body that is an object with a non-empty string as
    [pluginId], the answer is 404 when the viewer has no row for the plugin;
    otherwise 500 when Prisma rejects the [data] built from the body's
    [enabled] and [settings], and else 200, and then the row keeps every
    field the accepted [data] does not provide, takes the ones it provides,
    and no other row changes; accepted [data] without fields changes
    nothing. *)
Theorem X10_update_contract
    (prisma_data : option JsonValue -> option JsonValue -> Completion InstallationPatch)
    (srv : Server) (session : Session) (body : Completion JsonValue) :
  let r := PATCH_request prisma_data srv session body in
  let table := pluginInstallation (server_db srv) in
  let table' := pluginInstallation (server_db (snd r)) in
  dom table' = dom table ∧
  (∀ key, col_id <$> table' !! key = col_id <$> table !! key) ∧
  entityPluginConfig (server_db (snd r)) = entityPluginConfig (server_db srv) ∧
  nextId (server_db (snd r)) = nextId (server_db srv) ∧
  getAvailablePlugins (server_store (snd r)) = getAvailablePlugins (server_store srv) ∧
  loadedModules (server_store (snd r)) = loadedModules (server_store srv) ∧
  (status (fst r) ≠ 200 → server_db (snd r) = server_db srv) ∧
  (status (fst r) ≠ 500 → server_store (snd r) = server_store srv) ∧
  (status (fst r) = 500 →
     ∃ e, snd r = route_error "Error updating plugin:" e srv) ∧
  (is_Some (session_user_id session) →
   body = Return JNull ∨ (∃ e, body = Throw e) → status (fst r) = 500) ∧
  (∀ userId fields p,
     session_user_id session = Some userId → body = Return (JObject fields) →
     JsMap_get "pluginId" fields = Some (JString p) → truthy p = true →
     match table !! (userId, p) with
     | None => r = (json_response (ErrorBody "Plugin not installed") 404, srv)
     | Some cols =>
         match prisma_data (JsMap_get "enabled" fields) (JsMap_get "settings" fields) with
         | Throw e =>
             r = (json_response (ErrorBody "Failed to update plugin") 500,
                  route_error "Error updating plugin:" e srv)
         | Return data =>
             let cols' :=
               {| col_id := col_id cols;
                  col_enabled := default (col_enabled cols) (patch_enabled data);
                  col_settings := default (col_settings cols) (patch_settings data) |} in
             fst r = json_response (UpdatedBody (row_of (userId, p) cols')) 200 ∧
             table' !! (userId, p) = Some cols' ∧
             (∀ key, key ≠ (userId, p) → table' !! key = table !! key) ∧
             (patch_enabled data = None → patch_settings data = None → snd r = srv)
         end
     end).
Proof.
  intros r table table'.
  assert (Htyped : ∀ userId p data cols,
    session_user_id session = Some userId → truthy p = true →
    table !! (userId, p) = Some cols →
    let r := PATCH srv session (Some p) (patch_enabled data) (patch_settings data) in
    let cols' := apply_patch data cols in
    r = (json_response (UpdatedBody (row_of (userId, p) cols')) 200,
         with_db srv
           {| pluginInstallation := <[(userId, p) := cols']> table;
              entityPluginConfig := entityPluginConfig (server_db srv);
              nextId := nextId (server_db srv) |})).
  { intros userId p data cols Hs Hp Hrow. simpl.
    unfold PATCH, pluginInstallation_findUnique, pluginInstallation_update.
    fold table. rewrite Hs, truthy_string_truthy, Hrow by done. simpl. by destruct data. }
  set (kept := fun r : HttpResponse * Server =>
    dom (pluginInstallation (server_db (snd r))) = dom table ∧
    (∀ key, col_id <$> pluginInstallation (server_db (snd r)) !! key =
            col_id <$> table !! key) ∧
    entityPluginConfig (server_db (snd r)) = entityPluginConfig (server_db srv) ∧
    nextId (server_db (snd r)) = nextId (server_db srv) ∧
    getAvailablePlugins (server_store (snd r)) = getAvailablePlugins (server_store srv) ∧
    loadedModules (server_store (snd r)) = loadedModules (server_store srv) ∧
    (status (fst r) ≠ 200 → server_db (snd r) = server_db srv) ∧
    (status (fst r) ≠ 500 → server_store (snd r) = server_store srv) ∧
    (status (fst r) = 500 →
       ∃ e, snd r = route_error "Error updating plugin:" e srv)).
  assert (Hsame : ∀ answer code, code ≠ 200 → code ≠ 500 →
            kept (json_response answer code, srv)).
  { intros answer code H200 H500. unfold kept. simpl. repeat split; done. }
  assert (Hfailed : ∀ e,
    kept (json_response (ErrorBody "Failed to update plugin") 500,
          route_error "Error updating plugin:" e srv)).
  { intros e. unfold kept. simpl. repeat split; try done. eauto. }
  assert (Hgeneral : kept r).
  { subst r. unfold PATCH_request.
    destruct (session_user_id session) as [userId|] eqn:Hs; [|by apply Hsame].
    destruct body as [body|e]; [|by apply Hfailed].
    destruct body as [| | | | |fields]; simpl; try (by apply Hfailed);
      try (by apply Hsame).
    destruct (absent_or_falsy (JsMap_get "pluginId" fields)); [by apply Hsame|].
    destruct (JsMap_get "pluginId" fields) as [[| | |p| |]|]; try (by apply Hfailed).
    unfold pluginInstallation_findUnique. fold table.
    destruct (table !! (userId, p)) as [cols|] eqn:Hrow; simpl; [|by apply Hsame].
    destruct (prisma_data _ _) as [data|e]; [|by apply Hfailed].
    destruct (truthy p) eqn:Hp.
    - rewrite (Htyped userId p data cols eq_refl Hp Hrow). unfold kept. simpl.
      split; [apply dom_insert_lookup_L; eauto|]. split.
      { intros key. destruct (decide (key = (userId, p))) as [->|Hne].
        - by rewrite lookup_insert_eq, Hrow.
        - by rewrite lookup_insert_ne. }
      repeat split; done.
    - unfold PATCH. rewrite Hs, truthy_string_falsy by done. by apply Hsame. }
  unfold kept in Hgeneral. fold table' in Hgeneral.
  destruct Hgeneral as (H1 & H2 & H3 & H4 & H5 & H6 & H7 & H8 & H9).
  do 9 (split; [done|]). split.
  - intros [userId Hs] Hbody. subst r. unfold PATCH_request. rewrite Hs.
    destruct Hbody as [->|[e ->]]; done.
  - intros userId fields p Hs -> Hfield Hp. subst r table'. unfold PATCH_request.
    rewrite Hs. simpl. rewrite Hfield. simpl. rewrite Hp. simpl.
    unfold pluginInstallation_findUnique. fold table.
    destruct (table !! (userId, p)) as [cols|] eqn:Hrow; simpl; [|done].
    destruct (prisma_data _ _) as [data|e]; [|done].
    rewrite (Htyped userId p data cols Hs Hp Hrow). simpl.
    split; [by destruct data|]. split; [rewrite lookup_insert_eq; by destruct data|].
    split; [intros key Hne; by rewrite lookup_insert_ne|].
    intros Hen Hse. unfold with_db, apply_patch. rewrite Hen, Hse. simpl.
    rewrite insert_id; [by destruct srv as [? []]|]. rewrite Hrow. by destruct cols.
Qed.

(** X10 for user u1, who disables company-metrics: the row keeps its id
    and its settings. *)
Lemma X10_witness :
  pluginInstallation
    (server_db
       (snd (PATCH_request boolean_and_json sample_server (Some "u1")
               (Return (JObject [("pluginId", JString "company-metrics");
                                 ("enabled", JBool false)])))))
    !! ("u1", "company-metrics") =
  Some {| col_id := 0; col_enabled := false;
          col_settings := JObject [("theme", JString "dark")] |}.
Proof.
  pose proof (X10_update_contract boolean_and_json sample_server (Some "u1")
                (Return (JObject [("pluginId", JString "company-metrics");
                                  ("enabled", JBool false)])))
    as (_ & _ & _ & _ & _ & _ & _ & _ & _ & _ & Hrow).
  specialize (Hrow "u1" _ "company-metrics" eq_refl eq_refl eq_refl eq_refl).
  destruct Hrow as (_ & Hrow & _). exact Hrow.
Defined.



Lemma leaves_others_alone_refl session srv : leaves_others_alone session srv srv.
Proof. by repeat split. Qed.

Lemma POST_leaves_others_alone settings_default srv session pluginId :
  leaves_others_alone session srv (snd (POST settings_default srv session pluginId)).
Proof.
  unfold POST. destruct (session_user_id session) as [userId|] eqn:Hs;
    [|apply leaves_others_alone_refl].
  destruct (truthy_string pluginId) as [p|]; [|apply leaves_others_alone_refl].
  destruct (getPluginManifest p (server_store srv));
    [|apply leaves_others_alone_refl].
  unfold pluginInstallation_upsert, leaves_others_alone.
  destruct (pluginInstallation (server_db srv) !! (userId, p)); simpl;
    (split; [done|]; split; [done|]; intros [u q] Hne; simpl in Hne;
     rewrite Hs in Hne; apply lookup_insert_ne; congruence).
Qed.

Lemma PATCH_leaves_others_alone srv session pluginId enabled settings :
  leaves_others_alone session srv (snd (PATCH srv session pluginId enabled settings)).
Proof.
  unfold PATCH. destruct (session_user_id session) as [userId|] eqn:Hs;
    [|apply leaves_others_alone_refl].
  destruct (truthy_string pluginId) as [p|]; [|apply leaves_others_alone_refl].
  unfold pluginInstallation_findUnique, pluginInstallation_update, leaves_others_alone.
  destruct (pluginInstallation (server_db srv) !! (userId, p)); simpl; [|by repeat split].
  split; [done|]. split; [done|]. intros [u q] Hne. simpl in Hne.
  rewrite Hs in Hne. apply lookup_insert_ne. congruence.
Qed.

Lemma DELETE_leaves_others_alone srv session pluginId :
  leaves_others_alone session srv (snd (DELETE srv session pluginId)).
Proof.
  unfold DELETE. destruct (session_user_id session) as [userId|] eqn:Hs;
    [|apply leaves_others_alone_refl].
  destruct (truthy_string pluginId) as [p|]; [|apply leaves_others_alone_refl].
  unfold pluginInstallation_delete, leaves_others_alone.
  destruct (pluginInstallation (server_db srv) !! (userId, p)); simpl; [|by repeat split].
  split; [done|]. split; [done|]. intros [u q] Hne. simpl in Hne.
  rewrite Hs in Hne. apply lookup_delete_ne. congruence.
Qed.

Lemma GET_response srv session :
  fst (GET srv session) = json_response (body (fst (GET srv session))) 200.
Proof. done. Qed.

Lemma GET_ext srv srv' session :
  getAvailablePlugins (server_store srv') = getAvailablePlugins (server_store srv) →
  (∀ p, installation_of srv' session p = installation_of srv session p) →
  fst (GET srv' session) = fst (GET srv session).
Proof.
  intros Hreg Hrows. rewrite (GET_response srv'), (GET_response srv), !GET_body, Hreg.
  do 2 f_equal. apply map_ext. intros manifest. simpl. by rewrite Hrows.
Qed.

Lemma candidatePluginIds_ext srv srv' session slot :
  fst (GET srv' session) = fst (GET srv session) →
  candidatePluginIds srv' session slot = candidatePluginIds srv session slot.
Proof. unfold candidatePluginIds. by intros ->. Qed.

(** X12.  Whatever one viewer installs, updates or uninstalls, another
    viewer sees no difference: the other viewer's rows, the answer to the
    other viewer's GET and the other viewer's candidates for every slot are
    the same before and after the request. *)
Theorem X12_requests_of_one_viewer_leave_the_others_alone (settings_default : JsonValue)
    (srv : Server) (acting other : Session) (pluginId : option string)
    (enabled : option bool) (settings : option JsonValue) :
  session_user_id acting ≠ session_user_id other →
  ∀ srv',
    srv' ∈ [snd (POST settings_default srv acting pluginId);
            snd (PATCH srv acting pluginId enabled settings);
            snd (DELETE srv acting pluginId)] →
    (∀ p, installation_of srv' other p = installation_of srv other p) ∧
    fst (GET srv' other) = fst (GET srv other) ∧
    (∀ slot, candidatePluginIds srv' other slot = candidatePluginIds srv other slot).
Proof.
  intros Hne srv' Hin.
  assert (Halone : leaves_others_alone acting srv srv').
  { repeat (apply elem_of_cons in Hin as [->|Hin]);
      [apply POST_leaves_others_alone | apply PATCH_leaves_others_alone
      | apply DELETE_leaves_others_alone | by apply elem_of_nil in Hin]. }
  destruct Halone as (Hreg & _ & Hrows).
  assert (Hsame : ∀ p, installation_of srv' other p = installation_of srv other p).
  { intros p. unfold installation_of.
    destruct (session_user_id other) as [userId|] eqn:Ho; [|done].
    apply Hrows. simpl. congruence. }
  split; [done|]. split; [by apply GET_ext|].
  intros slot. apply candidatePluginIds_ext. by apply GET_ext.
Qed.

(** X12 for user u2 while user u1 uninstalls company-metrics. *)
Lemma X12_witness :
  fst (GET (snd (DELETE sample_server (Some "u1") (Some "company-metrics"))) (Some "u2")) =
  fst (GET sample_server (Some "u2")).
Proof.
  apply (X12_requests_of_one_viewer_leave_the_others_alone (JObject []) sample_server
           (Some "u1") (Some "u2") (Some "company-metrics") None None).
  - discriminate.
  - apply elem_of_cons. right. apply elem_of_cons. right. apply elem_of_cons. by left.
Defined.

(** X13.  Install followed by uninstall, for a viewer who had no row for
    the plugin: the uninstall answers 200, the table of installations and
    the store are as before the install, every viewer's GET answers as
    before, and the id the row had is not handed out again.  A second
    uninstall finds no row: it answers 500 and leaves the database as it
    was. *)
Theorem X13_install_then_uninstall (settings_default : JsonValue)
    (srv : Server) (session : Session) (userId pluginId : string) (manifest : PluginManifest) :
  session_user_id session = Some userId → truthy pluginId = true →
  getPluginManifest pluginId (server_store srv) = Some manifest →
  pluginInstallation (server_db srv) !! (userId, pluginId) = None →
  let installed := snd (POST settings_default srv session (Some pluginId)) in
  let r := DELETE installed session (Some pluginId) in
  status (fst r) = 200 ∧
  pluginInstallation (server_db (snd r)) = pluginInstallation (server_db srv) ∧
  server_store (snd r) = server_store srv ∧
  nextId (server_db (snd r)) = S (nextId (server_db srv)) ∧
  (∀ viewer, fst (GET (snd r) viewer) = fst (GET srv viewer)) ∧
  status (fst (DELETE (snd r) session (Some pluginId))) = 500 ∧
  server_db (snd (DELETE (snd r) session (Some pluginId))) = server_db (snd r).
Proof.
  intros Hs Hp Hm Hrow installed r.
  assert (Hinstalled : installed =
    with_db srv
      {| pluginInstallation :=
           <[(userId, pluginId) :=
               {| col_id := nextId (server_db srv); col_enabled := true;
                  col_settings := settings_default |}]> (pluginInstallation (server_db srv));
         entityPluginConfig := entityPluginConfig (server_db srv);
         nextId := S (nextId (server_db srv)) |}).
  { subst installed. unfold POST, pluginInstallation_upsert.
    by rewrite Hs, truthy_string_truthy, Hm, Hrow. }
  assert (Hr : r =
    (json_response SuccessBody 200,
     with_db srv
       {| pluginInstallation := pluginInstallation (server_db srv);
          entityPluginConfig :=
            filter (fun c => ¬ (epc_userId c = userId ∧ epc_pluginId c = pluginId))
                   (entityPluginConfig (server_db srv));
          nextId := S (nextId (server_db srv)) |})).
  { subst r. rewrite Hinstalled. unfold DELETE, pluginInstallation_delete.
    rewrite Hs, truthy_string_truthy by done. simpl. rewrite lookup_insert_eq. simpl.
    unfold with_db, entityPluginConfig_deleteMany. simpl.
    by rewrite delete_insert_id. }
  rewrite Hr. simpl. repeat split; try done.
  - by eapply DELETE_without_row.
  - match goal with
    | |- server_db (snd (DELETE ?s _ _)) = _ =>
        by destruct (DELETE_without_row s session userId pluginId) as [_ ->]
    end.
Qed.

(** X13 for user u2 and investor-insights. *)
Lemma X13_witness :
  pluginInstallation
    (server_db
       (snd (DELETE (snd (POST (JObject []) sample_server (Some "u2") (Some "investor-insights")))
               (Some "u2") (Some "investor-insights")))) =
  pluginInstallation (server_db sample_server).
Proof.
  apply (X13_install_then_uninstall (JObject []) sample_server (Some "u2") "u2"
           "investor-insights" investorInsightsManifest); vm_compute; reflexivity.
Defined.

(** X14.  Of the three writing handlers only install ever adds a row, and
    then only a row of the session's user for the plugin id of the request,
    which is registered; update keeps the set of rows, uninstall can only
    shrink it.  None of them changes the registry or the loaded modules, and
    each keeps the table free of rows with an empty user or plugin id. *)
Theorem X14_rows_are_created_only_by_install (settings_default : JsonValue)
    (srv : Server) (session : Session) (pluginId : option string)
    (enabled : option bool) (settings : option JsonValue) :
  Db_wf (server_db srv) →
  let rows (s : Server) := dom (pluginInstallation (server_db s)) in
  let posted := snd (POST settings_default srv session pluginId) in
  let patched := snd (PATCH srv session pluginId enabled settings) in
  let deleted := snd (DELETE srv session pluginId) in
  (∀ key, key ∈ rows posted → key ∉ rows srv →
     session_user_id session = Some (fst key) ∧ pluginId = Some (snd key) ∧
     is_Some (getPluginManifest (snd key) (server_store srv))) ∧
  rows patched = rows srv ∧
  rows deleted ⊆ rows srv ∧
  (∀ srv', srv' ∈ [posted; patched; deleted] →
     getAvailablePlugins (server_store srv') = getAvailablePlugins (server_store srv) ∧
     loadedModules (server_store srv') = loadedModules (server_store srv) ∧
     Db_wf (server_db srv')).
Proof.
  intros Hwf rows posted patched deleted. subst rows posted patched deleted. simpl.
  split; [|split; [|split]].
  - intros key. unfold POST.
    destruct (session_user_id session) as [userId|]; [|done].
    destruct (truthy_string pluginId) as [p|] eqn:Hp; [|done].
    apply truthy_string_Some in Hp as [-> Hp].
    destruct (getPluginManifest p (server_store srv)) as [manifest|] eqn:Hm; [|done].
    unfold pluginInstallation_upsert.
    destruct (pluginInstallation (server_db srv) !! (userId, p)); simpl;
      rewrite dom_insert_L, elem_of_union, elem_of_singleton;
      (intros [->|Hin] Hnew; [by eauto|done]).
  - unfold PATCH.
    destruct (session_user_id session) as [userId|]; [|done].
    destruct (truthy_string pluginId) as [p|]; [|done].
    unfold pluginInstallation_findUnique, pluginInstallation_update.
    destruct (pluginInstallation (server_db srv) !! (userId, p)) eqn:Hrow; [|done].
    simpl. apply dom_insert_lookup_L. eauto.
  - unfold DELETE.
    destruct (session_user_id session) as [userId|]; [|done].
    destruct (truthy_string pluginId) as [p|]; [|done].
    unfold pluginInstallation_delete.
    destruct (pluginInstallation (server_db srv) !! (userId, p)) eqn:Hrow; [|done].
    simpl. rewrite dom_delete_L. intros key Hin. by apply elem_of_difference in Hin as [? _].
  - intros srv' Hin. repeat (apply elem_of_cons in Hin as [->|Hin]).
    + destruct (POST_leaves_others_alone settings_default srv session pluginId) as (? & ? & _).
      by auto using POST_Db_wf.
    + destruct (PATCH_leaves_others_alone srv session pluginId enabled settings) as (? & ? & _).
      by auto using PATCH_Db_wf.
    + destruct (DELETE_leaves_others_alone srv session pluginId) as (? & ? & _).
      by auto using DELETE_Db_wf.
    + by apply elem_of_nil in Hin.
Qed.

(** X14 on the sample server: an update keeps the set of rows. *)
Lemma X14_witness :
  dom (pluginInstallation
         (server_db (snd (PATCH sample_server (Some "u1") (Some "company-metrics")
                            (Some false) None)))) =
  dom (pluginInstallation (server_db sample_server)).
Proof.
  assert (Hwf : Db_wf (server_db sample_server)) by (unfold Db_wf; compute_done).
  destruct (X14_rows_are_created_only_by_install (JObject []) sample_server (Some "u1")
              (Some "company-metrics") (Some false) None Hwf) as (_ & Hpatched & _).
  exact Hpatched.
Defined.

(* ===================================================================== *)
(** ** Further properties of slot resolution *)
(* ===================================================================== *)

Section SlotFacts.

Variable dynamic_import : ImportCase -> Completion PluginModule.
Variable JSON_parse : string -> Completion JsonValue.

Lemma filter_includes_other_shape v ids :
  (∀ items, v ≠ JArray items) → (∀ text, v ≠ JString text) →
  match filter_includes v ids with Return kept => kept | Throw _ => ids end = ids.
Proof.
  intros Harray Hstring. destruct ids as [|x ids]; [done|].
  by rewrite filter_includes_no_method.
Qed.

(** X15.  Whatever is stored under the key of an entity, the ids resolved
    are a subsequence of the candidates: stored data can only narrow what
    the viewer's installations allow.  A stored JSON array keeps the
    candidates it has as elements, a stored JSON string keeps the candidates
    that occur in it as substrings, and a stored value of any other JSON
    shape is ignored. *)
Theorem X15_override_of_any_shape (srv : Server) (cookieSession pageSession : Session)
    (props : DynamicSlotProps) (b : Browser) :
  let candidates := candidatePluginIds srv cookieSession (slotName props) in
  let ids := resolvedPluginIds JSON_parse srv cookieSession pageSession props b in
  ids `sublist_of` candidates ∧
  (∀ etype eid user saved v,
     entityType props = Some etype → truthy_string (entityId props) = Some eid →
     session_user_id pageSession = Some user →
     truthy_string (localStorage b !! storageKey etype eid) = Some saved →
     JSON_parse saved = Return v →
     match v with
     | JArray items => ids = filter (fun p => Array_includes items p = true) candidates
     | JString text => ids = filter (fun p => String_includes text p = true) candidates
     | _ => ids = candidates
     end).
Proof.
  intros candidates ids. subst ids. rewrite resolvedPluginIds_unfold. fold candidates.
  split; [apply entity_override_sublist|].
  intros etype eid user saved v Het Heid Huser Hsaved Hparse.
  unfold entity_override. rewrite Het, Heid, Huser, Hsaved, Hparse.
  destruct v; try (by apply filter_includes_other_shape).
  - by rewrite filter_includes_string.
  - by rewrite filter_includes_array.
Qed.

End SlotFacts.

(** X15 for a page where the text [null] is stored: the override is
    ignored. *)
Lemma X15_witness :
  resolvedPluginIds parse_plain_json sample_server (Some "u1") (Some "u1") header_of_acme
    (browser_with_stored_text "null") =
  candidatePluginIds sample_server (Some "u1") "CompanyProfile.Header".
Proof.
  destruct (X15_override_of_any_shape parse_plain_json sample_server (Some "u1") (Some "u1") header_of_acme
              (browser_with_stored_text "null")) as [_ Hshape].
  exact (Hshape company "acme" "u1" "null" JNull eq_refl eq_refl eq_refl eq_refl eq_refl).
Defined.

Lemma omap_pointwise {A B : Type} (f g : A → option B) (l : list A) :
  (∀ x, x ∈ l → f x = g x) → omap f l = omap g l.
Proof.
  induction l as [|x l IH]; intros Hfg; [done|].
  assert (Hrest : omap f l = omap g l).
  { apply IH. intros y Hy. apply Hfg. by right. }
  cbn. rewrite (Hfg x) by (by left). destruct (g x); by rewrite ?Hrest.
Qed.


Section SlotRuns.

Variable dynamic_import : ImportCase -> Completion PluginModule.

Lemma cached_browser_write entry b pluginId slot :
  cached (browser_write entry b) pluginId slot = cached b pluginId slot.
Proof. done. Qed.

(** One call of [loadPluginComponent] changes at most the cache entry it was
    called for, and only from nothing to the component it returns. *)
Lemma loadPluginComponent_cached pluginId slot b pluginId' slot' :
  cached (snd (loadPluginComponent dynamic_import pluginId slot b)) pluginId' slot' =
  match cached b pluginId' slot' with
  | Some c => Some c
  | None =>
      if decide (pluginId' = pluginId ∧ slot' = slot)
      then fst (loadPluginComponent dynamic_import pluginId slot b)
      else None
  end.
Proof.
  unfold loadPluginComponent. fold (cached b pluginId slot).
  destruct (cached b pluginId slot) as [hit|] eqn:Hhit; simpl.
  { destruct (cached b pluginId' slot') eqn:Hc; [done|].
    destruct (decide _) as [[-> ->]|]; [congruence|done]. }
  assert (Hmiss : cached b pluginId' slot' =
    match cached b pluginId' slot' with
    | Some c => Some c
    | None => if decide (pluginId' = pluginId ∧ slot' = slot) then None else None
    end).
  { destruct (cached b pluginId' slot'); [done|]. by destruct (decide _). }
  destruct (import_case pluginId) as [c|]; [|exact Hmiss].
  destruct (dynamic_import c) as [module|e]; [|exact Hmiss].
  destruct (module_components module !! slot) as [component|]; [|exact Hmiss].
  clear Hmiss. unfold cached in *. simpl.
  destruct (decide (pluginId' = pluginId)) as [->|Hne].
  - rewrite lookup_insert_eq. simpl.
    destruct (decide (slot' = slot)) as [->|Hne'].
    + rewrite lookup_insert_eq, Hhit. by rewrite decide_True.
    + rewrite lookup_insert_ne by done. rewrite decide_False by (by intros [_ ?]).
      destruct (slotCache b !! pluginId) as [slots|]; simpl; [by destruct (slots !! slot')|done].
  - rewrite lookup_insert_ne by done. rewrite decide_False by (by intros [? _]).
    by destruct (slotCache b !! pluginId' ≫= _).
Qed.

Lemma loadPluginComponent_served pluginId slot b :
  fst (loadPluginComponent dynamic_import pluginId slot b) =
  served dynamic_import b pluginId slot.
Proof.
  unfold loadPluginComponent, served, bundled_component. fold (cached b pluginId slot).
  destruct (cached b pluginId slot); [done|].
  destruct (import_case pluginId) as [c|]; [|done].
  destruct (dynamic_import c) as [module|]; [|done].
  by destruct (module_components module !! slot).
Qed.

Lemma loadPluginComponent_logged pluginId slot b :
  browser_console (snd (loadPluginComponent dynamic_import pluginId slot b)) =
  browser_console b ++ option_list (logged dynamic_import b slot pluginId).
Proof.
  unfold loadPluginComponent, logged, load_failure. fold (cached b pluginId slot).
  destruct (cached b pluginId slot); simpl; [by rewrite app_nil_r|].
  destruct (import_case pluginId) as [c|]; [|done].
  destruct (dynamic_import c) as [module|]; [|done].
  destruct (module_components module !! slot); simpl; by rewrite app_nil_r.
Qed.

Lemma loadPluginComponent_localStorage pluginId slot b :
  localStorage (snd (loadPluginComponent dynamic_import pluginId slot b)) = localStorage b.
Proof.
  unfold loadPluginComponent.
  destruct (slotCache b !! pluginId ≫= _); [done|].
  destruct (import_case pluginId) as [c|]; [|done].
  destruct (dynamic_import c) as [module|]; [|done].
  by destruct (module_components module !! slot).
Qed.

Lemma bundled_not_failed pluginId slot c :
  bundled_component dynamic_import pluginId slot = Some c →
  load_failure dynamic_import pluginId = None.
Proof.
  unfold bundled_component, load_failure.
  destruct (import_case pluginId) as [case|]; [|done]. by destruct (dynamic_import case).
Qed.

(** A call of [loadPluginComponent] does not change what later calls of the
    same resolution return or log. *)
Lemma served_step pluginId slot b q :
  served dynamic_import (snd (loadPluginComponent dynamic_import pluginId slot b)) q slot =
  served dynamic_import b q slot.
Proof.
  unfold served at 1. rewrite loadPluginComponent_cached, loadPluginComponent_served.
  unfold served. destruct (cached b q slot) eqn:Hq; [done|].
  destruct (decide (q = pluginId ∧ slot = slot)) as [[-> _]|Hne]; [|done].
  rewrite Hq. by destruct (bundled_component dynamic_import pluginId slot).
Qed.

Lemma logged_step pluginId slot b q :
  logged dynamic_import (snd (loadPluginComponent dynamic_import pluginId slot b)) slot q =
  logged dynamic_import b slot q.
Proof.
  unfold logged. rewrite loadPluginComponent_cached, loadPluginComponent_served.
  unfold served. destruct (cached b q slot) eqn:Hq; [done|].
  destruct (decide (q = pluginId ∧ slot = slot)) as [[-> _]|Hne]; [|done].
  rewrite Hq. destruct (bundled_component dynamic_import pluginId slot) eqn:Hb; [|done].
  symmetry. by eapply bundled_not_failed.
Qed.

Lemma loadComponents_served ids slot b :
  fst (loadComponents dynamic_import ids slot b) =
  omap (fun p => served dynamic_import b p slot) ids.
Proof.
  revert b. induction ids as [|pluginId ids IH]; intros b; simpl; [done|].
  pose proof (loadPluginComponent_served pluginId slot b) as Hhead.
  pose proof (served_step pluginId slot b) as Hstep.
  destruct (loadPluginComponent dynamic_import pluginId slot b) as [component b1].
  simpl in *. specialize (IH b1).
  destruct (loadComponents dynamic_import ids slot b1) as [loaded b2]. simpl in *.
  rewrite <- Hhead, IH. rewrite (omap_pointwise _ (fun p => served dynamic_import b p slot));
    [done|]. intros q _. apply Hstep.
Qed.

Lemma loadComponents_logged ids slot b :
  browser_console (snd (loadComponents dynamic_import ids slot b)) =
  browser_console b ++ omap (logged dynamic_import b slot) ids.
Proof.
  revert b. induction ids as [|pluginId ids IH]; intros b; simpl.
  { by rewrite app_nil_r. }
  pose proof (loadPluginComponent_logged pluginId slot b) as Hhead.
  pose proof (logged_step pluginId slot b) as Hstep.
  destruct (loadPluginComponent dynamic_import pluginId slot b) as [component b1].
  simpl in *. specialize (IH b1).
  destruct (loadComponents dynamic_import ids slot b1) as [loaded b2]. simpl in *.
  rewrite IH, Hhead, (omap_pointwise _ (logged dynamic_import b slot)) by (intros; apply Hstep).
  destruct (logged dynamic_import b slot pluginId); simpl; by rewrite <- app_assoc.
Qed.

Lemma loadComponents_localStorage ids slot b :
  localStorage (snd (loadComponents dynamic_import ids slot b)) = localStorage b.
Proof.
  revert b. induction ids as [|pluginId ids IH]; intros b; simpl; [done|].
  pose proof (loadPluginComponent_localStorage pluginId slot b) as Hhead.
  destruct (loadPluginComponent dynamic_import pluginId slot b) as [component b1].
  simpl in *. specialize (IH b1).
  destruct (loadComponents dynamic_import ids slot b1) as [loaded b2]. simpl in *. congruence.
Qed.

(** The cache a pass over [ids] leaves behind: what was cached stays, and
    under each id of the pass the component the import delivered for the
    slot is added, if it delivered one. *)
Lemma loadComponents_cached ids slot b q s :
  cached (snd (loadComponents dynamic_import ids slot b)) q s =
  match cached b q s with
  | Some c => Some c
  | None =>
      if decide (q ∈ ids ∧ s = slot) then bundled_component dynamic_import q slot else None
  end.
Proof.
  revert b. induction ids as [|pluginId ids IH]; intros b.
  { cbn [loadComponents snd]. destruct (cached b q s); [done|].
    destruct (decide (q ∈ [] ∧ s = slot)) as [[Hin _]|]; [by apply elem_of_nil in Hin|done]. }
  cbn [loadComponents].
  pose proof (loadPluginComponent_cached pluginId slot b q s) as Hhead.
  pose proof (loadPluginComponent_served pluginId slot b) as Hserved.
  destruct (loadPluginComponent dynamic_import pluginId slot b) as [component b1].
  simpl in *. specialize (IH b1).
  destruct (loadComponents dynamic_import ids slot b1) as [loaded b2]. simpl in *.
  rewrite IH, Hhead. destruct (cached b q s) eqn:Hq; [done|].
  destruct (decide (q = pluginId ∧ s = slot)) as [[-> ->]|Hne].
  - rewrite Hserved. unfold served. rewrite Hq.
    rewrite (decide_True (P := pluginId ∈ pluginId :: ids ∧ slot = slot))
      by (split; [by left|done]).
    destruct (bundled_component dynamic_import pluginId slot) eqn:Hb; [done|].
    by destruct (decide (pluginId ∈ ids ∧ slot = slot)).
  - destruct (decide (q ∈ ids ∧ s = slot)) as [[Hin ->]|Hnot].
    + rewrite decide_True; [done|]. split; [by right|done].
    + rewrite decide_False; [done|]. intros [Hin ->].
      apply elem_of_cons in Hin as [->|Hin]; [by destruct Hne|by destruct Hnot].
Qed.

Lemma loadComponents_cached_mono ids slot b pluginId' slot' c :
  cached b pluginId' slot' = Some c →
  cached (snd (loadComponents dynamic_import ids slot b)) pluginId' slot' = Some c.
Proof.
  revert b. induction ids as [|pluginId ids IH]; intros b Hc; simpl; [done|].
  pose proof (loadPluginComponent_cached pluginId slot b pluginId' slot') as Hhead.
  rewrite Hc in Hhead.
  destruct (loadPluginComponent dynamic_import pluginId slot b) as [component b1]. simpl in *.
  specialize (IH b1 Hhead).
  by destruct (loadComponents dynamic_import ids slot b1) as [loaded b2].
Qed.

Lemma loadComponents_warms ids slot b pluginId :
  cache_ok dynamic_import b → pluginId ∈ ids →
  cached (snd (loadComponents dynamic_import ids slot b)) pluginId slot =
    bundled_component dynamic_import pluginId slot.
Proof.
  intros Hok Hin.
  pose proof (loadComponents_bundled dynamic_import ids slot b Hok) as (_ & Hok' & _).
  destruct (bundled_component dynamic_import pluginId slot) as [c|] eqn:Hbundled.
  - clear Hok'. revert b Hok. induction Hin as [pluginId ids|pluginId other ids Hin IH];
      intros b Hok; simpl.
    + pose proof (loadPluginComponent_bundled dynamic_import pluginId slot b Hok) as (Hfst & _).
      pose proof (loadPluginComponent_cached pluginId slot b pluginId slot) as Hhead.
      pose proof (loadComponents_cached_mono ids slot
                    (snd (loadPluginComponent dynamic_import pluginId slot b))
                    pluginId slot c) as Hmono.
      destruct (loadPluginComponent dynamic_import pluginId slot b) as [component b1].
      simpl in *.
      destruct (loadComponents dynamic_import ids slot b1) as [loaded b2]. simpl in *.
      apply Hmono. rewrite Hhead.
      destruct (cached b pluginId slot) as [hit|] eqn:Hhit.
      * unfold cached in Hhit. apply bind_Some in Hhit as (slots & Hslots & Hc).
        specialize (Hok _ _ _ _ Hslots Hc). congruence.
      * rewrite decide_True by done. congruence.
    + pose proof (loadPluginComponent_bundled dynamic_import other slot b Hok) as (_ & Hok1 & _).
      destruct (loadPluginComponent dynamic_import other slot b) as [component b1].
      simpl in *. specialize (IH Hbundled b1 Hok1).
      by destruct (loadComponents dynamic_import ids slot b1) as [loaded b2].
  - destruct (cached _ pluginId slot) as [c|] eqn:Hc; [|done].
    unfold cached in Hc. apply bind_Some in Hc as (slots & Hslots & Hc).
    specialize (Hok' _ _ _ _ Hslots Hc). congruence.
Qed.

Lemma loadComponents_warm ids slot b :
  cache_ok dynamic_import b →
  (∀ pluginId, pluginId ∈ ids →
     cached b pluginId slot = bundled_component dynamic_import pluginId slot) →
  slotCache (snd (loadComponents dynamic_import ids slot b)) = slotCache b.
Proof.
  revert b. induction ids as [|pluginId ids IH]; intros b Hok Hwarm; simpl; [done|].
  assert (Hhead : slotCache (snd (loadPluginComponent dynamic_import pluginId slot b)) =
                  slotCache b).
  { pose proof (Hwarm pluginId ltac:(by left)) as Hp.
    unfold loadPluginComponent. fold (cached b pluginId slot).
    destruct (cached b pluginId slot); [done|].
    unfold bundled_component in Hp.
    destruct (import_case pluginId) as [c|]; [|done].
    destruct (dynamic_import c) as [module|]; [|done].
    by destruct (module_components module !! slot). }
  pose proof (loadPluginComponent_bundled dynamic_import pluginId slot b Hok) as (_ & Hok1 & _).
  destruct (loadPluginComponent dynamic_import pluginId slot b) as [component b1]. simpl in *.
  specialize (IH b1 Hok1).
  destruct (loadComponents dynamic_import ids slot b1) as [loaded b2]. simpl in *.
  rewrite IH; [done|]. intros q Hq. unfold cached. rewrite Hhead. apply Hwarm. by right.
Qed.


Lemma loadComponents_ext (dynamic_import' : ImportCase -> Completion PluginModule)
    ids slot b :
  (∀ c, dynamic_import' c = dynamic_import c) →
  loadComponents dynamic_import' ids slot b = loadComponents dynamic_import ids slot b.
Proof.
  intros Hsame. revert b. induction ids as [|pluginId ids IH]; intros b; simpl; [done|].
  assert (Hhead : loadPluginComponent dynamic_import' pluginId slot b =
                  loadPluginComponent dynamic_import pluginId slot b).
  { unfold loadPluginComponent. destruct (slotCache b !! pluginId ≫= _); [done|].
    destruct (import_case pluginId) as [c|]; [|done]. by rewrite Hsame. }
  rewrite Hhead. destruct (loadPluginComponent dynamic_import pluginId slot b) as [? b1].
  by rewrite IH.
Qed.

End SlotRuns.

Section SlotTheorems.

Variable dynamic_import : ImportCase -> Completion PluginModule.
Variable JSON_parse : string -> Completion JsonValue.

Lemma resolveSlot_again (dynamic_import' : ImportCase -> Completion PluginModule)
    srv cookieSession pageSession props st st' b :
  let r := resolveSlot dynamic_import JSON_parse srv cookieSession pageSession props st b in
  resolvedPluginIds JSON_parse srv cookieSession pageSession props (snd r) =
    resolvedPluginIds JSON_parse srv cookieSession pageSession props b ∧
  snd (resolveSlot dynamic_import' JSON_parse srv cookieSession pageSession props st' (snd r)) =
    snd (loadComponents dynamic_import'
           (resolvedPluginIds JSON_parse srv cookieSession pageSession props b)
           (slotName props) (snd r)) ∧
  components
    (fst (resolveSlot dynamic_import' JSON_parse srv cookieSession pageSession props st'
            (snd r))) =
    omap (fun p => served dynamic_import' (snd r) p (slotName props))
         (resolvedPluginIds JSON_parse srv cookieSession pageSession props b).
Proof.
  intros r.
  assert (Hids : resolvedPluginIds JSON_parse srv cookieSession pageSession props (snd r) =
                 resolvedPluginIds JSON_parse srv cookieSession pageSession props b).
  { rewrite !resolvedPluginIds_unfold. subst r. rewrite resolveSlot_unfold. simpl.
    by rewrite loadComponents_localStorage. }
  split; [done|]. rewrite resolveSlot_unfold. simpl. rewrite Hids. split; [done|].
  apply loadComponents_served.
Qed.

(** X16.  One slot resolution writes to the console exactly one entry per
    resolved id whose load gets past the cache and fails, in order: a
    warning for an id the switch does not know, an error for an import that
    fails; a cache hit and a module without a component for the slot are
    passed over in silence.  Failures are not remembered: the next
    resolution, whose imports may end differently, looks every id up again
    that failed before, and logs it again exactly when its load fails
    again.  Every component returned was cached before or is the one the
    module behind a case of the switch holds for the slot. *)
Theorem X16_every_failed_load_is_logged (srv : Server) (cookieSession pageSession : Session)
    (props : DynamicSlotProps) (st : SlotState) (b : Browser) :
  let slot := slotName props in
  let ids := resolvedPluginIds JSON_parse srv cookieSession pageSession props b in
  let r := resolveSlot dynamic_import JSON_parse srv cookieSession pageSession props st b in
  browser_console (snd r) = browser_console b ++ omap (logged dynamic_import b slot) ids ∧
  (cache_ok dynamic_import b →
   browser_console (snd r) = browser_console b ++ omap (load_failure dynamic_import) ids) ∧
  (∀ (dynamic_import' : ImportCase -> Completion PluginModule) st',
     let again :=
       resolveSlot dynamic_import' JSON_parse srv cookieSession pageSession props st' (snd r) in
     browser_console (snd again) =
       browser_console (snd r) ++ omap (logged dynamic_import' (snd r) slot) ids ∧
     (∀ pluginId, pluginId ∈ ids → is_Some (logged dynamic_import b slot pluginId) →
        logged dynamic_import' (snd r) slot pluginId = load_failure dynamic_import' pluginId)) ∧
  (∀ c, c ∈ components (fst r) →
     ∃ pluginId,
       pluginId ∈ ids ∧
       (cached b pluginId slot = Some c ∨
        ∃ case module,
          import_case pluginId = Some case ∧ dynamic_import case = Return module ∧
          module_components module !! slot = Some c)).
Proof.
  intros slot ids r.
  assert (Hr : snd r = snd (loadComponents dynamic_import ids slot b)).
  { subst r. by rewrite resolveSlot_unfold. }
  assert (Hlog : browser_console (snd r) =
                 browser_console b ++ omap (logged dynamic_import b slot) ids).
  { rewrite Hr. apply loadComponents_logged. }
  split; [done|]. split; [|split].
  - intros Hok. rewrite Hlog. f_equal. apply omap_pointwise. intros p _. unfold logged.
    destruct (cached b p slot) as [c|] eqn:Hc; [|done].
    unfold cached in Hc. apply bind_Some in Hc as (slots & Hslots & Hc).
    symmetry. eapply bundled_not_failed. by eapply Hok.
  - intros dynamic_import' st' again.
    destruct (resolveSlot_again dynamic_import' srv cookieSession pageSession props st st' b)
      as (_ & Hagain & _). fold r ids slot in Hagain. split.
    + subst again. rewrite Hagain. apply loadComponents_logged.
    + intros pluginId Hin [entry Hentry]. unfold logged in Hentry |- *.
      destruct (cached b pluginId slot) eqn:Hc; [done|].
      rewrite Hr, loadComponents_cached, Hc, decide_True by done.
      destruct (bundled_component dynamic_import pluginId slot) eqn:Hb; [|done].
      apply bundled_not_failed in Hb. congruence.
  - intros c Hc. subst r. rewrite resolveSlot_unfold in Hc. simpl in Hc.
    rewrite loadComponents_served in Hc.
    apply list_elem_of_omap in Hc as (pluginId & Hin & Hserved).
    exists pluginId. split; [done|]. unfold served in Hserved.
    destruct (cached b pluginId (slotName props)) eqn:Hcached; [left; unfold slot; congruence|right].
    unfold bundled_component in Hserved.
    destruct (import_case pluginId) as [case|] eqn:Hcase; [|done].
    destruct (dynamic_import case) as [module|] eqn:Himport; [|done].
    by exists case, module.
Qed.

(** X17.  The component cache of [DynamicSlot] only grows.  A resolution
    keeps every entry it finds and adds, under each resolved id and the
    slot of the request, the component the import delivered, if it
    delivered one: a failure is never cached.  So the next resolution,
    whose imports may end differently, finds every entry of this one, and
    adds entries only for resolved ids that had no component this time and
    have one now; when its imports end as they did this time, it leaves the
    cache as it is.  The stored overrides are not written by a
    resolution. *)
Theorem X17_component_cache_only_grows (srv : Server) (cookieSession pageSession : Session)
    (props : DynamicSlotProps) (st : SlotState) (b : Browser) :
  let slot := slotName props in
  let ids := resolvedPluginIds JSON_parse srv cookieSession pageSession props b in
  let r := resolveSlot dynamic_import JSON_parse srv cookieSession pageSession props st b in
  (∀ pluginId s,
     cached (snd r) pluginId s =
     match cached b pluginId s with
     | Some c => Some c
     | None =>
         if decide (pluginId ∈ ids ∧ s = slot)
         then bundled_component dynamic_import pluginId slot else None
     end) ∧
  (∀ pluginId s c, cached b pluginId s = Some c → cached (snd r) pluginId s = Some c) ∧
  (∀ pluginId s, cached (snd r) pluginId s ≠ cached b pluginId s →
     pluginId ∈ ids ∧ s = slot) ∧
  (∀ pluginId, pluginId ∈ ids →
     cached (snd r) pluginId slot = served dynamic_import b pluginId slot) ∧
  (cache_ok dynamic_import b → ∀ pluginId, pluginId ∈ ids →
     cached (snd r) pluginId slot = bundled_component dynamic_import pluginId slot) ∧
  (∀ (dynamic_import' : ImportCase -> Completion PluginModule) st',
     let again :=
       resolveSlot dynamic_import' JSON_parse srv cookieSession pageSession props st' (snd r) in
     (∀ pluginId s c,
        cached (snd r) pluginId s = Some c → cached (snd again) pluginId s = Some c) ∧
     (∀ pluginId s, cached (snd again) pluginId s ≠ cached (snd r) pluginId s →
        pluginId ∈ ids ∧ s = slot ∧ served dynamic_import b pluginId slot = None ∧
        cached (snd again) pluginId s = bundled_component dynamic_import' pluginId slot) ∧
     ((∀ c, dynamic_import' c = dynamic_import c) → cache_ok dynamic_import b →
      slotCache (snd again) = slotCache (snd r))) ∧
  localStorage (snd r) = localStorage b.
Proof.
  intros slot ids r.
  assert (Hr : snd r = snd (loadComponents dynamic_import ids slot b)).
  { subst r. by rewrite resolveSlot_unfold. }
  assert (Hcached : ∀ pluginId s,
    cached (snd r) pluginId s =
    match cached b pluginId s with
    | Some c => Some c
    | None =>
        if decide (pluginId ∈ ids ∧ s = slot)
        then bundled_component dynamic_import pluginId slot else None
    end).
  { intros pluginId s. rewrite Hr. apply loadComponents_cached. }
  assert (Hwarm : ∀ pluginId, pluginId ∈ ids →
    cached (snd r) pluginId slot = served dynamic_import b pluginId slot).
  { intros pluginId Hin. rewrite Hcached. unfold served.
    destruct (cached b pluginId slot); [done|]. by rewrite decide_True. }
  split; [done|]. split; [|split; [|split; [done|split; [|split]]]].
  - intros pluginId s c Hc. by rewrite Hcached, Hc.
  - intros pluginId s. rewrite Hcached. destruct (cached b pluginId s); [done|].
    by destruct (decide _).
  - intros Hok pluginId Hin. rewrite Hr. by apply loadComponents_warms.
  - intros dynamic_import' st' again.
    destruct (resolveSlot_again dynamic_import' srv cookieSession pageSession props st st' b)
      as (_ & Hagain & _). fold r ids slot in Hagain.
    assert (Hnext : ∀ pluginId s,
      cached (snd again) pluginId s =
      match cached (snd r) pluginId s with
      | Some c => Some c
      | None =>
          if decide (pluginId ∈ ids ∧ s = slot)
          then bundled_component dynamic_import' pluginId slot else None
      end).
    { intros pluginId s. subst again. rewrite Hagain. apply loadComponents_cached. }
    split; [|split].
    + intros pluginId s c Hc. by rewrite Hnext, Hc.
    + intros pluginId s. rewrite Hnext.
      destruct (cached (snd r) pluginId s) eqn:Hc; [done|].
      destruct (decide _) as [[Hin ->]|]; [|done]. intros _.
      split; [done|]. split; [done|]. split; [|done]. by rewrite <- Hwarm.
    + intros Hsame Hok. subst again.
      rewrite Hagain, (loadComponents_ext dynamic_import dynamic_import') by done.
      pose proof (loadComponents_bundled dynamic_import ids slot b Hok) as (_ & Hok1 & _).
      rewrite <- Hr in Hok1. apply loadComponents_warm; [done|].
      intros pluginId Hin. rewrite Hr. by apply loadComponents_warms.
  - rewrite Hr. apply loadComponents_localStorage.
Qed.


End SlotTheorems.


(** X16 for two resolutions of that header: the chunk of investor-insights
    fails to load the first time, which is logged, and loads the second
    time, which logs nothing more. *)
Lemma X16_witness :
  let first := resolveSlot broken_import parse_id_array shared_slot_server (Some "u1")
                 (Some "u1") header_of_acme SlotState_initial Browser_empty in
  let again := resolveSlot shared_slot_import parse_id_array shared_slot_server (Some "u1")
                 (Some "u1") header_of_acme (fst first) (snd first) in
  browser_console (snd first) = [ErrorFailedToLoad "investor-insights" ModuleLoadError] ∧
  browser_console (snd again) = [ErrorFailedToLoad "investor-insights" ModuleLoadError].
Proof.
  intros first again.
  destruct (X16_every_failed_load_is_logged broken_import parse_id_array shared_slot_server
              (Some "u1") (Some "u1") header_of_acme SlotState_initial Browser_empty)
    as (Hfirst & _ & Hagain & _).
  destruct (Hagain shared_slot_import (fst first)) as [Hlog _].
  split; [exact Hfirst|]. subst again first. rewrite Hlog. reflexivity.
Defined.

(** X17 for the same two resolutions: the first one caches the component
    of company-metrics and nothing for investor-insights, whose import
    failed; the second one keeps the former and adds the latter. *)
Lemma X17_witness :
  let first := resolveSlot broken_import parse_id_array shared_slot_server (Some "u1")
                 (Some "u1") header_of_acme SlotState_initial Browser_empty in
  let again := resolveSlot shared_slot_import parse_id_array shared_slot_server (Some "u1")
                 (Some "u1") header_of_acme (fst first) (snd first) in
  cached (snd first) "company-metrics" "CompanyProfile.Header" =
    Some (ComponentRef "QuickStatsCard") ∧
  cached (snd first) "investor-insights" "CompanyProfile.Header" = None ∧
  cached (snd again) "company-metrics" "CompanyProfile.Header" =
    Some (ComponentRef "QuickStatsCard") ∧
  cached (snd again) "investor-insights" "CompanyProfile.Header" =
    Some (ComponentRef "PortfolioStats").
Proof.
  intros first again.
  destruct (X17_component_cache_only_grows broken_import parse_id_array shared_slot_server
              (Some "u1") (Some "u1") header_of_acme SlotState_initial Browser_empty)
    as (Hcached & _ & _ & _ & _ & Hnext & _).
  destruct (Hnext shared_slot_import (fst first)) as (Hkept & _).
  destruct (X17_component_cache_only_grows shared_slot_import parse_id_array
              shared_slot_server (Some "u1") (Some "u1") header_of_acme (fst first)
              (snd first)) as (Hadded & _).
  assert (Hmetrics : cached (snd first) "company-metrics" "CompanyProfile.Header" =
                     Some (ComponentRef "QuickStatsCard"))
    by (rewrite Hcached; reflexivity).
  split; [exact Hmetrics|]. split; [rewrite Hcached; reflexivity|].
  split; [apply Hkept; exact Hmetrics|].
  subst again. rewrite Hadded. reflexivity.
Defined.

(* ===================================================================== *)
(** ** Properties of the per-entity customizer *)
(* ===================================================================== *)

Section CustomizerFacts.

Variable JSON_parse : string -> Completion JsonValue.
Variable JSON_stringify : list JsonValue -> string.

Lemma mounted_entityConfig etype eid response storage :
  PluginCustomizer.entityConfig (PluginCustomizer.mounted JSON_parse etype eid response storage) =
  match truthy_string (storage !! storageKey etype eid) with
  | Some saved => match JSON_parse saved with Return v => v | Throw _ => JArray [] end
  | None => JArray []
  end.
Proof.
  unfold PluginCustomizer.mounted, PluginCustomizer.loadEntityConfig.
  destruct (truthy_string _); [done|]. by destruct response.
Qed.

(** What the customizer shows once something is stored under the key. *)
Lemma shown_when_stored etype eid pluginId st storage saved :
  truthy_string (storage !! storageKey etype eid) = Some saved →
  PluginCustomizer.isPluginEnabledForEntity etype eid pluginId st storage =
  match PluginCustomizer.entityConfig st with
  | JNull => Throw TypeError
  | v => json_includes v pluginId
  end.
Proof.
  intros Hsaved.
  unfold PluginCustomizer.isPluginEnabledForEntity, PluginCustomizer.nothing_configured.
  rewrite Hsaved.
  destruct (PluginCustomizer.entityConfig st); simpl; try done; by rewrite andb_false_r.
Qed.

(** X18.  What the customizer of an entity page shows for a plugin against
    what the resolver does on the same page, for a viewer the page knows:
    with nothing stored the customizer shows every plugin as enabled and
    the resolver takes all candidates; with a stored JSON array or string
    the customizer shows a plugin as enabled exactly when the stored value
    includes its id, and the resolver keeps exactly the candidates it
    includes.  The two part ways on a stored text that is no JSON: the
    customizer then shows every plugin as disabled while the resolver takes
    all candidates; on a stored value of another JSON shape the
    customizer's test throws while the resolver takes all candidates. *)
Theorem X18_customizer_and_resolver (srv : Server) (cookieSession pageSession : Session)
    (user : string) (props : DynamicSlotProps) (etype : EntityType) (eid : string)
    (response : Completion ResponseBody) (b : Browser) (pluginId : string) :
  entityType props = Some etype → entityId props = Some eid → truthy eid = true →
  session_user_id pageSession = Some user →
  let candidates := candidatePluginIds srv cookieSession (slotName props) in
  let ids := resolvedPluginIds JSON_parse srv cookieSession pageSession props b in
  let shown :=
    PluginCustomizer.isPluginEnabledForEntity etype eid pluginId
      (PluginCustomizer.mounted JSON_parse etype eid response (localStorage b))
      (localStorage b) in
  match truthy_string (localStorage b !! storageKey etype eid) with
  | None => shown = Return true ∧ ids = candidates
  | Some saved =>
      match JSON_parse saved with
      | Throw _ => shown = Return false ∧ ids = candidates
      | Return v =>
          match json_includes v pluginId with
          | Return included =>
              shown = Return included ∧
              (pluginId ∈ ids ↔ pluginId ∈ candidates ∧ included = true)
          | Throw _ => shown = Throw TypeError ∧ ids = candidates
          end
      end
  end.
Proof.
  intros Het Heid Htruthy Huser candidates ids shown.
  assert (Hids : ids =
    match truthy_string (localStorage b !! storageKey etype eid) with
    | Some saved =>
        match JSON_parse saved with
        | Return v =>
            match filter_includes v candidates with Return kept => kept | Throw _ => candidates end
        | Throw _ => candidates
        end
    | None => candidates
    end).
  { subst ids. rewrite resolvedPluginIds_unfold. unfold entity_override.
    by rewrite Het, Heid, truthy_string_truthy, Huser. }
  destruct (truthy_string (localStorage b !! storageKey etype eid)) as [saved|] eqn:Hsaved.
  - subst shown. rewrite (shown_when_stored _ _ _ _ _ saved Hsaved), mounted_entityConfig, Hsaved.
    destruct (JSON_parse saved) as [v|e]; [|done].
    destruct v; simpl; try (split; [done|]; rewrite Hids; by apply filter_includes_other_shape).
    + split; [done|]. rewrite Hids, filter_includes_string. rewrite list_elem_of_filter. apply and_comm.
    + split; [done|]. rewrite Hids, filter_includes_array. rewrite list_elem_of_filter. apply and_comm.
  - split; [|done]. subst shown.
    unfold PluginCustomizer.isPluginEnabledForEntity, PluginCustomizer.nothing_configured.
    by rewrite mounted_entityConfig, Hsaved.
Qed.

End CustomizerFacts.

(** X18 for user u1 on the page of acme with a corrupt entry: the
    customizer shows company-metrics as disabled. *)
Lemma X18_witness :
  PluginCustomizer.isPluginEnabledForEntity company "acme" "company-metrics"
    (PluginCustomizer.mounted parse_id_array company "acme"
       (Return (body (fst (GET sample_server (Some "u1")))))
       (localStorage browser_with_corrupt_override))
    (localStorage browser_with_corrupt_override) = Return false ∧
  resolvedPluginIds parse_id_array sample_server (Some "u1") (Some "u1") header_of_acme
    browser_with_corrupt_override =
  candidatePluginIds sample_server (Some "u1") "CompanyProfile.Header".
Proof.
  exact (X18_customizer_and_resolver parse_id_array sample_server (Some "u1") (Some "u1") "u1"
           header_of_acme company "acme" (Return (body (fst (GET sample_server (Some "u1")))))
           browser_with_corrupt_override "company-metrics" eq_refl eq_refl eq_refl eq_refl).
Defined.

Section CustomizerActions.

Variable JSON_parse : string -> Completion JsonValue.
Variable JSON_stringify : list JsonValue -> string.

(** After a save whose text parses back to the list saved, a freshly
    mounted customizer shows exactly the ids of the list as enabled. *)
Lemma shown_after_save etype eid newConfig b response pluginId :
  truthy (JSON_stringify newConfig) = true →
  JSON_parse (JSON_stringify newConfig) = Return (JArray newConfig) →
  let b' := PluginCustomizer.saveEntityConfig JSON_stringify etype eid newConfig b in
  PluginCustomizer.isPluginEnabledForEntity etype eid pluginId
    (PluginCustomizer.mounted JSON_parse etype eid response (localStorage b'))
    (localStorage b') = Return (Array_includes newConfig pluginId).
Proof.
  intros Htruthy Hround b'.
  assert (Hsaved : truthy_string (localStorage b' !! storageKey etype eid) =
                   Some (JSON_stringify newConfig)).
  { subst b'. simpl. rewrite lookup_insert_eq. by apply truthy_string_truthy. }
  rewrite (shown_when_stored _ _ _ _ _ _ Hsaved), mounted_entityConfig, Hsaved, Hround. done.
Qed.

(** ... and the resolver keeps exactly the candidates of the list. *)
Lemma resolved_after_save srv cookieSession pageSession user props etype eid newConfig b :
  entityType props = Some etype → entityId props = Some eid → truthy eid = true →
  session_user_id pageSession = Some user →
  truthy (JSON_stringify newConfig) = true →
  JSON_parse (JSON_stringify newConfig) = Return (JArray newConfig) →
  resolvedPluginIds JSON_parse srv cookieSession pageSession props
    (PluginCustomizer.saveEntityConfig JSON_stringify etype eid newConfig b) =
  filter (fun p => Array_includes newConfig p = true)
         (candidatePluginIds srv cookieSession (slotName props)).
Proof.
  intros Het Heid Htruthy Huser Htext Hround.
  rewrite resolvedPluginIds_unfold. unfold entity_override.
  rewrite Het, Heid, truthy_string_truthy, Huser by done. simpl.
  rewrite lookup_insert_eq. simpl. by rewrite Htext, Hround, filter_includes_array.
Qed.

(** X19.  On an entity page of a viewer the page knows, with a
    [JSON.stringify] whose texts for the two lists parse back to them:
    after "disable all" no plugin is resolved on that page, whatever is
    installed; after "enable all" the resolver keeps exactly the candidates
    that the customizer listed, which (for a customizer mounted on the
    answer of GET) are the installed and enabled plugins whose manifest
    names the entity type of the page; both actions reload the page, so the
    component cache starts empty. *)
Theorem X19_enable_all_and_disable_all (srv : Server) (cookieSession pageSession : Session)
    (user : string) (props : DynamicSlotProps) (etype : EntityType) (eid : string)
    (st : PluginCustomizer.State) (b : Browser) :
  entityType props = Some etype → entityId props = Some eid → truthy eid = true →
  session_user_id pageSession = Some user →
  let listed :=
    map (fun p => JString (manifest_id (info_manifest p))) (PluginCustomizer.plugins st) in
  truthy (JSON_stringify []) = true → JSON_parse (JSON_stringify []) = Return (JArray []) →
  truthy (JSON_stringify listed) = true →
  JSON_parse (JSON_stringify listed) = Return (JArray listed) →
  let candidates := candidatePluginIds srv cookieSession (slotName props) in
  let none := PluginCustomizer.disableAll JSON_stringify etype eid b in
  let all := PluginCustomizer.enableAll JSON_stringify etype eid st b in
  resolvedPluginIds JSON_parse srv cookieSession pageSession props none = [] ∧
  (∀ pluginId,
     pluginId ∈ resolvedPluginIds JSON_parse srv cookieSession pageSession props all ↔
     pluginId ∈ candidates ∧
     ∃ p, p ∈ PluginCustomizer.plugins st ∧ manifest_id (info_manifest p) = pluginId) ∧
  (∀ plugins authenticated,
     st = PluginCustomizer.mounted JSON_parse etype eid
            (Return (PluginsBody plugins authenticated)) (localStorage b) →
     PluginCustomizer.plugins st =
       filter (fun p => PluginCustomizer.relevant etype p = true) plugins) ∧
  slotCache none = ∅ ∧ slotCache all = ∅.
Proof.
  intros Het Heid Htruthy Huser listed Hnone Hnone' Hall Hall' candidates none all.
  split; [|split; [|split]].
  - subst none. unfold PluginCustomizer.disableAll.
    rewrite (resolved_after_save _ _ _ user _ etype eid) by done.
    fold candidates. by induction candidates.
  - intros pluginId. subst all. unfold PluginCustomizer.enableAll. fold listed.
    rewrite (resolved_after_save _ _ _ user _ etype eid) by done.
    fold candidates. rewrite list_elem_of_filter. subst listed.
    rewrite <- (map_map (fun p => manifest_id (info_manifest p)) JString).
    rewrite Array_includes_strings, list_elem_of_fmap. split.
    + intros [(p & -> & Hp) Hc]. eauto.
    + intros [Hc (p & Hp & <-)]. eauto.
  - intros plugins authenticated ->.
    unfold PluginCustomizer.mounted, PluginCustomizer.loadEntityConfig.
    by destruct (truthy_string _).
  - done.
Qed.

(** X20.  A toggle that goes through flips what the customizer shows for
    the plugin: if the customizer showed [previous] and the click handler
    returned (it throws for a stored JSON string that contains the id),
    then, with a [JSON.stringify] whose text for the new list parses back to
    it, the customizer mounted after the reload shows the opposite, and the
    resolver on that page keeps the plugin exactly when it is a candidate
    and now shown as enabled.  With a stored list, or with nothing
    configured, every other plugin the customizer lists is shown as
    before. *)
Theorem X20_toggle_flips (srv : Server) (cookieSession pageSession : Session)
    (user : string) (props : DynamicSlotProps) (etype : EntityType) (eid pluginId : string)
    (st : PluginCustomizer.State) (b b' : Browser) (previous : bool)
    (response : Completion ResponseBody) :
  entityType props = Some etype → entityId props = Some eid → truthy eid = true →
  session_user_id pageSession = Some user →
  PluginCustomizer.isPluginEnabledForEntity etype eid pluginId st (localStorage b) =
    Return previous →
  PluginCustomizer.togglePlugin JSON_stringify etype eid pluginId st b = Return b' →
  (∀ newConfig,
     PluginCustomizer.toggled etype eid pluginId st (localStorage b) = Return newConfig →
     truthy (JSON_stringify newConfig) = true ∧
     JSON_parse (JSON_stringify newConfig) = Return (JArray newConfig)) →
  let shown q :=
    PluginCustomizer.isPluginEnabledForEntity etype eid q
      (PluginCustomizer.mounted JSON_parse etype eid response (localStorage b'))
      (localStorage b') in
  shown pluginId = Return (negb previous) ∧
  (pluginId ∈ resolvedPluginIds JSON_parse srv cookieSession pageSession props b' ↔
   pluginId ∈ candidatePluginIds srv cookieSession (slotName props) ∧ previous = false) ∧
  (∀ q, q ≠ pluginId →
     (∃ p, p ∈ PluginCustomizer.plugins st ∧ manifest_id (info_manifest p) = q) →
     (∀ text, PluginCustomizer.entityConfig st ≠ JString text) →
     shown q = PluginCustomizer.isPluginEnabledForEntity etype eid q st (localStorage b)) ∧
  slotCache b' = ∅.
Proof.
  intros Het Heid Htruthy Huser Hprevious Htoggle Hround shown.
  unfold PluginCustomizer.togglePlugin in Htoggle.
  destruct (PluginCustomizer.toggled etype eid pluginId st (localStorage b))
    as [newConfig|] eqn:Htoggled; [|done].
  injection Htoggle as <-. destruct (Hround newConfig eq_refl) as [Htext Hparse].
  assert (Hshown : ∀ q, shown q = Return (Array_includes newConfig q)).
  { intros q. by apply shown_after_save. }
  assert (Hnew : Array_includes newConfig pluginId = negb previous ∧
    ∀ q, q ≠ pluginId →
      (∃ p, p ∈ PluginCustomizer.plugins st ∧ manifest_id (info_manifest p) = q) →
      (∀ text, PluginCustomizer.entityConfig st ≠ JString text) →
      Return (Array_includes newConfig q) =
      PluginCustomizer.isPluginEnabledForEntity etype eid q st (localStorage b)).
  { unfold PluginCustomizer.toggled in Htoggled.
    unfold PluginCustomizer.isPluginEnabledForEntity in *.
    destruct (PluginCustomizer.nothing_configured _ st (localStorage b)) as [[|]|]; [| |done].
    - injection Hprevious as <-. injection Htoggled as <-. split.
      + rewrite <- (map_map (fun p => manifest_id (info_manifest p)) JString).
        apply not_true_is_false. rewrite Array_includes_strings, list_elem_of_fmap.
        intros (p & Hp & Hin). apply list_elem_of_filter in Hin as [Hne _]. by destruct Hne.
      + intros q Hq (p & Hp & Hid) _. f_equal.
        rewrite <- (map_map (fun p => manifest_id (info_manifest p)) JString).
        apply Array_includes_strings, list_elem_of_fmap. exists p. split; [done|].
        apply list_elem_of_filter. split; [congruence|done].
    - rewrite Hprevious in Htoggled.
      destruct (PluginCustomizer.entityConfig st) as [| | |text|items|]; try done; simpl in *.
      + destruct previous; [done|]. injection Htoggled as <-. split; [|intros q _ _ Hshape; by destruct (Hshape text)].
        unfold Array_includes. rewrite existsb_app. simpl.
        by rewrite String.eqb_refl, orb_true_r.
      + injection Hprevious as Hprevious. destruct previous; injection Htoggled as <-.
        * split.
          -- apply not_true_is_false. unfold Array_includes.
             rewrite existsb_exists. intros (v & Hv & Heq).
             apply list_elem_of_In, list_elem_of_filter in Hv as [Hdiff _].
             destruct v; try done. simpl in Hdiff. apply String.eqb_eq in Heq as ->.
             by rewrite String.eqb_refl in Hdiff.
          -- intros q Hq _ _. f_equal. unfold Array_includes.
             apply eq_true_iff_eq. rewrite !existsb_exists. split.
             ++ intros (v & Hv & Heq). exists v. split; [|done].
                apply list_elem_of_In. apply list_elem_of_In, list_elem_of_filter in Hv. tauto.
             ++ intros (v & Hv & Heq). exists v. split; [|done].
                apply list_elem_of_In, list_elem_of_filter. split; [|by apply list_elem_of_In].
                destruct v; try done. simpl. apply String.eqb_eq in Heq as ->.
                apply eq_true_not_negb. rewrite String.eqb_eq. congruence.
        * split.
          -- unfold Array_includes. rewrite existsb_app. simpl.
             by rewrite String.eqb_refl, orb_true_r.
          -- intros q Hq _ _. f_equal. unfold Array_includes. rewrite existsb_app. simpl.
             rewrite orb_false_r. apply String.eqb_neq in Hq.
             rewrite String.eqb_sym in Hq. by rewrite Hq, orb_false_r. }
  destruct Hnew as [Hflip Hothers].
  split; [by rewrite Hshown, Hflip|]. split; [|split; [|done]].
  - rewrite (resolved_after_save _ _ _ user _ etype eid) by done.
    rewrite list_elem_of_filter, Hflip. destruct previous; simpl; split; intros []; done.
  - intros q Hq Hlisted Hshape. rewrite Hshown. by apply Hothers.
Qed.

End CustomizerActions.

(** X19 for user u1 on the page of acme: after "disable all" nothing is
    resolved. *)
Lemma X19_witness :
  resolvedPluginIds parse_id_array sample_server (Some "u1") (Some "u1") header_of_acme
    (PluginCustomizer.disableAll stringify_items company "acme" Browser_empty) = [].
Proof.
  apply (X19_enable_all_and_disable_all parse_id_array stringify_items sample_server
           (Some "u1") (Some "u1") "u1" header_of_acme company "acme" customizer_of_acme
           Browser_empty); reflexivity.
Defined.

(** X20 for user u1, who switches company-metrics off for acme. *)
Lemma X20_witness :
  PluginCustomizer.isPluginEnabledForEntity company "acme" "company-metrics"
    (PluginCustomizer.mounted parse_id_array company "acme"
       (Return (body (fst (GET sample_server (Some "u1")))))
       (localStorage
          (PluginCustomizer.saveEntityConfig stringify_items company "acme" [] Browser_empty)))
    (localStorage
       (PluginCustomizer.saveEntityConfig stringify_items company "acme" [] Browser_empty)) =
  Return false.
Proof.
  apply (X20_toggle_flips parse_id_array stringify_items sample_server
           (Some "u1") (Some "u1") "u1" header_of_acme company "acme" "company-metrics"
           customizer_of_acme Browser_empty
           (PluginCustomizer.saveEntityConfig stringify_items company "acme" [] Browser_empty)
           true (Return (body (fst (GET sample_server (Some "u1"))))));
    try reflexivity.
  intros newConfig Htoggled. vm_compute in Htoggled. injection Htoggled as <-.
  split; reflexivity.
Defined.

(* ===================================================================== *)
(** ** Properties of the plugins page *)
(* ===================================================================== *)


Lemma reported_entries srv session p :
  p ∈ reported srv session →
  info_installed p =
    bool_decide (is_Some (installation_of srv session (manifest_id (info_manifest p)))) ∧
  info_enabled p =
    default false (col_enabled <$> installation_of srv session (manifest_id (info_manifest p))).
Proof.
  unfold reported. rewrite GET_body. by intros (manifest & -> & _)%list_elem_of_fmap.
Qed.

(** The page after an action, in terms of the handler's answer. *)
Lemma after_action_spec session response srv st :
  let r := PluginsPage.after_action session response srv st in
  fst r = srv ∧ PluginsPage.actionLoading (snd r) = None ∧
  PluginsPage.plugins (snd r) =
    if response_ok response then reported srv session else PluginsPage.plugins st.
Proof. unfold PluginsPage.after_action. by destruct (response_ok response). Qed.






(** X22.  What the page lists after an action of a viewer with a user id,
    for every entry that carries the plugin id of the action: after the
    install of a registered plugin the entry is installed and enabled, so
    it stands among the installed plugins; after the uninstall of an
    installed plugin whose id the query string hands to the handler as it
    is, the entry is not installed, so it stands among the available ones
    (an id the query string cuts or decodes makes the handler act on
    another id); after a toggle of an installed plugin its [enabled] is the
    opposite of the value the toggle was called with, whatever the row
    held. *)
Theorem X22_page_actions_show_up (settings_default : JsonValue)
    (query_pluginId : string -> string)
    (session : Session) (userId pluginId : string) (srv : Server) (st : PluginsPage.State)
    (p : PluginInfo) :
  session_user_id session = Some userId → truthy pluginId = true →
  manifest_id (info_manifest p) = pluginId →
  (is_Some (getPluginManifest pluginId (server_store srv)) →
   p ∈ PluginsPage.plugins (snd (PluginsPage.installPlugin settings_default session pluginId
                                   srv st)) →
   info_enabled p = true ∧
   p ∈ PluginsPage.installedPlugins
         (snd (PluginsPage.installPlugin settings_default session pluginId srv st))) ∧
  (is_Some (pluginInstallation (server_db srv) !! (userId, pluginId)) →
   (query_pluginId pluginId = pluginId →
    p ∈ PluginsPage.plugins
          (snd (PluginsPage.uninstallPlugin query_pluginId session pluginId srv st)) →
    info_enabled p = false ∧
    p ∈ PluginsPage.availablePlugins
          (snd (PluginsPage.uninstallPlugin query_pluginId session pluginId srv st))) ∧
   (∀ currentEnabled,
      p ∈ PluginsPage.plugins
            (snd (PluginsPage.togglePlugin session pluginId currentEnabled srv st)) →
      info_installed p = true ∧ info_enabled p = negb currentEnabled)).
Proof.
  intros Hs Hp Hid.
  assert (Hentry : ∀ srv1 row,
    installation_of srv1 session pluginId = row → p ∈ reported srv1 session →
    info_installed p = bool_decide (is_Some row) ∧
    info_enabled p = default false (col_enabled <$> row)).
  { intros srv1 row <- Hin. apply reported_entries in Hin. by rewrite Hid in Hin. }
  split; [|intros [cols Hrow]; split].
  - intros [manifest Hm]. unfold PluginsPage.installPlugin, POST, pluginInstallation_upsert.
    rewrite Hs, truthy_string_truthy, Hm by done.
    assert (Hshown : ∀ response srv1 c,
      response_ok response = true →
      installation_of srv1 session pluginId = Some c → col_enabled c = true →
      p ∈ PluginsPage.plugins (snd (PluginsPage.after_action session response srv1 st)) →
      info_enabled p = true ∧
      p ∈ PluginsPage.installedPlugins
            (snd (PluginsPage.after_action session response srv1 st))).
    { intros response srv1 c Hok Hnow Hon Hin.
      destruct (after_action_spec session response srv1 st) as (_ & _ & Hlist).
      pose proof Hin as Hin'. rewrite Hlist, Hok in Hin'.
      destruct (Hentry _ _ Hnow Hin') as [Hinst Hen]. simpl in Hinst, Hen.
      split; [congruence|]. apply list_elem_of_filter. split; [by rewrite Hinst|done]. }
    destruct (pluginInstallation (server_db srv) !! (userId, pluginId)) as [cols|].
    + eapply Hshown;
        [done|unfold installation_of; rewrite Hs; simpl; apply lookup_insert_eq|done].
    + eapply Hshown;
        [done|unfold installation_of; rewrite Hs; simpl; apply lookup_insert_eq|done].
  - intros Hquery. unfold PluginsPage.uninstallPlugin, DELETE, pluginInstallation_delete.
    rewrite Hquery, Hs, truthy_string_truthy, Hrow by done. cbv beta iota zeta.
    intros Hin.
    match type of Hin with
    | context [PluginsPage.after_action session ?response ?srv1 st] =>
        destruct (after_action_spec session response srv1 st) as (_ & _ & Hlist);
        assert (Hnow : installation_of srv1 session pluginId = None)
          by (unfold installation_of; rewrite Hs; simpl; apply lookup_delete_eq)
    end.
    pose proof Hin as Hin'. rewrite Hlist in Hin'. simpl in Hin'.
    destruct (Hentry _ _ Hnow Hin') as [Hinst Hen]. simpl in Hinst, Hen.
    split; [done|]. apply list_elem_of_filter. split; [by rewrite Hinst|done].
  - intros currentEnabled.
    unfold PluginsPage.togglePlugin, PATCH, pluginInstallation_findUnique,
      pluginInstallation_update.
    rewrite Hs, truthy_string_truthy, Hrow by done. cbn -[PluginsPage.after_action].
    intros Hin.
    match type of Hin with
    | context [PluginsPage.after_action session ?response ?srv1 st] =>
        destruct (after_action_spec session response srv1 st) as (_ & _ & Hlist);
        assert (Hnow : installation_of srv1 session pluginId =
                       Some (apply_patch {| patch_enabled := Some (negb currentEnabled);
                                            patch_settings := None |} cols))
          by (unfold installation_of; rewrite Hs; simpl; apply lookup_insert_eq)
    end.
    rewrite Hlist in Hin. simpl in Hin.
    by destruct (Hentry _ _ Hnow Hin) as [Hinst Hen].
Qed.

(** X22 for user u1, who uninstalls company-metrics on the plugins page:
    its entry is listed among the available plugins. *)
Lemma X22_witness :
  let entry :=
    {| info_manifest := companyMetricsManifest; info_installed := false;
       info_enabled := false; info_settings := JObject [] |} in
  let page :=
    snd (PluginsPage.uninstallPlugin query_value (Some "u1") "company-metrics" sample_server
           PluginsPage.initial) in
  entry ∈ PluginsPage.plugins page ∧ entry ∈ PluginsPage.availablePlugins page.
Proof.
  intros entry page.
  assert (Hlisted : entry ∈ PluginsPage.plugins page) by (vm_compute; by left).
  split; [exact Hlisted|].
  destruct (X22_page_actions_show_up (JObject []) query_value (Some "u1") "u1"
              "company-metrics" sample_server PluginsPage.initial entry
              eq_refl eq_refl eq_refl) as [_ Hrow].
  destruct Hrow as [Huninstall _]; [by eexists|].
  exact (proj2 (Huninstall eq_refl Hlisted)).
Defined.

(* ===================================================================== *)
(** ** Properties of the investor listing *)
(* ===================================================================== *)

Section ListingFacts.

Variable Row : Type.
Variable row_id : Row -> string.
Variable parseInt : string -> option Z.
Variable findMany : InvestorsApi.Query -> Completion (list Row).

(** X23.  The listing answers 200, 400 or 500.  It answers 400 exactly
    when the limit parameter (20 when absent or empty) is not a number or is
    below 1, and 500 only when the query fails.  A page it returns has a
    limit between 1 and 100 (the requested one, capped), came from a query
    for one row more than the limit, and holds a prefix of the rows found,
    never more than the limit: all of them and no cursor when there are no
    more, and otherwise exactly [limit] rows with the id of the last one as
    the next cursor. *)
Theorem X23_listing_pages (cursor limitParam category_code : option string) :
  let r := InvestorsApi.GET Row row_id parseInt findMany cursor limitParam category_code in
  let requested := parseInt (default "20" (truthy_string limitParam)) in
  (fst r = 200 ∨ fst r = 400 ∨ fst r = 500) ∧
  (fst r = 400 ↔ ∀ n, requested = Some n → (n < 1)%Z) ∧
  (fst r = 500 → ∃ query e, findMany query = Throw e) ∧
  (∀ data next more limit, snd r = InvestorsApi.Page Row data next more limit →
     fst r = 200 ∧ (1 ≤ limit ≤ 100)%Z ∧
     ∃ n results,
       requested = Some n ∧ limit = Z.min n 100 ∧
       findMany (InvestorsApi.query_for cursor category_code limit) = Return results ∧
       InvestorsApi.query_take (InvestorsApi.query_for cursor category_code limit) =
         (limit + 1)%Z ∧
       data `prefix_of` results ∧ (Z.of_nat (length data) ≤ limit)%Z ∧
       (more = false → data = results ∧ next = None) ∧
       (more = true →
          Z.of_nat (length data) = limit ∧ length data < length results ∧
          ∃ row, last data = Some row ∧ next = Some (row_id row))).
Proof.
  intros r requested. subst r. unfold InvestorsApi.GET, InvestorsApi.requested_limit.
  fold requested. destruct requested as [n|]; simpl.
  2:{ split; [auto|]. split; [by split|]. split; [done|]. by intros ????. }
  destruct (Z.ltb_spec (Z.min n 100) 1) as [Hlow|Hlow]; simpl.
  { split; [auto|]. split.
    - split; [intros _ n' [= <-]; lia|done].
    - split; [done|]. by intros ????. }
  destruct (findMany (InvestorsApi.query_for cursor category_code (Z.min n 100)))
    as [results|e] eqn:Hquery; simpl.
  2:{ split; [auto|]. split.
      - split; [done|]. intros Hall. specialize (Hall n eq_refl). lia.
      - split; [eauto|]. by intros ????. }
  destruct (Z.ltb_spec (Z.min n 100) (Z.of_nat (length results))) as [Hmore|Hmore]; simpl.
  - assert (Hlen : length (take (Z.to_nat (Z.min n 100)) results) = Z.to_nat (Z.min n 100))
      by (apply length_take_le; lia).
    destruct (last (take (Z.to_nat (Z.min n 100)) results)) as [row|] eqn:Hlast; simpl.
    + split; [auto|]. split.
      { split; [done|]. intros Hall. specialize (Hall n eq_refl). lia. }
      split; [done|]. intros data next more limit [= <- <- <- <-].
      split; [done|]. split; [lia|]. exists n, results.
      repeat split; try done.
      * apply prefix_take.
      * rewrite Hlen. lia.
      * rewrite Hlen. lia.
      * rewrite Hlen. lia.
      * by exists row.
    + apply last_None in Hlast. rewrite Hlast in Hlen. simpl in Hlen. lia.
  - split; [auto|]. split.
    { split; [done|]. intros Hall. specialize (Hall n eq_refl). lia. }
    split; [done|]. intros data next more limit [= <- <- <- <-].
    split; [done|]. split; [lia|]. exists n, results.
    repeat split; done.
Qed.

End ListingFacts.

(* ===================================================================== *)
(** ** The registry over the life of the store *)
(* ===================================================================== *)

Lemma registerAvailablePlugin_prefix manifest st :
  availablePlugins st `prefix_of` availablePlugins (registerAvailablePlugin manifest st).
Proof.
  destruct (decide (manifest_id manifest ∈ JsMap_keys (availablePlugins st))) as [Hin|Hin].
  - by rewrite registerAvailablePlugin_known.
  - rewrite registerAvailablePlugin_fresh by done. by apply prefix_app_r.
Qed.

Lemma register_modules_prefix (plugins : list PluginModule) st :
  availablePlugins st `prefix_of`
  availablePlugins
    (foldl (fun s plugin => registerAvailablePlugin (module_manifest plugin) s) st plugins).
Proof.
  revert st. induction plugins as [|plugin plugins IH]; intros st; simpl; [done|].
  etrans; [apply registerAvailablePlugin_prefix|apply IH].
Qed.

Lemma registerAvailablePlugin_has manifest st :
  JsMap_has (manifest_id manifest) (availablePlugins (registerAvailablePlugin manifest st)) = true.
Proof.
  destruct (decide (manifest_id manifest ∈ JsMap_keys (availablePlugins st))) as [Hin|Hin].
  - rewrite registerAvailablePlugin_known by done. by apply JsMap_has_keys.
  - apply JsMap_has_keys. rewrite registerAvailablePlugin_fresh by done.
    unfold JsMap_keys. rewrite fmap_app. apply elem_of_app. right. by left.
Qed.

Lemma JsMap_has_prefix {V : Type} k (m m' : list (string * V)) :
  m `prefix_of` m' → JsMap_has k m = true → JsMap_has k m' = true.
Proof.
  intros [rest ->]. rewrite !JsMap_has_keys. unfold JsMap_keys. rewrite fmap_app.
  intros Hin. apply elem_of_app. by left.
Qed.

Lemma JsMap_get_prefix {V : Type} k (v : V) (m m' : list (string * V)) :
  m `prefix_of` m' → JsMap_get k m = Some v → JsMap_get k m' = Some v.
Proof.
  intros [rest ->]. induction m as [|[k' v'] m IH]; simpl; [done|].
  by destruct (String.eqb k' k).
Qed.

(** X24.  The registry is append-only over every operation of the store
    and of the two start-up modules: what was registered stays registered,
    at its position and with its manifest, so that a later registration
    under the same id never replaces an earlier one; loading and unloading
    modules do not touch the registry at all.  Running [init.ts] a second
    time leaves the registry as the first run left it, and a second
    [loadPlugins] changes nothing at all. *)
Theorem X24_registry_is_append_only
    (dynamic_import : ImportCase -> Completion PluginModule) (st : Store)
    (manifest first second : PluginManifest) (plugins : list PluginModule)
    (initialized : bool) (pluginId : string) :
  (∀ st',
     st' ∈ [registerAvailablePlugin manifest st;
            initializeAvailablePlugins first second st;
            snd (loadPlugins plugins initialized st);
            snd (loadPluginModule dynamic_import pluginId st);
            snd (unloadPluginModule pluginId st)] →
     getAvailablePlugins st `prefix_of` getAvailablePlugins st' ∧
     (∀ k m, getPluginManifest k st = Some m → getPluginManifest k st' = Some m)) ∧
  getAvailablePlugins (snd (loadPluginModule dynamic_import pluginId st)) =
    getAvailablePlugins st ∧
  getAvailablePlugins (snd (unloadPluginModule pluginId st)) = getAvailablePlugins st ∧
  getAvailablePlugins
    (initializeAvailablePlugins first second (initializeAvailablePlugins first second st)) =
    getAvailablePlugins (initializeAvailablePlugins first second st) ∧
  (let once := loadPlugins plugins initialized st in
   loadPlugins plugins (fst once) (snd once) = once).
Proof.
  assert (Hprefix : ∀ st',
    availablePlugins st `prefix_of` availablePlugins st' →
    getAvailablePlugins st `prefix_of` getAvailablePlugins st' ∧
    (∀ k m, getPluginManifest k st = Some m → getPluginManifest k st' = Some m)).
  { intros st' Hp. split.
    - destruct Hp as [rest Hp]. exists (JsMap_values rest).
      unfold getAvailablePlugins, JsMap_values. by rewrite Hp, map_app.
    - intros k m. unfold getPluginManifest. by apply JsMap_get_prefix. }
  assert (Hload : availablePlugins (snd (loadPluginModule dynamic_import pluginId st)) =
                  availablePlugins st).
  { unfold loadPluginModule, loadPluginModule_try.
    destruct (loadedModules st !! pluginId); [done|].
    destruct (import_case pluginId) as [c|]; [|done].
    destruct (dynamic_import c) as [module|]; [|done].
    destruct (module_initialize module) as [initialize|]; [|done].
    by destruct (initialize _). }
  assert (Hunload : availablePlugins (snd (unloadPluginModule pluginId st)) =
                    availablePlugins st).
  { unfold unloadPluginModule.
    destruct (loadedModules st !! pluginId) as [module|]; [|done].
    destruct (module_cleanup module) as [cleanup|]; [|done].
    by destruct (cleanup _). }
  assert (Hinit : ∀ s, availablePlugins s `prefix_of`
                       availablePlugins (initializeAvailablePlugins first second s)).
  { intros s. unfold initializeAvailablePlugins. simpl.
    etrans; [|apply registerAvailablePlugin_prefix].
    etrans; [|apply registerAvailablePlugin_prefix]. done. }
  split; [|split; [|split; [|split]]].
  - intros st' Hin. apply Hprefix.
    repeat (apply elem_of_cons in Hin as [->|Hin]); [| | | | |by apply elem_of_nil in Hin].
    + apply registerAvailablePlugin_prefix.
    + apply Hinit.
    + unfold loadPlugins. destruct initialized; [done|]. apply register_modules_prefix.
    + by rewrite Hload.
    + by rewrite Hunload.
  - unfold getAvailablePlugins. by rewrite Hload.
  - unfold getAvailablePlugins. by rewrite Hunload.
  - unfold getAvailablePlugins. f_equal.
    set (once := initializeAvailablePlugins first second st).
    assert (Hfirst : JsMap_has (manifest_id first) (availablePlugins once) = true).
    { eapply JsMap_has_prefix; [|apply registerAvailablePlugin_has].
      unfold once, initializeAvailablePlugins. simpl. apply registerAvailablePlugin_prefix. }
    assert (Hsecond : JsMap_has (manifest_id second) (availablePlugins once) = true).
    { unfold once, initializeAvailablePlugins. simpl. apply registerAvailablePlugin_has. }
    assert (Hknown : ∀ m s, JsMap_has (manifest_id m) (availablePlugins s) = true →
              availablePlugins (registerAvailablePlugin m s) = availablePlugins s).
    { intros m s Hhas. unfold registerAvailablePlugin. by rewrite Hhas. }
    change (availablePlugins (initializeAvailablePlugins first second once)) with
      (availablePlugins
         (registerAvailablePlugin second
            (registerAvailablePlugin first
               (console_write (LogMessage "Registering available plugins...") once)))).
    rewrite Hknown; [by rewrite Hknown|]. by rewrite Hknown.
  - by destruct initialized.
Qed.
